(** * MarklinSim: the MCP2515 SPI engine and the CS3 command dispatcher

    A shallow embedding of [src/mcp2515/mcp_decoder.ts] (class [McpDecoder])
    and of the CS3 handler (class [Cs3Handler]), followed by the properties
    of the specification that concern them.

    Conventions of the embedding:
    - JavaScript numbers that the code handles are integers; they are [Z].
      The bitwise operators of JavaScript coerce their operands to 32-bit
      integers; module [JS] writes that coercion out.
    - [Uint8Array(256)] is a [list Z] of length 256 whose stores reduce the
      value modulo 256 and whose out-of-range stores are ignored.
    - Objects are records, mutation is explicit state passing.
    - A callback is represented by what it does to the decoder: the
      interrupt callback by the log of the values it was called with, the
      TX-frame callback by the frames it hands to [queueRxFrames]. *)

From Stdlib Require Import ZArith QArith Qround Bool Lia Btauto.
From stdpp Require Import base option list gmap.

Local Open Scope Z_scope.

(** ** JavaScript integer operators *)

Module JS.

(** ToInt32: reduce modulo 2^32 into [-2^31, 2^31). *)
Definition toInt32 (x : Z) : Z :=
  let m := x mod 2 ^ 32 in
  if m <? 2 ^ 31 then m else m - 2 ^ 32.

(** ToUint32: reduce modulo 2^32 into [0, 2^32). *)
Definition toUint32 (x : Z) : Z := x mod 2 ^ 32.

(** Conversion applied by a store into a [Uint8Array]. *)
Definition toUint8 (x : Z) : Z := x mod 256.

(** [a & b] *)
Definition band (a b : Z) : Z := Z.land (toInt32 a) (toInt32 b).
(** [a | b] *)
Definition bor (a b : Z) : Z := Z.lor (toInt32 a) (toInt32 b).
(** [~a] *)
Definition bnot (a : Z) : Z := Z.lnot (toInt32 a).
(** [a << n]; the shift count is taken modulo 32. *)
Definition shl (a n : Z) : Z := toInt32 (Z.shiftl (toInt32 a) (n mod 32)).
(** [a >> n] (sign-propagating). *)
Definition sar (a n : Z) : Z := Z.shiftr (toInt32 a) (n mod 32).
(** [a >>> n] (zero-fill). *)
Definition shr (a n : Z) : Z := Z.shiftr (toUint32 a) (n mod 32).

(** An array element used as a number: [undefined] (index out of range)
    coerces to 0 under the integer conversions. *)
Definition num (o : option Z) : Z := default 0 o.

(** Truthiness of an array element: [undefined] and [0] are falsy. *)
Definition truthy (o : option Z) : bool :=
  match o with
  | Some v => negb (v =? 0)
  | None => false
  end.

End JS.

(** ** CAN frames *)

Record CanFrame : Type := mkFrame {
  id : Z;
  eid : Z;
  dlc : Z;
  data : list Z
}.

Record DecodeResult : Type := mkResult {
  rx : Z;
  frame : option CanFrame
}.

(** ** Constants of [mcp_decoder.ts] *)

Definition INSTRUCTION_WRITE : Z := 0x02.
Definition INSTRUCTION_READ : Z := 0x03.
Definition INSTRUCTION_BIT_MODIFY : Z := 0x05.
Definition INSTRUCTION_READ_STATUS : Z := 0xA0.

Definition TXB0_SIDH : Z := 0x31.
Definition RXB0_SIDH : Z := 0x61.

Definition CANINTE : Z := 0x2B.
Definition CANINTF : Z := 0x2C.
Definition TXB0CTRL : Z := 0x30.
Definition TXB1CTRL : Z := 0x40.
Definition TXB2CTRL : Z := 0x50.

Definition RX0IF : Z := 0x01.
Definition RX1IF : Z := 0x02.
Definition TX0IF : Z := 0x04.
Definition TX1IF : Z := 0x08.
Definition TX2IF : Z := 0x10.

Inductive State : Type :=
| IDLE
| WRITE_ADDR
| WRITE_DATA
| TX_HEADER
| TX_DATA
| READ_ADDR
| READ_DATA
| BIT_MODIFY_ADDR
| BIT_MODIFY_MASK
| BIT_MODIFY_DATA
| READ_STATUS_DUMMY.

(** ** The register file *)

(** [registers[a]] for an in-range address. *)
Definition getReg (r : list Z) (a : Z) : Z := default 0 (r !! Z.to_nat a).

(** [registers[a] = v]: the value is reduced to a byte, a store outside
    [0..255] is ignored. *)
Definition setReg (r : list Z) (a v : Z) : list Z :=
  if (0 <=? a) && (a <? 256) then <[Z.to_nat a := JS.toUint8 v]> r else r.

(** ** The decoder object *)

Record McpDecoder : Type := mkDecoder {
  state : State;
  register : Z;
  bitModifyMask : Z;
  txHeader : list Z;
  txData : list Z;
  txDlc : Z;
  registers : list Z;
  (** [None] is [null]; [Some cb] is a callback that queues [cb f]. *)
  txFrameCallback : option (CanFrame -> list CanFrame);
  (** whether an interrupt callback is installed *)
  intPinChangeCallback : bool;
  rxQueue : list CanFrame;
  intPinAsserted : bool;
  (** the arguments of the calls of the interrupt callback, oldest first *)
  intPinCalls : list bool
}.

Definition newMcpDecoder : McpDecoder :=
  {| state := IDLE; register := 0; bitModifyMask := 0;
     txHeader := []; txData := []; txDlc := 0;
     registers := replicate 256 0;
     txFrameCallback := None; intPinChangeCallback := false;
     rxQueue := []; intPinAsserted := false; intPinCalls := [] |}.

Definition set_state (v : State) (s : McpDecoder) : McpDecoder :=
  mkDecoder v (register s) (bitModifyMask s) (txHeader s) (txData s) (txDlc s)
    (registers s) (txFrameCallback s) (intPinChangeCallback s) (rxQueue s)
    (intPinAsserted s) (intPinCalls s).

Definition set_register (v : Z) (s : McpDecoder) : McpDecoder :=
  mkDecoder (state s) v (bitModifyMask s) (txHeader s) (txData s) (txDlc s)
    (registers s) (txFrameCallback s) (intPinChangeCallback s) (rxQueue s)
    (intPinAsserted s) (intPinCalls s).

Definition set_bitModifyMask (v : Z) (s : McpDecoder) : McpDecoder :=
  mkDecoder (state s) (register s) v (txHeader s) (txData s) (txDlc s)
    (registers s) (txFrameCallback s) (intPinChangeCallback s) (rxQueue s)
    (intPinAsserted s) (intPinCalls s).

Definition set_txHeader (v : list Z) (s : McpDecoder) : McpDecoder :=
  mkDecoder (state s) (register s) (bitModifyMask s) v (txData s) (txDlc s)
    (registers s) (txFrameCallback s) (intPinChangeCallback s) (rxQueue s)
    (intPinAsserted s) (intPinCalls s).

Definition set_txData (v : list Z) (s : McpDecoder) : McpDecoder :=
  mkDecoder (state s) (register s) (bitModifyMask s) (txHeader s) v (txDlc s)
    (registers s) (txFrameCallback s) (intPinChangeCallback s) (rxQueue s)
    (intPinAsserted s) (intPinCalls s).

Definition set_txDlc (v : Z) (s : McpDecoder) : McpDecoder :=
  mkDecoder (state s) (register s) (bitModifyMask s) (txHeader s) (txData s) v
    (registers s) (txFrameCallback s) (intPinChangeCallback s) (rxQueue s)
    (intPinAsserted s) (intPinCalls s).

Definition set_registers (v : list Z) (s : McpDecoder) : McpDecoder :=
  mkDecoder (state s) (register s) (bitModifyMask s) (txHeader s) (txData s)
    (txDlc s) v (txFrameCallback s) (intPinChangeCallback s) (rxQueue s)
    (intPinAsserted s) (intPinCalls s).

Definition set_rxQueue (v : list CanFrame) (s : McpDecoder) : McpDecoder :=
  mkDecoder (state s) (register s) (bitModifyMask s) (txHeader s) (txData s)
    (txDlc s) (registers s) (txFrameCallback s) (intPinChangeCallback s) v
    (intPinAsserted s) (intPinCalls s).

Definition set_intPinAsserted (v : bool) (s : McpDecoder) : McpDecoder :=
  mkDecoder (state s) (register s) (bitModifyMask s) (txHeader s) (txData s)
    (txDlc s) (registers s) (txFrameCallback s) (intPinChangeCallback s)
    (rxQueue s) v (intPinCalls s).

(** One call [this.intPinChangeCallback(v)]. *)
Definition call_intPinChangeCallback (v : bool) (s : McpDecoder) : McpDecoder :=
  mkDecoder (state s) (register s) (bitModifyMask s) (txHeader s) (txData s)
    (txDlc s) (registers s) (txFrameCallback s) (intPinChangeCallback s)
    (rxQueue s) (intPinAsserted s) (intPinCalls s ++ [v]).

Definition setTxFrameCallback (cb : CanFrame -> list CanFrame)
    (s : McpDecoder) : McpDecoder :=
  mkDecoder (state s) (register s) (bitModifyMask s) (txHeader s) (txData s)
    (txDlc s) (registers s) (Some cb) (intPinChangeCallback s) (rxQueue s)
    (intPinAsserted s) (intPinCalls s).

Definition setIntPinChangeCallback (s : McpDecoder) : McpDecoder :=
  mkDecoder (state s) (register s) (bitModifyMask s) (txHeader s) (txData s)
    (txDlc s) (registers s) (txFrameCallback s) true (rxQueue s)
    (intPinAsserted s) (intPinCalls s).

(** ** Interrupt line *)

Definition shouldTriggerInterrupt (s : McpDecoder) : bool :=
  negb (JS.band (getReg (registers s) CANINTF) (getReg (registers s) CANINTE) =? 0).

Definition updateIntPin (s : McpDecoder) : McpDecoder :=
  let shouldAssert := shouldTriggerInterrupt s in
  if Bool.eqb shouldAssert (intPinAsserted s) then s
  else
    let s1 := set_intPinAsserted shouldAssert s in
    if intPinChangeCallback s1 then call_intPinChangeCallback shouldAssert s1
    else s1.

(** ** RX injection *)

(** [for (let i = 0; i < n; i++) registers[base + i] = d[i]] *)
Definition storeBytes (d : list Z) (base : Z) (n : nat) (r : list Z) : list Z :=
  fold_left (fun r i => setReg r (base + Z.of_nat i) (JS.num (d !! i))) (seq 0 n) r.

Definition loadFrameToRxb0 (s : McpDecoder) (f : CanFrame) : McpDecoder :=
  let r := registers s in
  let r := setReg r RXB0_SIDH (JS.band (JS.sar (id f) 3) 0xFF) in
  let r := setReg r (RXB0_SIDH + 1)
             (JS.bor (JS.bor (JS.shl (JS.band (id f) 0x07) 5) 0x08)
                     (JS.band (JS.sar (eid f) 16) 0x03)) in
  let r := setReg r (RXB0_SIDH + 2) (JS.band (JS.sar (eid f) 8) 0xFF) in
  let r := setReg r (RXB0_SIDH + 3) (JS.band (eid f) 0xFF) in
  let r := setReg r (RXB0_SIDH + 4) (dlc f) in
  let r := storeBytes (data f) (RXB0_SIDH + 5) (Z.to_nat (dlc f)) r in
  let r := setReg r CANINTF (JS.bor (getReg r CANINTF) RX0IF) in
  updateIntPin (set_registers r s).

Definition tryLoadNextRxFrame (s : McpDecoder) : McpDecoder :=
  if JS.band (getReg (registers s) CANINTF) RX0IF =? 0 then
    match rxQueue s with
    | f :: q => loadFrameToRxb0 (set_rxQueue q s) f
    | [] => s
    end
  else s.

Definition queueRxFrames (s : McpDecoder) (frames : list CanFrame) : McpDecoder :=
  tryLoadNextRxFrame (set_rxQueue (rxQueue s ++ frames) s).

(** ** The SPI state machine *)

Definition isInstruction (b : Z) : bool :=
  (b =? INSTRUCTION_WRITE) || (b =? INSTRUCTION_READ)
  || (b =? INSTRUCTION_BIT_MODIFY) || (b =? INSTRUCTION_READ_STATUS).

Definition noFrame (v : Z) : DecodeResult := {| rx := v; frame := None |}.

Definition handleInstruction (s : McpDecoder) (txByte : Z)
    : McpDecoder * DecodeResult :=
  let s' :=
    if txByte =? INSTRUCTION_WRITE then set_state WRITE_ADDR s
    else if txByte =? INSTRUCTION_READ then set_state READ_ADDR s
    else if txByte =? INSTRUCTION_BIT_MODIFY then set_state BIT_MODIFY_ADDR s
    else if txByte =? INSTRUCTION_READ_STATUS then set_state READ_STATUS_DUMMY s
    else s in
  (s', noFrame 0).

Definition bit_of (v k : Z) : Z := JS.band (JS.sar v k) 1.

Definition computeStatus (s : McpDecoder) : Z :=
  let r := registers s in
  let canintf := getReg r CANINTF in
  JS.bor (JS.bor (JS.bor (JS.bor (JS.bor (JS.bor (JS.bor
    (bit_of canintf 0)
    (JS.shl (bit_of canintf 1) 1))
    (JS.shl (bit_of (getReg r TXB0CTRL) 3) 2))
    (JS.shl (bit_of canintf 2) 3))
    (JS.shl (bit_of (getReg r TXB1CTRL) 3) 4))
    (JS.shl (bit_of canintf 3) 5))
    (JS.shl (bit_of (getReg r TXB2CTRL) 3) 6))
    (JS.shl (bit_of canintf 4) 7).

Definition emitCanFrame (s : McpDecoder) : McpDecoder * CanFrame :=
  let sidh := JS.num (txHeader s !! 0%nat) in
  let sidl := JS.num (txHeader s !! 1%nat) in
  let eid8 := JS.num (txHeader s !! 2%nat) in
  let eid0 := JS.num (txHeader s !! 3%nat) in
  let f := {| id := JS.bor (JS.shl sidh 3) (JS.band (JS.sar sidl 5) 0x07);
              eid := JS.bor (JS.bor (JS.shl (JS.band sidl 0x03) 16)
                                      (JS.shl eid8 8)) eid0;
              dlc := txDlc s;
              data := txData s |} in
  let r := registers s in
  let s1 := updateIntPin
              (set_registers (setReg r CANINTF (JS.bor (getReg r CANINTF) TX0IF)) s) in
  let s2 := match txFrameCallback s1 with
            | Some cb =>
                match cb f with
                | [] => s1
                | fs => queueRxFrames s1 fs
                end
            | None => s1
            end in
  (set_state IDLE s2, f).

Definition emitResult (p : McpDecoder * CanFrame) : McpDecoder * DecodeResult :=
  (fst p, {| rx := 0; frame := Some (snd p) |}).

Definition decode (s : McpDecoder) (txByte : Z) : McpDecoder * DecodeResult :=
  match state s with
  | IDLE => handleInstruction s txByte
  | WRITE_ADDR =>
      let s1 := set_register txByte s in
      if txByte =? TXB0_SIDH
      then (set_txHeader [] (set_state TX_HEADER s1), noFrame 0)
      else (set_state WRITE_DATA s1, noFrame 0)
  | WRITE_DATA =>
      if isInstruction txByte then handleInstruction s txByte
      else
        let r := setReg (registers s) (JS.band (register s) 0xFF) txByte in
        let r := if (register s =? TXB0CTRL) && negb (JS.band txByte 0x08 =? 0)
                 then setReg r TXB0CTRL (JS.band (getReg r TXB0CTRL) (JS.bnot 0x08))
                 else r in
        let s1 := set_registers r s in
        let s2 := if JS.band (register s) 0xFF =? CANINTF
                  then tryLoadNextRxFrame (updateIntPin s1)
                  else s1 in
        (set_register (JS.band (register s2 + 1) 0xFF) s2, noFrame 0)
  | TX_HEADER =>
      let r := setReg (registers s)
                 (JS.band (TXB0_SIDH + Z.of_nat (length (txHeader s))) 0xFF) txByte in
      let s1 := set_txHeader (txHeader s ++ [txByte]) (set_registers r s) in
      if Z.of_nat (length (txHeader s1)) =? 5 then
        let s2 := set_txDlc (JS.band (JS.num (txHeader s1 !! 4%nat)) 0x0F) s1 in
        if txDlc s2 =? 0 then emitResult (emitCanFrame s2)
        else (set_state TX_DATA (set_txData [] s2), noFrame 0)
      else (s1, noFrame 0)
  | TX_DATA =>
      let r := setReg (registers s)
                 (JS.band (TXB0_SIDH + 5 + Z.of_nat (length (txData s))) 0xFF) txByte in
      let s1 := set_txData (txData s ++ [txByte]) (set_registers r s) in
      if Z.of_nat (length (txData s1)) =? txDlc s1
      then emitResult (emitCanFrame s1)
      else (s1, noFrame 0)
  | READ_ADDR => (set_state READ_DATA (set_register txByte s), noFrame 0)
  | READ_DATA =>
      if isInstruction txByte then handleInstruction s txByte
      else
        let val := getReg (registers s) (JS.band (register s) 0xFF) in
        (set_register (JS.band (register s + 1) 0xFF) s, noFrame val)
  | BIT_MODIFY_ADDR => (set_state BIT_MODIFY_MASK (set_register txByte s), noFrame 0)
  | BIT_MODIFY_MASK => (set_state BIT_MODIFY_DATA (set_bitModifyMask txByte s), noFrame 0)
  | BIT_MODIFY_DATA =>
      let addr := JS.band (register s) 0xFF in
      let oldVal := getReg (registers s) addr in
      let r := setReg (registers s) addr
                 (JS.bor (JS.band oldVal (JS.bnot (bitModifyMask s)))
                         (JS.band txByte (bitModifyMask s))) in
      let s1 := set_registers r s in
      let s2 := if addr =? CANINTF then tryLoadNextRxFrame (updateIntPin s1) else s1 in
      (set_state IDLE s2, noFrame 0)
  | READ_STATUS_DUMMY =>
      let s1 := set_state IDLE s in
      (s1, noFrame (computeStatus s1))
  end.

Definition setRegister (s : McpDecoder) (addr value : Z) : McpDecoder :=
  set_registers (setReg (registers s) (JS.band addr 0xFF) value) s.

Definition getRegister (s : McpDecoder) (addr : Z) : Z :=
  getReg (registers s) (JS.band addr 0xFF).

(** Feeding a sequence of SPI bytes, as the bridge does for each chunk; the
    results are collected in order. *)
Fixpoint decodeAll (s : McpDecoder) (bs : list Z) : McpDecoder * list DecodeResult :=
  match bs with
  | [] => (s, [])
  | b :: bs' =>
      let '(s1, r) := decode s b in
      let '(s2, rs) := decodeAll s1 bs' in
      (s2, r :: rs)
  end.

(** ** The CS3 handler *)

Definition SYSTEM_CMD : Z := 0x00.
Definition SPEED_CMD : Z := 0x04.
Definition DIRECTION_CMD : Z := 0x05.
Definition LIGHT_CMD : Z := 0x06.
Definition SWITCH_CMD : Z := 0x0B.
Definition SENSOR_CMD : Z := 0x11.

Definition STOP_SUBCMD : Z := 0x00.
Definition GO_SUBCMD : Z := 0x01.
Definition HALT_SUBCMD : Z := 0x02.

Definition CS3_MAX_SPEED : Z := 1000.
Definition SIM_MAX_SPEED : Z := 14.

Definition decodeCommand (f : CanFrame) : Z :=
  JS.bor (JS.band (JS.shl (id f) 1) 0xFE) (JS.band (JS.sar (eid f) 17) 0x01).

Definition makeAck (f : CanFrame) : CanFrame :=
  {| id := id f; eid := JS.bor (eid f) 0x10000; dlc := dlc f; data := data f |}.

Definition readId (d : list Z) : Z :=
  JS.shr
    (JS.bor (JS.bor (JS.bor (JS.shl (JS.num (d !! 0%nat)) 24)
                            (JS.shl (JS.num (d !! 1%nat)) 16))
                    (JS.shl (JS.num (d !! 2%nat)) 8))
            (JS.num (d !! 3%nat)))
    0.

(** [Math.round] on a rational: the nearest integer, a tie going up. *)
Definition Math_round (x : Q) : Z := Qfloor (x + (1 # 2))%Q.

(** The argument is an integer.  For an integer strictly between 0 and 1000
    the double [(c / 1000) * 14] is exact at the two ties (c = 250, 750) and
    elsewhere lies at least 1/500 from a tie, so [Math.round] of the double
    is [Math.round] of the exact rational. *)
Definition cs3SpeedToSim (cs3Speed : Z) : Z :=
  if cs3Speed <=? 0 then 0
  else if cs3Speed >=? CS3_MAX_SPEED then SIM_MAX_SPEED
  else Math_round (inject_Z cs3Speed / inject_Z CS3_MAX_SPEED * inject_Z SIM_MAX_SPEED)%Q.

Definition decodeSwitchId (encodedId : Z) : Z := encodedId - 0x3000 + 1.

Record HandleResult : Type := mkHandleResult {
  immediate : list CanFrame;
  delayed : list CanFrame
}.

(** [SwitchDirection] of [model/switch]. *)
Inductive SwitchDirection : Type := Straight | Curve.

(** The operations of [MarklinController] that the handler invokes. *)
Inductive ControllerCall : Type :=
| Stop
| Go
| Halt
| SetTrainSpeed (trainId simSpeed : Z) (light : bool)
| ReverseTrain (trainId : Z)
| ChangeSwitchDirection (switchId : Z) (direction : SwitchDirection).

Record Cs3Handler : Type := mkHandler {
  (** [None] is [null]; an attached controller is represented by the calls
      it has received, oldest first. *)
  controller : option (list ControllerCall);
  trainLights : gmap Z bool
}.

Definition newCs3Handler : Cs3Handler :=
  {| controller := None; trainLights := ∅ |}.

Definition setController (h : Cs3Handler) : Cs3Handler :=
  {| controller := Some []; trainLights := trainLights h |}.

(** [if (this.controller) this.controller.<call>]. *)
Definition callController (c : ControllerCall) (h : Cs3Handler) : Cs3Handler :=
  match controller h with
  | Some log => {| controller := Some (log ++ [c]); trainLights := trainLights h |}
  | None => h
  end.

Definition ackOnly (ack : CanFrame) : HandleResult :=
  {| immediate := [ack]; delayed := [] |}.

Definition handleSystem (h : Cs3Handler) (f ack : CanFrame)
    : Cs3Handler * HandleResult :=
  let h' :=
    match data f !! 4%nat with
    | Some subcmd =>
        if subcmd =? STOP_SUBCMD then callController Stop h
        else if subcmd =? GO_SUBCMD then callController Go h
        else if subcmd =? HALT_SUBCMD then callController Halt h
        else h
    | None => h
    end in
  (h', ackOnly ack).

Definition handleSpeed (h : Cs3Handler) (f ack : CanFrame)
    : Cs3Handler * HandleResult :=
  let trainId := readId (data f) in
  if dlc f <=? 4 then (h, ackOnly ack)
  else
    let cs3Speed := JS.bor (JS.shl (JS.num (data f !! 4%nat)) 8)
                           (JS.num (data f !! 5%nat)) in
    let simSpeed := cs3SpeedToSim cs3Speed in
    let light := default false (trainLights h !! trainId) in
    (callController (SetTrainSpeed trainId simSpeed light) h, ackOnly ack).

Definition handleDirection (h : Cs3Handler) (f ack : CanFrame)
    : Cs3Handler * HandleResult :=
  let trainId := readId (data f) in
  (callController (ReverseTrain trainId) h, ackOnly ack).

Definition handleLight (h : Cs3Handler) (f ack : CanFrame)
    : Cs3Handler * HandleResult :=
  let trainId := readId (data f) in
  let on := match data f !! 5%nat with
            | Some v => negb (v =? 0)
            | None => true
            end in
  ({| controller := controller h; trainLights := <[trainId := on]> (trainLights h) |},
   ackOnly ack).

Definition handleSwitch (h : Cs3Handler) (f ack : CanFrame)
    : Cs3Handler * HandleResult :=
  let encodedId := readId (data f) in
  let switchId := decodeSwitchId encodedId in
  let position := data f !! 4%nat in
  let direction := if JS.truthy position then Straight else Curve in
  (callController (ChangeSwitchDirection switchId direction) h,
   {| immediate := [ack]; delayed := [ack] |}).

Definition handleTxFrame (h : Cs3Handler) (f : CanFrame)
    : Cs3Handler * HandleResult :=
  let command := decodeCommand f in
  let ack := makeAck f in
  if command =? SYSTEM_CMD then handleSystem h f ack
  else if command =? SPEED_CMD then handleSpeed h f ack
  else if command =? DIRECTION_CMD then handleDirection h f ack
  else if command =? LIGHT_CMD then handleLight h f ack
  else if command =? SWITCH_CMD then handleSwitch h f ack
  else (h, ackOnly ack).

(** The calls the attached controller received while the handler went from
    [h] to [h']. *)
Definition callsBetween (h h' : Cs3Handler) : list ControllerCall :=
  match controller h, controller h' with
  | Some l, Some l' => drop (length l) l'
  | _, _ => []
  end.

(** ** Predicates, specification-side functions and sample inputs *)

(** A value of the SPI byte stream or of a [Uint8Array] cell. *)
Definition is_byte (b : Z) : Prop := 0 <= b < 256.

(** A register file as [new Uint8Array(256)] gives it: 256 bytes. *)
Definition regs_ok (r : list Z) : Prop :=
  length r = 256%nat /\ Forall is_byte r.

(** An instruction byte is recognised in these states. *)
Definition acceptsInstruction (s : McpDecoder) : Prop :=
  state s = IDLE \/ state s = WRITE_DATA \/ state s = READ_DATA.

(** The byte answered to the dummy byte [b] of a READ_STATUS transaction
    started in [s]. *)
Definition readStatus (s : McpDecoder) (b : Z) : Z :=
  rx (snd (decode (fst (decode s INSTRUCTION_READ_STATUS)) b)).

(** Inverse of the RXB0 layout, as the specification words it:
    id = (B0 << 3) | ((B1 >> 5) & 7), eid = ((B1 & 3) << 16) | (B2 << 8) | B3,
    dlc = B4, data = B5.. *)
Definition decodeRxb0 (r : list Z) : CanFrame :=
  let B := fun i : Z => getReg r (RXB0_SIDH + i) in
  {| id := Z.lor (Z.shiftl (B 0) 3) (Z.land (Z.shiftr (B 1) 5) 7);
     eid := Z.lor (Z.lor (Z.shiftl (Z.land (B 1) 3) 16) (Z.shiftl (B 2) 8)) (B 3);
     dlc := B 4;
     data := map (fun i : nat => B (5 + Z.of_nat i)) (seq 0 (Z.to_nat (B 4))) |}.

(** A frame of the data model: 11-bit id, 18-bit eid, dlc 0..8 and [dlc]
    data bytes. *)
Definition frame_ok (f : CanFrame) : Prop :=
  0 <= id f <= 0x7FF /\ 0 <= eid f <= 0x3FFFF /\ 0 <= dlc f <= 8 /\
  Z.of_nat (length (data f)) = dlc f /\ Forall is_byte (data f).

(** SIDH of an 11-bit id. *)
Definition sidh_of (i : Z) : Z := Z.shiftr i 3.
(** SIDL of an 11-bit id and an 18-bit eid. *)
Definition sidl_of (i e : Z) : Z :=
  Z.lor (Z.lor (Z.shiftl (Z.land i 7) 5) 8) (Z.shiftr e 16).

(** A frame to inject. *)
Definition sampleFrame : CanFrame :=
  {| id := 0x123; eid := 0x2ABCD; dlc := 3; data := [0xDE; 0xAD; 0xBE] |}.

(** The calls of the interrupt callback made while the decoder went from
    [s] to [s']. *)
Definition intCallsDuring (s s' : McpDecoder) : list bool :=
  drop (length (intPinCalls s)) (intPinCalls s').

(** The cached pin state agrees with the registers. *)
Definition synced (s : McpDecoder) : Prop :=
  intPinAsserted s = shouldTriggerInterrupt s.

(** Nothing happened on the interrupt side. *)
Definition quiet (s s' : McpDecoder) : Prop :=
  intPinChangeCallback s' = intPinChangeCallback s /\
  intPinCalls s' = intPinCalls s /\
  intPinAsserted s' = intPinAsserted s.

(** At most [n] calls were made; the last one, if any, reported the pin
    state that is now cached. *)
Definition int_effect (n : nat) (s s' : McpDecoder) : Prop :=
  intPinChangeCallback s' = intPinChangeCallback s /\
  exists evs,
    intPinCalls s' = intPinCalls s ++ evs /\ (length evs <= n)%nat /\
    (intPinChangeCallback s = false -> evs = []) /\
    (evs = [] -> intPinChangeCallback s = true ->
     intPinAsserted s' = intPinAsserted s) /\
    (forall v, last evs = Some v -> v = intPinAsserted s').

(** What one input byte does to the interrupt line: nothing, or at most two
    calls of the callback that leave the cached pin state in agreement
    with the registers. *)
Definition byte_int_effect (s s' : McpDecoder) : Prop :=
  quiet s s' \/ (int_effect 2 s s' /\ synced s').

(** Two frames to queue. *)
Definition frameA : CanFrame :=
  {| id := 0x08; eid := 0x3002A; dlc := 2; data := [0x11; 0x22] |}.
Definition frameB : CanFrame :=
  {| id := 0x09; eid := 0x30007; dlc := 1; data := [0x33] |}.

(** RX0IE enabled by a WRITE to CANINTE, two frames queued (A is loaded at
    once, B waits), then a BIT_MODIFY of CANINTF with mask RX0IF whose data
    byte is still to come. *)
Definition rxPending : McpDecoder :=
  fst (decodeAll
         (queueRxFrames
            (fst (decodeAll (setIntPinChangeCallback newMcpDecoder)
                    [0x02; 0x2B; 0x01]))
            [frameA; frameB])
         [0x05; 0x2C; 0x01]).

(** The registers of TX buffer 0 and what lies between it and RXB0. *)
Definition tx_window (a : Z) : Prop := TXB0_SIDH <= a < RXB0_SIDH.

(** [l] is visible in the register file from address [base] on. *)
Definition mirror (r : list Z) (base : Z) (l : list Z) : Prop :=
  forall (i : nat) (v : Z), l !! i = Some v -> getReg r (base + Z.of_nat i) = v.

(** The TX accumulators are kept and the TX window is untouched. *)
Definition tx_kept (s s' : McpDecoder) : Prop :=
  txHeader s' = txHeader s /\ txData s' = txData s /\ txDlc s' = txDlc s /\
  length (registers s') = length (registers s) /\
  forall a, tx_window a -> getReg (registers s') a = getReg (registers s) a.

(** While a TX buffer write is in progress the accumulators hold bytes, are
    mirrored in the register file, and the data accumulator is shorter than
    the DLC it is waiting for. *)
Definition tx_inv (s : McpDecoder) : Prop :=
  length (registers s) = 256%nat /\
  match state s with
  | TX_HEADER =>
      (length (txHeader s) < 5)%nat /\ Forall is_byte (txHeader s) /\
      mirror (registers s) TXB0_SIDH (txHeader s)
  | TX_DATA =>
      length (txHeader s) = 5%nat /\ Forall is_byte (txHeader s) /\
      mirror (registers s) TXB0_SIDH (txHeader s) /\
      0 < txDlc s <= 15 /\
      txDlc s = Z.land (JS.num (txHeader s !! 4%nat)) 0x0F /\
      Z.of_nat (length (txData s)) < txDlc s /\
      Forall is_byte (txData s) /\
      mirror (registers s) (TXB0_SIDH + 5) (txData s)
  | _ => True
  end.

(** The states the bridge can drive the decoder into: SPI bytes, RX
    injection, installation of the callbacks. *)
Inductive reachable : McpDecoder -> Prop :=
| reach_new : reachable newMcpDecoder
| reach_decode s b : reachable s -> is_byte b -> reachable (fst (decode s b))
| reach_queue s fs : reachable s -> reachable (queueRxFrames s fs)
| reach_txcb s cb : reachable s -> reachable (setTxFrameCallback cb s)
| reach_intcb s : reachable s -> reachable (setIntPinChangeCallback s).

(** The decoder at the moment [emitCanFrame] is entered: a complete header,
    and either DLC 0 or exactly DLC data bytes, all mirrored. *)
Definition pre_emit (s : McpDecoder) : Prop :=
  length (registers s) = 256%nat /\
  length (txHeader s) = 5%nat /\ Forall is_byte (txHeader s) /\
  mirror (registers s) TXB0_SIDH (txHeader s) /\
  txDlc s = Z.land (JS.num (txHeader s !! 4%nat)) 0x0F /\
  (txDlc s = 0 \/
   (0 < txDlc s <= 15 /\ Z.of_nat (length (txData s)) = txDlc s /\
    Forall is_byte (txData s) /\
    mirror (registers s) (TXB0_SIDH + 5) (txData s))).

(** WRITE to TXB0SIDH followed by SIDH, SIDL, EID8, EID0 of a frame with
    id 2 and eid 0; the DLC byte and the data follow. *)
Definition txWriteHeader : list Z := [0x02; 0x31; 0x00; 0x40; 0x00; 0x00].

(** [x] clamped to [lo..hi]. *)
Definition clamp (lo hi x : Z) : Z := Z.max lo (Z.min hi x).

(** The mapping in the words of the specification:
    round(cs3/1000 * 14), clamped to 0..14. *)
Definition spec_speed_to_sim (c : Z) : Z :=
  clamp 0 14 (Math_round (inject_Z c / inject_Z 1000 * inject_Z 14)%Q).

(** The value of the first four bytes read as a big-endian number. *)
Definition be32 (d : list Z) : Z :=
  JS.num (d !! 0%nat) * 2 ^ 24 + JS.num (d !! 1%nat) * 2 ^ 16
  + JS.num (d !! 2%nat) * 2 ^ 8 + JS.num (d !! 3%nat).

(** The calls [cs] when a controller is attached to [h], none otherwise. *)
Definition expectCalls (h : Cs3Handler) (cs : list ControllerCall) : list ControllerCall :=
  match controller h with
  | Some _ => cs
  | None => []
  end.

(** SWITCH, encoded id 0x3009, position STRAIGHT. *)
Definition switchFrame : CanFrame :=
  {| id := 0x05; eid := 0x20000; dlc := 5; data := [0x00; 0x00; 0x30; 0x09; 0x01] |}.

(** The 16-bit big-endian value of data[4], data[5]. *)
Definition be16_speed (d : list Z) : Z :=
  JS.num (d !! 4%nat) * 2 ^ 8 + JS.num (d !! 5%nat).

(** SPEED with dlc 4: a query for train 1. *)
Definition speedQuery : CanFrame :=
  {| id := 0x02; eid := 0x00; dlc := 4; data := [0x00; 0x00; 0x00; 0x01] |}.

(** SPEED with dlc 6: train 1, CS3 speed 500. *)
Definition speedSet : CanFrame :=
  {| id := 0x02; eid := 0x00; dlc := 6;
     data := [0x00; 0x00; 0x00; 0x01; 0x01; 0xF4] |}.

(** [makeSensorEvent] of the CS3 handler. *)
Definition makeSensorEvent (sensorId : Z) (oldState newState : bool) : CanFrame :=
  {| id := 0x08;
     eid := JS.bor (JS.bor (JS.shl 1 17) (JS.band sensorId 0xFFFF)) 0x10000;
     dlc := 8;
     data := [ JS.band (JS.sar sensorId 24) 0xFF;
               JS.band (JS.sar sensorId 16) 0xFF;
               JS.band (JS.sar sensorId 8) 0xFF;
               JS.band sensorId 0xFF;
               if oldState then 1 else 0;
               if newState then 1 else 0;
               0; 0 ] |}.

Definition systemGo : CanFrame :=
  {| id := 0x00; eid := 0x00; dlc := 5; data := [0; 0; 0; 0; 1] |}.

Definition directionFrame : CanFrame :=
  {| id := 0x02; eid := 0x20000; dlc := 4; data := [0; 0; 0; 7] |}.

(** The light flag a LIGHT frame stores: data[5] different from 0, and
    also a missing data[5]. *)
Definition lightFlag (f : CanFrame) : bool :=
  match data f !! 5%nat with
  | Some v => negb (v =? 0)
  | None => true
  end.

Definition lightOn : CanFrame :=
  {| id := 0x03; eid := 0x00; dlc := 6; data := [0; 0; 0; 1; 0; 1] |}.

(** The handler went from [h] to [h'] by at most one controller call, never
    attaching or detaching the controller. *)
Definition oneCallAtMost (h h' : Cs3Handler) : Prop :=
  match controller h with
  | Some l => exists cs, controller h' = Some (l ++ cs) /\ (length cs <= 1)%nat
  | None => controller h' = None
  end.

(** What a WRITE burst of plain stores leaves in the register file: the
    bytes [vs] at [a], [a+1], ... with the address wrapping modulo 256. *)
Fixpoint writeRun (r : list Z) (a : Z) (vs : list Z) : list Z :=
  match vs with
  | [] => r
  | v :: vs' => writeRun (setReg r a v) ((a + 1) mod 256) vs'
  end.

(** The data bytes [vs] of a WRITE that starts at address [a] are plain
    stores: none is an opcode, none lands on CANINTF, and a byte landing on
    TXB0CTRL has bit 3 clear. *)
Fixpoint plainRun (a : Z) (vs : list Z) : Prop :=
  match vs with
  | [] => True
  | v :: vs' =>
      isInstruction v = false /\ a <> CANINTF /\
      (a = TXB0CTRL -> JS.band v 0x08 = 0) /\
      plainRun ((a + 1) mod 256) vs'
  end.

(** CANINTF.RX0IF as a boolean. *)
Definition rx0if (s : McpDecoder) : bool :=
  Z.testbit (getReg (registers s) CANINTF) 0.

(** No frame waits in the queue while RXB0 is free. *)
Definition rx_inv (s : McpDecoder) : Prop :=
  rxQueue s = [] \/ rx0if s = true.

(** The bytes a driver writes to TX buffer 0 for a frame, after the WRITE
    opcode and the address 0x31: the header in the layout that
    [emitCanFrame] documents (SIDH, SIDL, EID8, EID0, DLC), then the data. *)
Definition txBytes (f : CanFrame) : list Z :=
  [sidh_of (id f); sidl_of (id f) (eid f);
   Z.land (Z.shiftr (eid f) 8) 0xFF; Z.land (eid f) 0xFF; dlc f] ++ data f.

(** The array [handleTxFrame] of [cs3_handler.ts] returns: the ACK once,
    for a switch command twice. *)
Definition handleTxFrameAcks (f : CanFrame) : list CanFrame :=
  let command := decodeCommand f in
  let ack := makeAck f in
  if command =? SYSTEM_CMD then [ack]
  else if command =? SPEED_CMD then [ack]
  else if command =? DIRECTION_CMD then [ack]
  else if command =? LIGHT_CMD then [ack]
  else if command =? SWITCH_CMD then [ack; ack]
  else [ack].

(** The decoder of [new McpIO()]: the TX callback hands the frame to the
    handler and queues what it returns. *)
Definition newMcpIO : McpDecoder :=
  setTxFrameCallback handleTxFrameAcks newMcpDecoder.

(** A JS [Map<number, boolean>]: the entries in insertion order, one per
    key. *)
Definition SensorMap : Type := list (Z * bool).

Fixpoint mapGet (k : Z) (m : SensorMap) : option bool :=
  match m with
  | [] => None
  | (k', v) :: m' => if k' =? k then Some v else mapGet k m'
  end.

Definition mapHas (k : Z) (m : SensorMap) : bool :=
  match mapGet k m with Some _ => true | None => false end.

(** [Map.set]: an existing key keeps its place, a new key goes last. *)
Fixpoint mapSet (k : Z) (v : bool) (m : SensorMap) : SensorMap :=
  match m with
  | [] => [(k, v)]
  | (k', v') :: m' => if k' =? k then (k', v) :: m' else (k', v') :: mapSet k v m'
  end.

(** The fields of [McpIO] that [pollSensors] reads and writes. *)
Record McpIO : Type := mkMcpIO {
  decoder : McpDecoder;
  sensorStates : SensorMap
}.

(** [currentStates] of [pollSensors]; [trains] lists, for each train of
    [controller.getTrains()], the ids of [train.getTriggeredSensors()]. *)
Definition currentStates (trains : list (list Z)) : SensorMap :=
  fold_left (fun m train => fold_left (fun m sensor => mapSet sensor true m) train m)
            trains [].

(** The [events] array of [pollSensors]. *)
Definition sensorEvents (old current : SensorMap) : list CanFrame :=
  flat_map (fun '(sensorId, newState) =>
              let oldState := default false (mapGet sensorId old) in
              if Bool.eqb newState oldState then []
              else [makeSensorEvent sensorId oldState newState]) current
  ++ flat_map (fun '(sensorId, oldState) =>
                 if mapHas sensorId current then []
                 else [makeSensorEvent sensorId oldState false]) old.

(** [pollSensors]; [controller] is [None] when no controller is attached,
    otherwise what the controller reports at the time of the poll. *)
Definition pollSensors (controller : option (list (list Z))) (io : McpIO) : McpIO :=
  match controller with
  | None => io
  | Some trains =>
      let current := currentStates trains in
      let events := sensorEvents (sensorStates io) current in
      {| decoder := match events with
                    | [] => decoder io
                    | _ => queueRxFrames (decoder io) events
                    end;
         sensorStates := current |}
  end.

(** Every sensor of the map is recorded as triggered. *)
Definition all_triggered (m : SensorMap) : Prop := Forall (fun kv => kv.2 = true) m.

Definition newMcpIOState : McpIO := {| decoder := newMcpIO; sensorStates := [] |}.

(** * Facts about the integer operators *)

Section BitFacts.

Lemma testbit_high (a k n : Z) :
  0 <= a < 2 ^ k -> 0 <= k <= n -> Z.testbit a n = false.
Proof.
  intros Ha Hk. rewrite <- (Z.mod_small a (2 ^ k)) by lia.
  apply Z.mod_pow2_bits_high. lia.
Qed.

Lemma range_of_bits (a k : Z) :
  0 <= k -> (forall n, k <= n -> Z.testbit a n = false) -> 0 <= a < 2 ^ k.
Proof.
  intros Hk H.
  assert (E : a mod 2 ^ k = a).
  { apply Z.bits_inj'. intros n Hn.
    destruct (Z.lt_ge_cases n k).
    - apply Z.mod_pow2_bits_low. lia.
    - rewrite Z.mod_pow2_bits_high by lia. symmetry. apply H. lia. }
  rewrite <- E. apply Z.mod_pos_bound. apply Z.pow_pos_nonneg; lia.
Qed.

Lemma land_range (a b k : Z) :
  0 <= k -> 0 <= b < 2 ^ k -> 0 <= Z.land a b < 2 ^ k.
Proof.
  intros Hk Hb. apply range_of_bits; [lia|]. intros n Hn.
  rewrite Z.land_spec, (testbit_high b k n) by lia. apply andb_false_r.
Qed.

Lemma land_range_l (a b k : Z) :
  0 <= k -> 0 <= a < 2 ^ k -> 0 <= Z.land a b < 2 ^ k.
Proof. intros. rewrite Z.land_comm. by apply land_range. Qed.

Lemma lor_range (a b k : Z) :
  0 <= k -> 0 <= a < 2 ^ k -> 0 <= b < 2 ^ k -> 0 <= Z.lor a b < 2 ^ k.
Proof.
  intros Hk Ha Hb. apply range_of_bits; [lia|]. intros n Hn.
  rewrite Z.lor_spec, (testbit_high a k n), (testbit_high b k n) by lia. done.
Qed.

Lemma shiftl_range (a k n : Z) :
  0 <= k -> 0 <= n -> 0 <= a < 2 ^ k -> 0 <= Z.shiftl a n < 2 ^ (k + n).
Proof.
  intros Hk Hn Ha. rewrite Z.shiftl_mul_pow2, Z.pow_add_r by lia.
  assert (0 < 2 ^ n) by (apply Z.pow_pos_nonneg; lia). nia.
Qed.

Lemma shiftr_range (a k n : Z) :
  0 <= n -> 0 <= a < 2 ^ k -> 0 <= Z.shiftr a n < 2 ^ k.
Proof.
  intros Hn Ha. rewrite Z.shiftr_div_pow2 by lia.
  assert (0 < 2 ^ n) by (apply Z.pow_pos_nonneg; lia).
  split; [apply Z.div_pos; lia|].
  apply Z.le_lt_trans with a; [|lia]. apply Z.div_le_upper_bound; nia.
Qed.

Lemma toInt32_small (x : Z) : - 2 ^ 31 <= x < 2 ^ 31 -> JS.toInt32 x = x.
Proof.
  intros H. unfold JS.toInt32.
  destruct (Z.lt_ge_cases x 0).
  - replace (x mod 2 ^ 32) with (x + 2 ^ 32).
    + destruct (Z.ltb_spec (x + 2 ^ 32) (2 ^ 31)); lia.
    + apply Z.mod_unique with (-1); lia.
  - rewrite Z.mod_small by lia.
    destruct (Z.ltb_spec x (2 ^ 31)); lia.
Qed.

Lemma toInt32_range (x : Z) : - 2 ^ 31 <= JS.toInt32 x < 2 ^ 31.
Proof.
  unfold JS.toInt32.
  pose proof (Z.mod_pos_bound x (2 ^ 32) ltac:(lia)).
  destruct (Z.ltb_spec (x mod 2 ^ 32) (2 ^ 31)); lia.
Qed.

(** ToInt32 keeps the 32 low bits. *)
Lemma toInt32_testbit (x n : Z) :
  0 <= n < 32 -> Z.testbit (JS.toInt32 x) n = Z.testbit x n.
Proof.
  intros Hn. unfold JS.toInt32.
  destruct (Z.ltb_spec (x mod 2 ^ 32) (2 ^ 31)).
  - apply Z.mod_pow2_bits_low. lia.
  - rewrite <- (Z.mod_pow2_bits_low (x mod 2 ^ 32 - 2 ^ 32) 32 n) by lia.
    rewrite <- (Z.mod_pow2_bits_low x 32 n) by lia.
    f_equal. rewrite Zminus_mod, Z.mod_same, Z.sub_0_r, !Z.mod_mod by lia.
    done.
Qed.

Lemma toUint8_byte (x : Z) : is_byte x -> JS.toUint8 x = x.
Proof. intros H. apply Z.mod_small. exact H. Qed.

Lemma toUint8_is_byte (x : Z) : is_byte (JS.toUint8 x).
Proof. apply Z.mod_pos_bound. lia. Qed.

Lemma band_small (a b : Z) :
  - 2 ^ 31 <= a < 2 ^ 31 -> - 2 ^ 31 <= b < 2 ^ 31 -> JS.band a b = Z.land a b.
Proof. intros. unfold JS.band. by rewrite !toInt32_small. Qed.

Lemma bor_small (a b : Z) :
  - 2 ^ 31 <= a < 2 ^ 31 -> - 2 ^ 31 <= b < 2 ^ 31 -> JS.bor a b = Z.lor a b.
Proof. intros. unfold JS.bor. by rewrite !toInt32_small. Qed.

Lemma sar_small (a n : Z) :
  - 2 ^ 31 <= a < 2 ^ 31 -> 0 <= n < 32 -> JS.sar a n = Z.shiftr a n.
Proof.
  intros. unfold JS.sar. by rewrite toInt32_small, Z.mod_small.
Qed.

Lemma shl_small (a n k : Z) :
  0 <= k -> 0 <= n < 32 -> k + n <= 31 -> 0 <= a < 2 ^ k ->
  JS.shl a n = Z.shiftl a n.
Proof.
  intros Hk Hn Hkn Ha. unfold JS.shl.
  assert (2 ^ k <= 2 ^ 31) by (apply Z.pow_le_mono_r; lia).
  assert (2 ^ (k + n) <= 2 ^ 31) by (apply Z.pow_le_mono_r; lia).
  pose proof (shiftl_range a k n Hk ltac:(lia) Ha).
  rewrite (toInt32_small a), Z.mod_small by lia.
  apply toInt32_small. lia.
Qed.

(** The mask operation [x & m] always lands in the range of the mask. *)
Lemma band_range (a m k : Z) :
  0 <= k <= 31 -> 0 <= m < 2 ^ k -> 0 <= JS.band a m < 2 ^ k.
Proof.
  intros Hk Hm. unfold JS.band.
  assert (2 ^ k <= 2 ^ 31) by (apply Z.pow_le_mono_r; lia).
  rewrite (toInt32_small m) by lia. apply land_range; lia.
Qed.

Lemma band_byte_mask (a : Z) : is_byte (JS.band a 0xFF).
Proof. apply (band_range a 0xFF 8); lia. Qed.

End BitFacts.

(** * Facts about the register file *)

Lemma setReg_length (r : list Z) (a v : Z) : length (setReg r a v) = length r.
Proof. unfold setReg. case_match; [apply length_insert | done]. Qed.

Lemma getReg_setReg (r : list Z) (k v a : Z) :
  length r = 256%nat -> 0 <= a ->
  getReg (setReg r k v) a =
    if decide (a = k /\ a < 256) then JS.toUint8 v else getReg r a.
Proof.
  intros Hlen Ha. unfold getReg, setReg.
  destruct (Z.leb_spec 0 k), (Z.ltb_spec k 256); simpl;
    try (case_decide; [lia | done]).
  case_decide as Hd.
  - destruct Hd as [-> _]. rewrite list_lookup_insert_eq by lia. done.
  - rewrite list_lookup_insert_ne by lia. done.
Qed.

Lemma getReg_setReg_eq (r : list Z) (k v : Z) :
  length r = 256%nat -> 0 <= k < 256 -> getReg (setReg r k v) k = JS.toUint8 v.
Proof. intros. rewrite getReg_setReg by lia. case_decide; [done | lia]. Qed.

Lemma getReg_setReg_ne (r : list Z) (k v a : Z) :
  length r = 256%nat -> 0 <= a -> a <> k -> getReg (setReg r k v) a = getReg r a.
Proof. intros. rewrite getReg_setReg by lia. case_decide; [lia | done]. Qed.

Lemma getReg_is_byte (r : list Z) (a : Z) : Forall is_byte r -> is_byte (getReg r a).
Proof.
  intros H. unfold getReg. destruct (r !! Z.to_nat a) eqn:E; simpl.
  - eapply Forall_lookup_1; eauto.
  - unfold is_byte. lia.
Qed.

Lemma setReg_bytes (r : list Z) (a v : Z) : Forall is_byte r -> Forall is_byte (setReg r a v).
Proof.
  intros H. unfold setReg. case_match; [|done].
  apply Forall_insert; [done | apply toUint8_is_byte].
Qed.

Lemma setReg_ok (r : list Z) (a v : Z) : regs_ok r -> regs_ok (setReg r a v).
Proof.
  intros [Hl Hb]. split; [by rewrite setReg_length | by apply setReg_bytes].
Qed.

Lemma new_regs_ok : regs_ok (registers newMcpDecoder).
Proof. split; [done | apply Forall_replicate; unfold is_byte; lia]. Qed.

(** * READ_STATUS *)

Lemma bit_of_b2z (v k : Z) : 0 <= k < 32 -> bit_of v k = Z.b2z (Z.testbit v k).
Proof.
  intros Hk. unfold bit_of, JS.band, JS.sar.
  rewrite (Z.mod_small k 32) by lia.
  pose proof (toInt32_range v) as Hv.
  assert (Hs : - 2 ^ 31 <= Z.shiftr (JS.toInt32 v) k < 2 ^ 31).
  { rewrite Z.shiftr_div_pow2 by lia.
    assert (0 < 2 ^ k) by (apply Z.pow_pos_nonneg; lia).
    split.
    - apply Z.div_le_lower_bound; nia.
    - apply Z.div_lt_upper_bound; nia. }
  rewrite (toInt32_small (Z.shiftr _ _)) by exact Hs.
  change (JS.toInt32 1) with (Z.ones 1).
  rewrite Z.land_ones by lia. change (2 ^ 1) with 2.
  rewrite <- Z.bit0_mod, Z.shiftr_spec, Z.add_0_l by lia.
  by rewrite toInt32_testbit by lia.
Qed.

Lemma computeStatus_bits (s : McpDecoder) :
  let r := registers s in
  let st := computeStatus s in
  Z.testbit st 0 = Z.testbit (getReg r CANINTF) 0 /\
  Z.testbit st 1 = Z.testbit (getReg r CANINTF) 1 /\
  Z.testbit st 2 = Z.testbit (getReg r TXB0CTRL) 3 /\
  Z.testbit st 3 = Z.testbit (getReg r CANINTF) 2 /\
  Z.testbit st 4 = Z.testbit (getReg r TXB1CTRL) 3 /\
  Z.testbit st 5 = Z.testbit (getReg r CANINTF) 3 /\
  Z.testbit st 6 = Z.testbit (getReg r TXB2CTRL) 3 /\
  Z.testbit st 7 = Z.testbit (getReg r CANINTF) 4 /\
  is_byte st.
Proof.
  intros r st. subst st. unfold computeStatus. fold r.
  rewrite !bit_of_b2z by lia.
  destruct (Z.testbit (getReg r CANINTF) 0), (Z.testbit (getReg r CANINTF) 1),
    (Z.testbit (getReg r CANINTF) 2), (Z.testbit (getReg r CANINTF) 3),
    (Z.testbit (getReg r CANINTF) 4), (Z.testbit (getReg r TXB0CTRL) 3),
    (Z.testbit (getReg r TXB1CTRL) 3), (Z.testbit (getReg r TXB2CTRL) 3);
    vm_compute; intuition congruence.
Qed.

Lemma toUint8_testbit (v n : Z) : 0 <= n < 8 -> Z.testbit (JS.toUint8 v) n = Z.testbit v n.
Proof. intros. unfold JS.toUint8. change 256 with (2 ^ 8). apply Z.mod_pow2_bits_low. lia. Qed.

Lemma decode_read_status (s : McpDecoder) :
  acceptsInstruction s ->
  decode s INSTRUCTION_READ_STATUS = (set_state READ_STATUS_DUMMY s, noFrame 0).
Proof. intros [H | [H | H]]; unfold decode; rewrite H; reflexivity. Qed.

Lemma readStatus_eq (s : McpDecoder) (b : Z) :
  acceptsInstruction s -> readStatus s b = computeStatus s.
Proof.
  intros H. unfold readStatus. rewrite decode_read_status by done.
  unfold decode. cbn [fst snd state set_state rx noFrame]. 
  unfold computeStatus. cbn [registers set_state]. reflexivity.
Qed.

(** C4. READ_STATUS (0xA0, then a dummy byte) answers, whatever the register
    file holds, the byte whose bits 0..7 are CANINTF.RX0IF, CANINTF.RX1IF,
    TXB0CTRL bit 3, CANINTF.TX0IF, TXB1CTRL bit 3, CANINTF.TX1IF, TXB2CTRL
    bit 3, CANINTF.TX2IF; and once bit 3 of TXB1CTRL and of TXB2CTRL have been
    set directly with [setRegister], the answer has bits 4 and 6 set. *)
Theorem read_status_layout (s : McpDecoder) (b : Z) :
  acceptsInstruction s ->
  (let r := registers s in
   let st := readStatus s b in
   Z.testbit st 0 = Z.testbit (getReg r CANINTF) 0 /\
   Z.testbit st 1 = Z.testbit (getReg r CANINTF) 1 /\
   Z.testbit st 2 = Z.testbit (getReg r TXB0CTRL) 3 /\
   Z.testbit st 3 = Z.testbit (getReg r CANINTF) 2 /\
   Z.testbit st 4 = Z.testbit (getReg r TXB1CTRL) 3 /\
   Z.testbit st 5 = Z.testbit (getReg r CANINTF) 3 /\
   Z.testbit st 6 = Z.testbit (getReg r TXB2CTRL) 3 /\
   Z.testbit st 7 = Z.testbit (getReg r CANINTF) 4 /\
   is_byte st) /\
  (forall v1 v2 : Z,
     length (registers s) = 256%nat ->
     Z.testbit v1 3 = true -> Z.testbit v2 3 = true ->
     let st := readStatus (setRegister (setRegister s TXB1CTRL v1) TXB2CTRL v2) b in
     Z.testbit st 4 = true /\ Z.testbit st 6 = true).
Proof.
  intros Hs. split.
  - cbv zeta. rewrite readStatus_eq by done. apply computeStatus_bits.
  - intros v1 v2 Hlen H1 H2. cbv zeta.
    set (s2 := setRegister (setRegister s TXB1CTRL v1) TXB2CTRL v2).
    assert (Hs2 : acceptsInstruction s2) by exact Hs.
    rewrite readStatus_eq by done.
    destruct (computeStatus_bits s2) as (_ & _ & _ & _ & E4 & _ & E6 & _).
    rewrite E4, E6. subst s2. unfold setRegister. cbn [registers set_registers].
    change (JS.band TXB1CTRL 255) with TXB1CTRL.
    change (JS.band TXB2CTRL 255) with TXB2CTRL.
    unfold TXB1CTRL, TXB2CTRL.
    rewrite getReg_setReg_ne by (rewrite ?setReg_length; lia).
    rewrite !getReg_setReg_eq by (rewrite ?setReg_length; lia).
    rewrite !toUint8_testbit by lia. done.
Qed.

Lemma read_status_layout_witness :
  acceptsInstruction newMcpDecoder /\
  Z.testbit (readStatus (setRegister (setRegister newMcpDecoder TXB1CTRL 0x08) TXB2CTRL 0x08) 0) 4 = true.
Proof.
  assert (H : acceptsInstruction newMcpDecoder) by (left; reflexivity).
  split; [exact H|].
  exact (proj1 (proj2 (read_status_layout newMcpDecoder 0 H) 8 8
                  eq_refl eq_refl eq_refl)).
Defined.

(** * TXB0CTRL: direct WRITE and BIT_MODIFY *)

Lemma bit3_not_instruction (b : Z) : Z.testbit b 3 = true -> isInstruction b = false.
Proof.
  intros H. unfold isInstruction.
  destruct (Z.eqb_spec b INSTRUCTION_WRITE) as [-> | _]; [discriminate H|].
  destruct (Z.eqb_spec b INSTRUCTION_READ) as [-> | _]; [discriminate H|].
  destruct (Z.eqb_spec b INSTRUCTION_BIT_MODIFY) as [-> | _]; [discriminate H|].
  destruct (Z.eqb_spec b INSTRUCTION_READ_STATUS) as [-> | _]; [discriminate H|].
  reflexivity.
Qed.

Lemma byte_int32 (b : Z) : is_byte b -> - 2 ^ 31 <= b < 2 ^ 31.
Proof. unfold is_byte. lia. Qed.

Lemma band_bit3 (b : Z) : is_byte b -> Z.testbit b 3 = true -> (JS.band b 0x08 =? 0) = false.
Proof.
  intros Hb H. rewrite band_small by (try apply byte_int32; try done; lia).
  apply Z.eqb_neq. intros E.
  assert (F : Z.testbit (Z.land b 8) 3 = true) by (rewrite Z.land_spec, H; done).
  rewrite E in F. discriminate F.
Qed.

Lemma lnot_byte_int32 (m : Z) : is_byte m -> - 2 ^ 31 <= Z.lnot m < 2 ^ 31.
Proof. unfold is_byte, Z.lnot. lia. Qed.

Lemma bnot_byte (m : Z) : is_byte m -> JS.bnot m = Z.lnot m.
Proof. intros H. unfold JS.bnot. rewrite toInt32_small; [done | by apply byte_int32]. Qed.

Lemma land_byte_l (a b : Z) : is_byte a -> is_byte (Z.land a b).
Proof. intros H. apply (land_range_l a b 8); [lia | exact H]. Qed.

Lemma lor_byte (a b : Z) : is_byte a -> is_byte b -> is_byte (Z.lor a b).
Proof. intros. apply (lor_range a b 8); [lia | done | done]. Qed.

(** [(old & ~mask) | (data & mask)] on bytes is the mathematical
    bit-modify, and is again a byte. *)
Lemma bit_modify_byte (old m d : Z) :
  is_byte old -> is_byte m -> is_byte d ->
  JS.bor (JS.band old (JS.bnot m)) (JS.band d m)
    = Z.lor (Z.land old (Z.lnot m)) (Z.land d m)
  /\ is_byte (Z.lor (Z.land old (Z.lnot m)) (Z.land d m)).
Proof.
  intros Ho Hm Hd.
  rewrite bnot_byte by done.
  rewrite !band_small by (auto using byte_int32, lnot_byte_int32).
  pose proof (land_byte_l old (Z.lnot m) Ho).
  pose proof (land_byte_l d m Hd).
  rewrite bor_small by (auto using byte_int32).
  split; [done | by apply lor_byte].
Qed.

(** C7. A WRITE data byte with bit 3 set that is stored at TXB0CTRL leaves
    TXB0CTRL with bit 3 clear and every other bit equal to the bit of the
    written byte. *)
Theorem write_txb0ctrl_clears_txreq (s : McpDecoder) (b : Z) :
  state s = WRITE_DATA -> register s = TXB0CTRL ->
  length (registers s) = 256%nat ->
  is_byte b -> Z.testbit b 3 = true ->
  let s' := fst (decode s b) in
  let v := getReg (registers s') TXB0CTRL in
  v = Z.land b (Z.lnot 0x08) /\
  Z.testbit v 3 = false /\
  (forall n, n <> 3 -> Z.testbit v n = Z.testbit b n) /\
  state s' = WRITE_DATA /\ register s' = TXB0CTRL + 1.
Proof.
  intros Hst Hreg Hlen Hb H3. cbv zeta.
  unfold decode. rewrite Hst, Hreg, bit3_not_instruction by done.
  change (JS.band TXB0CTRL 255) with TXB0CTRL.
  change (TXB0CTRL =? TXB0CTRL) with true.
  change (TXB0CTRL =? CANINTF) with false.
  rewrite band_bit3 by done.
  cbn [andb negb fst registers set_registers set_register state register].
  unfold TXB0CTRL.
  rewrite !getReg_setReg_eq by (rewrite ?setReg_length; lia).
  rewrite (toUint8_byte b) by done.
  assert (Hrange : is_byte (Z.land b (Z.lnot 8))) by (by apply land_byte_l).
  rewrite bnot_byte by (unfold is_byte; lia).
  rewrite band_small by (first [by apply byte_int32 | by apply lnot_byte_int32]).
  rewrite toUint8_byte by done.
  rewrite Hst, Hreg.
  split; [done|]. split; [|split; [|split; [done | reflexivity]]].
  - rewrite Z.land_spec, Z.lnot_spec by lia. rewrite andb_false_r. done.
  - intros n Hn. destruct (Z.lt_ge_cases n 0).
    + by rewrite !Z.testbit_neg_r by lia.
    + rewrite Z.land_spec, Z.lnot_spec by lia.
      change 8 with (2 ^ 3). rewrite Z.pow2_bits_false by lia.
      apply andb_true_r.
Qed.

Lemma write_txb0ctrl_clears_txreq_witness :
  getReg (registers (fst (decode (fst (decodeAll newMcpDecoder [0x02; 0x30])) 0x0B)))
         TXB0CTRL = 0x03.
Proof.
  refine (proj1 (write_txb0ctrl_clears_txreq
                   (fst (decodeAll newMcpDecoder [0x02; 0x30])) 0x0B _ _ _ _ _));
    [reflexivity | reflexivity | reflexivity | unfold is_byte; lia | reflexivity].
Defined.

(** C10. BIT_MODIFY on TXB0CTRL stores exactly
    [(old & ~mask) | (data & mask)]: when mask and data both have bit 3 set,
    the stored TXB0CTRL has bit 3 set; the clearing of TXREQ belongs to the
    WRITE path only. *)
Theorem bit_modify_txb0ctrl_keeps_txreq (s : McpDecoder) (d : Z) :
  state s = BIT_MODIFY_DATA -> register s = TXB0CTRL ->
  regs_ok (registers s) -> is_byte (bitModifyMask s) -> is_byte d ->
  let old := getReg (registers s) TXB0CTRL in
  let m := bitModifyMask s in
  let s' := fst (decode s d) in
  let v := getReg (registers s') TXB0CTRL in
  v = Z.lor (Z.land old (Z.lnot m)) (Z.land d m) /\
  (Z.testbit m 3 = true -> Z.testbit d 3 = true -> Z.testbit v 3 = true) /\
  state s' = IDLE.
Proof.
  intros Hst Hreg [Hlen Hbytes] Hm Hd. cbv zeta.
  unfold decode. rewrite Hst, Hreg.
  change (JS.band TXB0CTRL 255) with TXB0CTRL.
  change (TXB0CTRL =? CANINTF) with false.
  cbn [fst registers set_registers set_state state].
  pose proof (getReg_is_byte (registers s) TXB0CTRL Hbytes) as Ho.
  destruct (bit_modify_byte _ _ _ Ho Hm Hd) as [E Hrange].
  rewrite E. unfold TXB0CTRL in *.
  rewrite getReg_setReg_eq by lia.
  rewrite toUint8_byte by done.
  split; [done|]. split; [|done].
  intros Hm3 Hd3. rewrite Z.lor_spec, !Z.land_spec, Hm3, Hd3.
  apply orb_true_r.
Qed.

Lemma bit_modify_txb0ctrl_keeps_txreq_witness :
  getReg (registers (fst (decode (fst (decodeAll newMcpDecoder [0x05; 0x30; 0x08])) 0x08)))
         TXB0CTRL = 0x08.
Proof.
  refine (proj1 (bit_modify_txb0ctrl_keeps_txreq
                   (fst (decodeAll newMcpDecoder [0x05; 0x30; 0x08])) 0x08 _ _ _ _ _));
    [reflexivity | reflexivity | exact new_regs_ok
    | unfold is_byte; simpl; lia | unfold is_byte; lia].
Defined.

(** * RX injection: what RXB0 holds after a load *)

Lemma registers_updateIntPin (s : McpDecoder) :
  registers (updateIntPin s) = registers s.
Proof.
  unfold updateIntPin.
  destruct (Bool.eqb _ _); [done|].
  cbn [intPinChangeCallback set_intPinAsserted].
  destruct (intPinChangeCallback s); reflexivity.
Qed.

Lemma storeBytes_length (d : list Z) (base : Z) (n : nat) (r : list Z) :
  length (storeBytes d base n r) = length r.
Proof.
  unfold storeBytes. induction n as [|n IH]; [done|].
  rewrite seq_S, fold_left_app. cbn [fold_left]. by rewrite setReg_length.
Qed.

Lemma getReg_storeBytes (d : list Z) (base : Z) (n : nat) (r : list Z) (a : Z) :
  length r = 256%nat -> 0 <= base -> 0 <= a ->
  getReg (storeBytes d base n r) a =
    if decide (base <= a < base + Z.of_nat n /\ a < 256)
    then JS.toUint8 (JS.num (d !! Z.to_nat (a - base)))
    else getReg r a.
Proof.
  intros Hlen Hbase Ha. induction n as [|n IH].
  - cbn. case_decide; [lia | done].
  - unfold storeBytes in *. rewrite seq_S, fold_left_app. cbn [fold_left].
    rewrite getReg_setReg by (try (fold (storeBytes d base n r);
                                   rewrite storeBytes_length); done).
    rewrite IH. cbn [Nat.add].
    repeat case_decide; try lia; try done.
    destruct_and!. subst a. do 2 f_equal. f_equal. lia.
Qed.

Lemma storeBytes_bytes (d : list Z) (base : Z) (n : nat) (r : list Z) :
  Forall is_byte r -> Forall is_byte (storeBytes d base n r).
Proof.
  intros H. unfold storeBytes. induction n as [|n IH]; [done|].
  rewrite seq_S, fold_left_app. cbn [fold_left]. by apply setReg_bytes.
Qed.

(** ** The RXB0 layout and its inverse *)

Ltac bits :=
  repeat match goal with
  | |- context [Z.testbit (Z.lor ?a ?b) ?i] => rewrite (Z.lor_spec a b i)
  | |- context [Z.testbit (Z.land ?a ?b) ?i] => rewrite (Z.land_spec a b i)
  | |- context [Z.testbit (Z.shiftl ?a ?k) ?i] => rewrite (Z.shiftl_spec a k i) by lia
  | |- context [Z.testbit (Z.shiftr ?a ?k) ?i] => rewrite (Z.shiftr_spec a k i) by lia
  | |- context [Z.testbit (Z.ones ?k) ?i] => rewrite (Z.testbit_ones_nonneg k i) by lia
  | |- context [Z.testbit (2 ^ ?k) ?i] => rewrite (Z.pow2_bits_eqb k i) by lia
  | |- context [Z.testbit ?a ?i] => rewrite (Z.testbit_neg_r a i) by lia
  end.

Ltac cmp :=
  repeat match goal with
  | |- context [?a <? ?b] => destruct (Z.ltb_spec a b); try lia
  | |- context [?a =? ?b] => destruct (Z.eqb_spec a b); try lia
  end.

Ltac idx n :=
  repeat match goal with
  | |- context [Z.testbit ?a ?i] =>
      lazymatch i with
      | n => fail
      | _ => replace i with n by lia
      end
  end.

Lemma sidh_of_byte (i : Z) : 0 <= i <= 0x7FF -> is_byte (sidh_of i).
Proof.
  intros H. unfold sidh_of, is_byte. rewrite Z.shiftr_div_pow2 by lia.
  change (2 ^ 3) with 8. split; [apply Z.div_pos; lia|].
  apply Z.div_lt_upper_bound; lia.
Qed.

Lemma eid_hi_range (e : Z) : 0 <= e <= 0x3FFFF -> 0 <= Z.shiftr e 16 < 4.
Proof.
  intros H. rewrite Z.shiftr_div_pow2 by lia.
  change (2 ^ 16) with 65536. split; [apply Z.div_pos; lia|].
  apply Z.div_lt_upper_bound; lia.
Qed.

Lemma sidl_of_byte (i e : Z) : 0 <= e <= 0x3FFFF -> is_byte (sidl_of i e).
Proof.
  intros He. pose proof (eid_hi_range e He). unfold sidl_of.
  apply lor_byte; [apply lor_byte|]; unfold is_byte; try lia.
  pose proof (shiftl_range (Z.land i 7) 3 5 ltac:(lia) ltac:(lia)
                (land_range i 7 3 ltac:(lia) ltac:(lia))). 
  change (2 ^ (3 + 5)) with 256 in *. lia.
Qed.

Lemma id_roundtrip (i e : Z) :
  0 <= i <= 0x7FF -> 0 <= e <= 0x3FFFF ->
  Z.lor (Z.shiftl (sidh_of i) 3) (Z.land (Z.shiftr (sidl_of i e) 5) 7) = i.
Proof.
  intros Hi He. unfold sidh_of, sidl_of.
  apply Z.bits_inj'. intros n Hn.
  change 7 with (Z.ones 3). change 8 with (2 ^ 3).
  destruct (Z.lt_ge_cases n 3).
  - bits. rewrite (testbit_high e 18) by lia. cmp. idx n. btauto.
  - bits. cmp. idx n.
    destruct (Z.lt_ge_cases n 11); [btauto|].
    rewrite (testbit_high i 11 n) by lia. btauto.
Qed.

Lemma eid_roundtrip (i e : Z) :
  0 <= e <= 0x3FFFF ->
  Z.lor (Z.lor (Z.shiftl (Z.land (sidl_of i e) 3) 16)
               (Z.shiftl (Z.land (Z.shiftr e 8) 0xFF) 8))
        (Z.land e 0xFF) = e.
Proof.
  intros He. unfold sidl_of.
  apply Z.bits_inj'. intros n Hn.
  change 3 with (Z.ones 2). change 7 with (Z.ones 3). change 8 with (2 ^ 3) at 1.
  change 255 with (Z.ones 8).
  destruct (Z.lt_ge_cases n 8); [|destruct (Z.lt_ge_cases n 16);
                                   [|destruct (Z.lt_ge_cases n 18)]].
  - bits. cmp. btauto.
  - bits. cmp. idx n. btauto.
  - bits. cmp. idx n. btauto.
  - rewrite (testbit_high e 18 n) by lia.
    bits. cmp.
Qed.

Lemma land_ones_small (a k : Z) : 0 <= k -> 0 <= a < 2 ^ k -> Z.land a (Z.ones k) = a.
Proof. intros Hk Ha. rewrite Z.land_ones by lia. apply Z.mod_small. lia. Qed.

Lemma map_seq_lookup (g : nat -> Z) (d : list Z) :
  (forall i v, d !! i = Some v -> g i = v) -> map g (seq 0 (length d)) = d.
Proof.
  induction d as [|x d IH] using rev_ind; [done|].
  intros H. rewrite length_app. cbn [length]. rewrite Nat.add_1_r, seq_S, map_app.
  cbn [map Nat.add]. f_equal.
  - apply IH. intros i v Hi. apply H. by apply lookup_app_l_Some.
  - f_equal. apply H. rewrite lookup_app_r by lia.
    by rewrite Nat.sub_diag.
Qed.

Section RxLoad.

Variable s : McpDecoder.
Variable f : CanFrame.
Hypothesis Hlen : length (registers s) = 256%nat.
Hypothesis Hf : frame_ok f.

Lemma rx_sidh : JS.band (JS.sar (id f) 3) 0xFF = sidh_of (id f).
Proof.
  destruct Hf as (Hi & _).
  pose proof (sidh_of_byte _ Hi) as Hb. unfold is_byte in Hb.
  rewrite sar_small by lia. fold (sidh_of (id f)).
  rewrite band_small by lia.
  apply (land_ones_small _ 8); lia.
Qed.

Lemma rx_sidl :
  JS.bor (JS.bor (JS.shl (JS.band (id f) 0x07) 5) 0x08)
         (JS.band (JS.sar (eid f) 16) 0x03) = sidl_of (id f) (eid f).
Proof.
  destruct Hf as (Hi & He & _).
  pose proof (eid_hi_range _ He) as Hhi.
  rewrite (band_small (id f)) by lia.
  pose proof (land_range (id f) 7 3 ltac:(lia) ltac:(lia)) as H7.
  rewrite (shl_small _ 5 3) by lia.
  pose proof (shiftl_range _ 3 5 ltac:(lia) ltac:(lia) H7) as Hs.
  change (2 ^ (3 + 5)) with 256 in Hs. change (2 ^ 3) with 8 in H7.
  rewrite sar_small by lia.
  rewrite (band_small (Z.shiftr _ _)) by lia.
  rewrite (land_ones_small _ 2) by (change (2 ^ 2) with 4; lia).
  rewrite (bor_small (Z.shiftl _ _)) by lia.
  pose proof (lor_byte (Z.shiftl (Z.land (id f) 7) 5) 8 Hs ltac:(unfold is_byte; lia)) as Hl.
  unfold is_byte in Hl.
  rewrite bor_small by lia. reflexivity.
Qed.

Lemma rx_eid8 : JS.band (JS.sar (eid f) 8) 0xFF = Z.land (Z.shiftr (eid f) 8) 0xFF.
Proof.
  destruct Hf as (_ & He & _).
  pose proof (shiftr_range (eid f) 18 8 ltac:(lia) ltac:(lia)).
  rewrite sar_small by lia. rewrite band_small by lia. done.
Qed.

Lemma rx_eid0 : JS.band (eid f) 0xFF = Z.land (eid f) 0xFF.
Proof. destruct Hf as (_ & He & _). rewrite band_small by lia. done. Qed.

Lemma land_ff_byte (a : Z) : is_byte (Z.land a 0xFF).
Proof. apply (land_range a 0xFF 8); lia. Qed.

(** The register file right after [loadFrameToRxb0]. *)
Lemma rxb0_contents :
  let r := registers (loadFrameToRxb0 s f) in
  getReg r RXB0_SIDH = sidh_of (id f) /\
  getReg r (RXB0_SIDH + 1) = sidl_of (id f) (eid f) /\
  getReg r (RXB0_SIDH + 2) = Z.land (Z.shiftr (eid f) 8) 0xFF /\
  getReg r (RXB0_SIDH + 3) = Z.land (eid f) 0xFF /\
  getReg r (RXB0_SIDH + 4) = dlc f /\
  (forall i v, data f !! i = Some v -> getReg r (RXB0_SIDH + 5 + Z.of_nat i) = v) /\
  Z.testbit (getReg r CANINTF) 0 = true.
Proof.
  pose proof Hf as (Hi & He & Hd & Hdl & Hdb).
  cbv zeta. unfold loadFrameToRxb0. rewrite registers_updateIntPin.
  cbn [registers set_registers].
  rewrite rx_sidh, rx_sidl, rx_eid8, rx_eid0.
  unfold RXB0_SIDH, CANINTF, RX0IF.
  repeat split.
  all: try (repeat (first [rewrite getReg_setReg
                             by (rewrite ?storeBytes_length, ?setReg_length; lia)
                          | rewrite getReg_storeBytes
                             by (rewrite ?storeBytes_length, ?setReg_length; lia)];
                    case_decide; try lia)).
  - apply toUint8_byte, sidh_of_byte; lia.
  - apply toUint8_byte, sidl_of_byte; lia.
  - apply toUint8_byte, land_ff_byte.
  - apply toUint8_byte, land_ff_byte.
  - apply toUint8_byte. unfold is_byte. lia.
  - intros i v Hiv. pose proof (lookup_lt_Some _ _ _ Hiv) as Hlt.
    (rewrite getReg_setReg, getReg_storeBytes
      by (rewrite ?storeBytes_length, ?setReg_length; lia)).
    repeat case_decide; try lia.
    replace (Z.to_nat (97 + 5 + Z.of_nat i - (97 + 5))) with i by lia.
    rewrite Hiv. cbn [JS.num default]. apply toUint8_byte.
    eapply Forall_lookup_1; eauto.
  - rewrite toUint8_testbit by lia. unfold JS.bor.
    rewrite Z.lor_spec, !toInt32_testbit by lia. apply orb_true_r.
Qed.

End RxLoad.

(** C3. For a frame F of the data model (id 0..0x7FF, eid 0..0x3FFFF, dlc
    0..8, dlc data bytes), once the engine has loaded F into RXB0 and set
    CANINTF.RX0IF, decoding the registers from RXB0SIDH with the inverse
    layout gives back F. *)
Theorem rx_load_roundtrip (s : McpDecoder) (f : CanFrame) :
  length (registers s) = 256%nat -> frame_ok f ->
  let s' := loadFrameToRxb0 s f in
  decodeRxb0 (registers s') = f /\
  Z.testbit (getReg (registers s') CANINTF) 0 = true.
Proof.
  intros Hlen Hf. cbv zeta.
  destruct (rxb0_contents s f Hlen Hf) as (E0 & E1 & E2 & E3 & E4 & E5 & E6).
  split; [|exact E6].
  pose proof Hf as (Hi & He & Hd & Hdl & Hdb).
  unfold decodeRxb0. rewrite Z.add_0_r, E0, E1, E2, E3, E4.
  rewrite id_roundtrip, eid_roundtrip by done.
  destruct f as [fi fe fd fdata]. cbn [id eid dlc data] in *.
  subst fd. f_equal. rewrite Nat2Z.id. apply map_seq_lookup.
  intros i v Hiv. rewrite Z.add_assoc. by apply E5.
Qed.

Lemma rx_load_roundtrip_witness :
  decodeRxb0 (registers (loadFrameToRxb0 newMcpDecoder sampleFrame)) = sampleFrame.
Proof.
  refine (proj1 (rx_load_roundtrip newMcpDecoder sampleFrame _ _)).
  - reflexivity.
  - unfold frame_ok, sampleFrame; cbn [id eid dlc data length].
    repeat split; try lia.
    repeat constructor; unfold is_byte; lia.
Defined.

(** * The interrupt line *)

Lemma quiet_refl (s : McpDecoder) : quiet s s.
Proof. by repeat split. Qed.

Lemma quiet_effect (s s' : McpDecoder) : quiet s s' -> int_effect 0 s s'.
Proof.
  intros (Hc & Hl & Ha). split; [done|]. exists [].
  rewrite app_nil_r. repeat split; try done.
Qed.

Lemma int_effect_trans (n m : nat) (s s1 s2 : McpDecoder) :
  int_effect n s s1 -> int_effect m s1 s2 -> int_effect (n + m) s s2.
Proof.
  intros (Hc1 & e1 & Hl1 & Hn1 & Hf1 & Hk1 & Hv1) (Hc2 & e2 & Hl2 & Hn2 & Hf2 & Hk2 & Hv2).
  split; [congruence|]. exists (e1 ++ e2).
  rewrite Hl2, Hl1, <- app_assoc, length_app.
  split; [done|]. split; [lia|].
  rewrite Hc1 in *.
  split; [|split].
  - intros Hcb. by rewrite Hf1, Hf2.
  - intros Hnil Hcb. apply app_eq_nil in Hnil as [-> ->].
    rewrite Hk2, Hk1; done.
  - intros v Hv. destruct e2 as [|x e2] using rev_ind.
    + rewrite app_nil_r in Hv.
      destruct (intPinChangeCallback s) eqn:Hcb.
      * rewrite Hk2 by done. by apply Hv1.
      * rewrite Hf1 in Hv by done. discriminate Hv.
    + apply Hv2. rewrite last_snoc. rewrite app_assoc, last_snoc in Hv. done.
Qed.

Lemma int_effect_mono (n m : nat) (s s' : McpDecoder) :
  (n <= m)%nat -> int_effect n s s' -> int_effect m s s'.
Proof.
  intros Hnm (Hc & e & Hl & Hn & Hrest). split; [done|].
  exists e. split; [done|]. split; [lia | done].
Qed.

Lemma updateIntPin_effect (s : McpDecoder) : int_effect 1 s (updateIntPin s).
Proof.
  unfold updateIntPin.
  destruct (Bool.eqb _ _) eqn:E.
  - apply (int_effect_mono 0); [lia|]. apply quiet_effect, quiet_refl.
  - cbn [intPinChangeCallback set_intPinAsserted].
    destruct (intPinChangeCallback s) eqn:Hcb.
    + split; [done|]. exists [shouldTriggerInterrupt s].
      cbn. repeat split; try done.
      * intros Hf. congruence.
      * intros v Hv. by injection Hv as <-.
    + split; [done|]. exists []. cbn. rewrite app_nil_r, Hcb.
      repeat split; try done. lia.
Qed.

Lemma updateIntPin_synced (s : McpDecoder) : synced (updateIntPin s).
Proof.
  unfold synced, updateIntPin.
  destruct (Bool.eqb _ _) eqn:E.
  - apply Bool.eqb_prop in E. done.
  - cbn [intPinChangeCallback set_intPinAsserted].
    destruct (intPinChangeCallback s); reflexivity.
Qed.

(** [synced] only looks at the registers and the cached pin state. *)
Lemma synced_ext (s s' : McpDecoder) :
  registers s' = registers s -> intPinAsserted s' = intPinAsserted s ->
  synced s -> synced s'.
Proof.
  unfold synced, shouldTriggerInterrupt. intros -> ->. done.
Qed.

Lemma loadFrameToRxb0_effect (s : McpDecoder) (f : CanFrame) :
  int_effect 1 s (loadFrameToRxb0 s f) /\ synced (loadFrameToRxb0 s f).
Proof.
  unfold loadFrameToRxb0. split; [|apply updateIntPin_synced].
  match goal with
  | |- int_effect _ _ (updateIntPin ?x) => apply (int_effect_trans 0 1 _ x)
  end.
  - apply quiet_effect. by repeat split.
  - apply updateIntPin_effect.
Qed.

Lemma tryLoadNextRxFrame_effect (s : McpDecoder) :
  synced s ->
  int_effect 1 s (tryLoadNextRxFrame s) /\ synced (tryLoadNextRxFrame s).
Proof.
  intros Hs. unfold tryLoadNextRxFrame.
  destruct (_ =? 0); [destruct (rxQueue s) as [|f q] eqn:Hq|].
  - split; [|done]. apply (int_effect_mono 0); [lia|]. apply quiet_effect, quiet_refl.
  - destruct (loadFrameToRxb0_effect (set_rxQueue q s) f) as [He Hsy].
    split; [|done].
    apply (int_effect_trans 0 1 _ (set_rxQueue q s)); [|done].
    apply quiet_effect. by repeat split.
  - split; [|done]. apply (int_effect_mono 0); [lia|]. apply quiet_effect, quiet_refl.
Qed.

Lemma queueRxFrames_effect (s : McpDecoder) (fs : list CanFrame) :
  synced s ->
  int_effect 1 s (queueRxFrames s fs) /\ synced (queueRxFrames s fs).
Proof.
  intros Hs. unfold queueRxFrames.
  destruct (tryLoadNextRxFrame_effect (set_rxQueue (rxQueue s ++ fs) s)) as [He Hsy].
  { by apply (synced_ext s). }
  split; [|done].
  apply (int_effect_trans 0 1 _ (set_rxQueue (rxQueue s ++ fs) s)); [|done].
  apply quiet_effect. by repeat split.
Qed.

(** A store to CANINTF followed by the two side effects of the code. *)
Lemma store_effect (s : McpDecoder) (r : list Z) :
  let s' := tryLoadNextRxFrame (updateIntPin (set_registers r s)) in
  int_effect 2 s s' /\ synced s'.
Proof.
  cbv zeta.
  destruct (tryLoadNextRxFrame_effect (updateIntPin (set_registers r s)))
    as [He Hsy]; [apply updateIntPin_synced|].
  split; [|done].
  apply (int_effect_trans 1 1 _ (updateIntPin (set_registers r s))); [|done].
  apply (int_effect_trans 0 1 _ (set_registers r s)).
  - apply quiet_effect. by repeat split.
  - apply updateIntPin_effect.
Qed.

Lemma emitCanFrame_effect (s : McpDecoder) :
  let s' := fst (emitCanFrame s) in
  int_effect 2 s s' /\ synced s'.
Proof.
  cbv zeta. unfold emitCanFrame. cbn [fst].
  set (s0 := set_registers _ s).
  set (s1 := updateIntPin s0).
  set (fr := mkFrame _ _ _ _).
  assert (H1 : int_effect 1 s s1).
  { apply (int_effect_trans 0 1 _ s0); [|apply updateIntPin_effect].
    apply quiet_effect. by repeat split. }
  assert (Hs1 : synced s1) by apply updateIntPin_synced.
  assert (H2 : forall s2, int_effect 1 s1 s2 -> synced s2 ->
                 int_effect 2 s (set_state IDLE s2) /\ synced (set_state IDLE s2)).
  { intros s2 He Hsy. split; [|by apply (synced_ext s2)].
    apply (int_effect_trans 2 0 _ s2).
    - by apply (int_effect_trans 1 1 _ s1).
    - apply quiet_effect. by repeat split. }
  assert (H0 : int_effect 1 s1 s1).
  { apply (int_effect_mono 0); [lia|]. apply quiet_effect, quiet_refl. }
  destruct (txFrameCallback s1) as [cb|]; [|by apply H2].
  destruct (cb fr) as [|f0 fs] eqn:Hcb; [by apply H2|].
  destruct (queueRxFrames_effect s1 (f0 :: fs) Hs1) as [He Hsy].
  by apply H2.
Qed.

Lemma quiet_then_effect (s s0 s' : McpDecoder) :
  quiet s s0 -> int_effect 2 s0 s' /\ synced s' -> byte_int_effect s s'.
Proof.
  intros Hq [He Hs]. right. split; [|done].
  apply (int_effect_trans 0 2 _ s0); [by apply quiet_effect | done].
Qed.

Lemma effect_then_quiet (s t t' : McpDecoder) :
  int_effect 2 s t /\ synced t -> quiet t t' -> registers t' = registers t ->
  byte_int_effect s t'.
Proof.
  intros [He Hs] Hq Hr. right. split.
  - apply (int_effect_trans 2 0 _ t); [done | by apply quiet_effect].
  - destruct Hq as (_ & _ & Ha). by apply (synced_ext t).
Qed.

Lemma handleInstruction_quiet (s : McpDecoder) (b : Z) :
  quiet s (fst (handleInstruction s b)).
Proof.
  unfold handleInstruction. cbn [fst].
  repeat (destruct (_ =? _)); by repeat split.
Qed.

Lemma decode_int_effect (s : McpDecoder) (b : Z) :
  byte_int_effect s (fst (decode s b)).
Proof.
  unfold decode. destruct (state s).
  - left. apply handleInstruction_quiet.
  - left. destruct (b =? TXB0_SIDH); by repeat split.
  - destruct (isInstruction b); [left; apply handleInstruction_quiet|].
    cbn [fst]. destruct (JS.band (register s) 255 =? CANINTF).
    + eapply effect_then_quiet; [apply store_effect | by repeat split | done].
    + left. by repeat split.
  - cbn [txHeader set_txHeader set_registers txDlc set_txDlc].
    destruct (_ =? 5); [|left; by repeat split].
    destruct (_ =? 0); [|left; by repeat split].
    unfold emitResult. cbn [fst].
    eapply quiet_then_effect; [|apply emitCanFrame_effect]. by repeat split.
  - cbn [txData set_txData set_registers txDlc].
    destruct (_ =? _); [|left; by repeat split].
    unfold emitResult. cbn [fst].
    eapply quiet_then_effect; [|apply emitCanFrame_effect]. by repeat split.
  - left. by repeat split.
  - destruct (isInstruction b); [left; apply handleInstruction_quiet|].
    left. by repeat split.
  - left. by repeat split.
  - left. by repeat split.
  - cbn [fst]. destruct (JS.band (register s) 255 =? CANINTF).
    + eapply effect_then_quiet; [apply store_effect | by repeat split | done].
    + left. by repeat split.
  - left. by repeat split.
Qed.

(** C1, as the code has it.  For every input byte the interrupt-change
    callback is invoked at most twice, and when it is invoked, the value
    reported last is the final state [(CANINTF & CANINTE) != 0]. *)
Theorem int_callback_per_byte (s : McpDecoder) (b : Z) :
  let s' := fst (decode s b) in
  exists evs : list bool,
    intPinCalls s' = intPinCalls s ++ evs /\
    intCallsDuring s s' = evs /\
    (length evs <= 2)%nat /\
    forall v, last evs = Some v -> v = shouldTriggerInterrupt s'.
Proof.
  cbv zeta. unfold intCallsDuring.
  destruct (decode_int_effect s b) as [(_ & Hl & _) | [(_ & evs & Hl & Hn & _ & _ & Hv) Hs]].
  - exists []. rewrite Hl, app_nil_r, drop_all. repeat split; try done. cbn; lia.
  - exists evs. rewrite Hl, drop_app_length. repeat split; try done.
    intros v Hlast. rewrite <- Hs. by apply Hv.
Qed.

(** ** A byte that clears RX0IF while a frame is queued *)

(** C1 as stated fails: the data byte 0x00 clears RX0IF, loads frame B and
    sets RX0IF again, and the callback is invoked twice for this one byte,
    first with [false], then with [true]. *)
Lemma int_callback_twice_counterexample :
  let s := rxPending in
  let s' := fst (decode s 0x00) in
  Z.testbit (getReg (registers s) CANINTF) 0 = true /\
  rxQueue s = [frameB] /\
  decodeRxb0 (registers s') = frameB /\ rxQueue s' = [] /\
  Z.testbit (getReg (registers s') CANINTF) 0 = true /\
  intCallsDuring s s' = [false; true] /\
  ~ (length (intCallsDuring s s') <= 1)%nat.
Proof.
  vm_compute. repeat split; try reflexivity. lia.
Qed.

Lemma int_callback_per_byte_witness :
  exists evs : list bool,
    intPinCalls (fst (decode rxPending 0x00)) = intPinCalls rxPending ++ evs /\
    intCallsDuring rxPending (fst (decode rxPending 0x00)) = evs /\
    (length evs <= 2)%nat /\
    forall v, last evs = Some v -> v = shouldTriggerInterrupt (fst (decode rxPending 0x00)).
Proof. exact (int_callback_per_byte rxPending 0x00). Defined.

(** * The TX path *)

Lemma tx_kept_refl (s : McpDecoder) : tx_kept s s.
Proof. by repeat split. Qed.

Lemma tx_kept_trans (s s1 s2 : McpDecoder) :
  tx_kept s s1 -> tx_kept s1 s2 -> tx_kept s s2.
Proof.
  intros (H1 & H2 & H3 & H4 & H5) (K1 & K2 & K3 & K4 & K5).
  repeat split; try congruence.
  intros a Ha. rewrite K5, H5; done.
Qed.

Lemma updateIntPin_fields (s : McpDecoder) :
  state (updateIntPin s) = state s /\
  txFrameCallback (updateIntPin s) = txFrameCallback s /\
  rxQueue (updateIntPin s) = rxQueue s /\
  txHeader (updateIntPin s) = txHeader s /\
  txData (updateIntPin s) = txData s /\
  txDlc (updateIntPin s) = txDlc s.
Proof.
  unfold updateIntPin. destruct (Bool.eqb _ _); [done|].
  cbn [intPinChangeCallback set_intPinAsserted].
  destruct (intPinChangeCallback s); done.
Qed.

Lemma updateIntPin_tx_kept (s : McpDecoder) : tx_kept s (updateIntPin s).
Proof.
  destruct (updateIntPin_fields s) as (_ & _ & _ & H1 & H2 & H3).
  unfold tx_kept. rewrite registers_updateIntPin. by repeat split.
Qed.

Lemma loadFrameToRxb0_tx_kept (s : McpDecoder) (f : CanFrame) :
  length (registers s) = 256%nat ->
  tx_kept s (loadFrameToRxb0 s f) /\ state (loadFrameToRxb0 s f) = state s.
Proof.
  intros Hlen. unfold loadFrameToRxb0.
  match goal with
  | |- context [updateIntPin ?x] =>
      destruct (updateIntPin_fields x) as (Hst & _ & _ & H1 & H2 & H3)
  end.
  unfold tx_kept. rewrite registers_updateIntPin, Hst, H1, H2, H3.
  cbn [registers set_registers txHeader txData txDlc state].
  repeat split; try done.
  - by rewrite !setReg_length, storeBytes_length, !setReg_length.
  - intros a Ha. unfold tx_window, TXB0_SIDH, RXB0_SIDH, CANINTF in *.
    repeat (first [rewrite getReg_setReg
                     by (rewrite ?storeBytes_length, ?setReg_length; lia)
                  | rewrite getReg_storeBytes
                     by (rewrite ?storeBytes_length, ?setReg_length; lia)];
            case_decide; try lia).
Qed.

Lemma tryLoadNextRxFrame_tx_kept (s : McpDecoder) :
  length (registers s) = 256%nat ->
  tx_kept s (tryLoadNextRxFrame s) /\ state (tryLoadNextRxFrame s) = state s.
Proof.
  intros Hlen. unfold tryLoadNextRxFrame.
  destruct (_ =? 0); [|split; [apply tx_kept_refl | done]].
  destruct (rxQueue s) as [|f q]; [split; [apply tx_kept_refl | done]|].
  destruct (loadFrameToRxb0_tx_kept (set_rxQueue q s) f Hlen) as [Hk Hst].
  split; [|done]. eapply tx_kept_trans; [|exact Hk]. by repeat split.
Qed.

Lemma queueRxFrames_tx_kept (s : McpDecoder) (fs : list CanFrame) :
  length (registers s) = 256%nat ->
  tx_kept s (queueRxFrames s fs) /\ state (queueRxFrames s fs) = state s.
Proof.
  intros Hlen. unfold queueRxFrames.
  destruct (tryLoadNextRxFrame_tx_kept (set_rxQueue (rxQueue s ++ fs) s) Hlen)
    as [Hk Hst].
  split; [|done]. eapply tx_kept_trans; [|exact Hk]. by repeat split.
Qed.

Lemma emitCanFrame_tx_kept (s : McpDecoder) :
  length (registers s) = 256%nat ->
  tx_kept s (fst (emitCanFrame s)) /\ state (fst (emitCanFrame s)) = IDLE.
Proof.
  intros Hlen. unfold emitCanFrame. cbn [fst].
  set (s0 := set_registers _ s).
  set (fr := mkFrame _ _ _ _).
  assert (H0 : tx_kept s s0).
  { subst s0. unfold tx_kept. cbn [registers set_registers txHeader txData txDlc].
    rewrite setReg_length. repeat split; try done.
    intros a Ha. unfold tx_window, TXB0_SIDH, RXB0_SIDH, CANINTF in *.
    by rewrite getReg_setReg_ne by lia. }
  assert (H1 : tx_kept s (updateIntPin s0)).
  { eapply tx_kept_trans; [exact H0 | apply updateIntPin_tx_kept]. }
  assert (Hl1 : length (registers (updateIntPin s0)) = 256%nat).
  { destruct H1 as (_ & _ & _ & -> & _). done. }
  assert (H2 : forall s2, tx_kept s s2 ->
                 tx_kept s (set_state IDLE s2) /\ state (set_state IDLE s2) = IDLE).
  { intros s2 Hk. split; [|done]. eapply tx_kept_trans; [exact Hk|]. by repeat split. }
  destruct (txFrameCallback (updateIntPin s0)) as [cb|]; [|by apply H2].
  destruct (cb fr) as [|f0 fs]; [by apply H2|].
  apply H2. eapply tx_kept_trans; [exact H1|].
  by apply queueRxFrames_tx_kept.
Qed.

(** ** The invariant of the TX accumulators *)

Lemma mirror_kept (s s' : McpDecoder) (base : Z) (l : list Z) :
  tx_kept s s' -> TXB0_SIDH <= base -> base + Z.of_nat (length l) <= RXB0_SIDH ->
  mirror (registers s) base l -> mirror (registers s') base l.
Proof.
  intros (_ & _ & _ & _ & Hw) Hb Hl Hm i v Hi.
  pose proof (lookup_lt_Some _ _ _ Hi).
  rewrite Hw; [by apply Hm|]. unfold tx_window. lia.
Qed.

Lemma tx_inv_kept (s s' : McpDecoder) :
  tx_kept s s' -> state s' = state s -> tx_inv s -> tx_inv s'.
Proof.
  intros Hk Hst [Hlen Hinv].
  pose proof Hk as (H1 & H2 & H3 & H4 & H5).
  split; [congruence|]. rewrite Hst. unfold TXB0_SIDH, RXB0_SIDH in *.
  destruct (state s); try done.
  - destruct Hinv as (Hn & Hb & Hm). rewrite H1.
    repeat split; try done.
    apply (mirror_kept s); try done; unfold TXB0_SIDH, RXB0_SIDH; lia.
  - destruct Hinv as (Hn & Hb & Hm & Hd & Hde & Hdl & Hdb & Hdm).
    rewrite H1, H2, H3. repeat split; try done; try lia.
    + apply (mirror_kept s); try done; unfold TXB0_SIDH, RXB0_SIDH; lia.
    + apply (mirror_kept s); try done; unfold TXB0_SIDH, RXB0_SIDH; lia.
Qed.

(** Appending a byte to an accumulator and storing it at the next address
    keeps the mirror. *)
Lemma mirror_push (r : list Z) (base : Z) (l : list Z) (b : Z) :
  length r = 256%nat -> is_byte b ->
  0 <= base -> base + Z.of_nat (length l) < 256 ->
  mirror r base l ->
  mirror (setReg r (JS.band (base + Z.of_nat (length l)) 0xFF) b) base (l ++ [b]).
Proof.
  intros Hlen Hb Hbase Hfit Hm i v Hi.
  rewrite band_small by lia.
  change 255 with (Z.ones 8). rewrite (land_ones_small _ 8) by lia.
  apply lookup_app_Some in Hi as [Hi | [Hge Hi]].
  - pose proof (lookup_lt_Some _ _ _ Hi).
    rewrite getReg_setReg_ne by lia. by apply Hm.
  - apply list_lookup_singleton_Some in Hi as [Hi <-].
    replace (Z.of_nat i) with (Z.of_nat (length l)) by lia.
    rewrite getReg_setReg_eq by lia. by apply toUint8_byte.
Qed.

(** A store outside the range an accumulator occupies keeps its mirror. *)
Lemma mirror_store_other (r : list Z) (base : Z) (l : list Z) (a v : Z) :
  length r = 256%nat -> 0 <= base ->
  (a < base \/ base + Z.of_nat (length l) <= a) ->
  mirror r base l -> mirror (setReg r a v) base l.
Proof.
  intros Hlen Hbase Ha Hm i w Hi.
  pose proof (lookup_lt_Some _ _ _ Hi).
  rewrite getReg_setReg_ne by lia. by apply Hm.
Qed.

Lemma handleInstruction_tx_inv (s : McpDecoder) (b : Z) :
  length (registers s) = 256%nat ->
  state s <> TX_HEADER -> state s <> TX_DATA ->
  tx_inv (fst (handleInstruction s b)).
Proof.
  intros Hlen H1 H2. unfold handleInstruction. cbn [fst].
  repeat (destruct (_ =? _)); try (split; [done|]; cbn [state set_state]; done).
  split; [done|]. destruct (state s); done.
Qed.

Lemma dlc_nibble (b : Z) : 0 <= JS.band b 0x0F <= 15.
Proof. pose proof (band_range b 0x0F 4 ltac:(lia) ltac:(lia)). lia. Qed.

Lemma band_nibble_byte (b : Z) : is_byte b -> JS.band b 0x0F = Z.land b 0x0F.
Proof. intros Hb. apply band_small; [by apply byte_int32 | lia]. Qed.

Lemma decode_tx_inv (s : McpDecoder) (b : Z) :
  is_byte b -> tx_inv s -> tx_inv (fst (decode s b)).
Proof.
  intros Hb [Hlen Hinv]. unfold decode.
  destruct (state s) eqn:Hst.
  - apply handleInstruction_tx_inv; [done | by rewrite Hst ..].
  - destruct (b =? TXB0_SIDH); split; try done.
    cbn. repeat split; [lia | done |]. intros i v Hi. discriminate Hi.
  - destruct (isInstruction b).
    { apply handleInstruction_tx_inv; [done | by rewrite Hst ..]. }
    cbn [fst].
    match goal with
    | |- tx_inv (set_register _ ?x) =>
        assert (Hx : length (registers x) = 256%nat /\ state x = WRITE_DATA)
    end.
    { destruct (_ =? CANINTF).
      - match goal with
        | |- context [tryLoadNextRxFrame ?y] =>
            destruct (tryLoadNextRxFrame_tx_kept y) as [(_ & _ & _ & Hl & _) Hs]
        end.
        + rewrite registers_updateIntPin. cbn [fst registers set_registers].
          destruct (_ && _); by rewrite ?setReg_length.
        + rewrite Hl, Hs, registers_updateIntPin.
          match goal with
          | |- context [state (updateIntPin ?y)] =>
              destruct (updateIntPin_fields y) as (-> & _)
          end.
          cbn [fst registers set_registers state].
          split; [|done]. destruct (_ && _); by rewrite ?setReg_length.
      - cbn [fst registers set_registers state].
        split; [|done]. destruct (_ && _); by rewrite ?setReg_length. }
    destruct Hx as [Hx1 Hx2]. split; [done|].
    cbn [fst state set_register]. by rewrite Hx2.
  - destruct Hinv as (Hn & Hbs & Hm).
    cbn [txHeader set_txHeader set_registers txDlc set_txDlc].
    assert (Hm' : mirror (setReg (registers s)
                            (JS.band (TXB0_SIDH + Z.of_nat (length (txHeader s))) 255) b)
                         TXB0_SIDH (txHeader s ++ [b])).
    { apply mirror_push; try done; unfold TXB0_SIDH; lia. }
    assert (Hbs' : Forall is_byte (txHeader s ++ [b])).
    { apply Forall_app. split; [done | by constructor]. }
    rewrite length_app. cbn [length].
    destruct (Z.eqb_spec (Z.of_nat (length (txHeader s) + 1)) 5) as [E5|N5].
    + destruct (Z.eqb_spec (JS.band (JS.num ((txHeader s ++ [b]) !! 4%nat)) 15) 0) as [E0|N0].
      * unfold emitResult. cbn [fst].
        match goal with
        | |- tx_inv (fst (emitCanFrame ?x)) =>
            destruct (emitCanFrame_tx_kept x) as [(_ & _ & _ & Hl & _) Hs]
        end.
        { cbn [fst registers set_registers set_txDlc set_txHeader].
          by rewrite setReg_length. }
        split; [|by rewrite Hs].
        rewrite Hl. cbn [fst registers set_registers set_txDlc set_txHeader].
        by rewrite setReg_length.
      * split; [cbn [fst registers set_state set_txData set_txDlc set_txHeader set_registers];
                by rewrite setReg_length|].
        cbn [fst state set_state txHeader set_txData set_txDlc set_txHeader set_registers
             registers txDlc txData].
        pose proof (dlc_nibble (JS.num ((txHeader s ++ [b]) !! 4%nat))) as Hr.
        assert (Hb4 : is_byte (JS.num ((txHeader s ++ [b]) !! 4%nat))).
        { destruct ((txHeader s ++ [b]) !! 4%nat) as [x|] eqn:E4; cbn.
          - eapply Forall_lookup_1; eauto.
          - unfold is_byte. lia. }
        rewrite length_app. cbn [length].
        repeat split; try done; try lia.
        by apply band_nibble_byte.
    + split; [cbn [fst registers set_txHeader set_registers]; by rewrite setReg_length|].
      cbn [fst state set_txHeader set_registers txHeader registers]. rewrite Hst.
      rewrite length_app. cbn [length]. repeat split; try done. lia.
  - destruct Hinv as (Hn & Hbs & Hm & Hd & Hde & Hdl & Hdb & Hdm).
    cbn [txData set_txData set_registers txDlc].
    rewrite length_app. cbn [length].
    destruct (Z.eqb_spec (Z.of_nat (length (txData s) + 1)) (txDlc s)) as [E|N].
    + unfold emitResult. cbn [fst].
      match goal with
      | |- tx_inv (fst (emitCanFrame ?x)) =>
          destruct (emitCanFrame_tx_kept x) as [(_ & _ & _ & Hl & _) Hs]
      end.
      { cbn [fst registers set_registers set_txData]. by rewrite setReg_length. }
      split; [|by rewrite Hs].
      rewrite Hl. cbn [fst registers set_registers set_txData]. by rewrite setReg_length.
    + split; [cbn [fst registers set_txData set_registers]; by rewrite setReg_length|].
      cbn [fst state set_txData set_registers txHeader registers txDlc txData]. rewrite Hst.
      rewrite length_app. cbn [length].
      repeat split; try done; try lia.
      * apply mirror_store_other; try done.
        right. rewrite band_small by (unfold TXB0_SIDH; lia).
        change 255 with (Z.ones 8).
        rewrite (land_ones_small _ 8) by (unfold TXB0_SIDH; lia).
        unfold TXB0_SIDH. lia.
      * apply Forall_app. split; [done | by constructor].
      * apply mirror_push; try done; unfold TXB0_SIDH; lia.
  - split; [done|]. cbn. done.
  - destruct (isInstruction b).
    { apply handleInstruction_tx_inv; [done | by rewrite Hst ..]. }
    split; [done|]. cbn [fst state set_register]. by rewrite Hst.
  - split; [done|]. cbn. done.
  - split; [done|]. cbn. done.
  - cbn [fst]. split; [|cbn [fst state set_state]; done].
    cbn [fst registers set_state].
    destruct (_ =? CANINTF); [|cbn [fst registers set_registers]; by rewrite setReg_length].
    match goal with
    | |- context [tryLoadNextRxFrame ?y] =>
        destruct (tryLoadNextRxFrame_tx_kept y) as [(_ & _ & _ & Hl & _) Hs]
    end.
    + rewrite registers_updateIntPin. cbn [fst registers set_registers].
      by rewrite setReg_length.
    + rewrite Hl, registers_updateIntPin. cbn [fst registers set_registers].
      by rewrite setReg_length.
  - split; [done|]. cbn. done.
Qed.

(** ** Reachable decoder states *)

Lemma reachable_tx_inv (s : McpDecoder) : reachable s -> tx_inv s.
Proof.
  induction 1 as [|s b _ IH Hb|s fs _ IH|s cb _ IH|s _ IH].
  - split; done.
  - by apply decode_tx_inv.
  - destruct IH as [Hlen Hinv].
    destruct (queueRxFrames_tx_kept s fs Hlen) as [Hk Hst].
    by apply (tx_inv_kept s).
  - exact IH.
  - exact IH.
Qed.

Lemma reachable_decodeAll (s : McpDecoder) (bs : list Z) :
  reachable s -> Forall is_byte bs -> reachable (fst (decodeAll s bs)).
Proof.
  intros Hs Hbs. revert s Hs. induction Hbs as [|b bs Hb _ IH]; intros s Hs.
  - exact Hs.
  - cbn [decodeAll]. pose proof (reach_decode s b Hs Hb) as H1.
    destruct (decode s b) as [s1 r]. cbn [fst] in H1.
    specialize (IH s1 H1). destruct (decodeAll s1 bs) as [s2 rs]. exact IH.
Qed.

(** ** The state in which a frame is emitted *)

Lemma handleInstruction_no_frame (s : McpDecoder) (b : Z) :
  frame (snd (handleInstruction s b)) = None.
Proof. reflexivity. Qed.

Lemma decode_emits (s : McpDecoder) (b : Z) (f : CanFrame) :
  tx_inv s -> is_byte b -> frame (snd (decode s b)) = Some f ->
  exists s2, pre_emit s2 /\ decode s b = emitResult (emitCanFrame s2).
Proof.
  intros [Hlen Hinv] Hb. unfold decode.
  destruct (state s) eqn:Hst; try (cbn; discriminate).
  - destruct (b =? _); cbn; discriminate.
  - destruct (isInstruction b); cbn; discriminate.
  - destruct Hinv as (Hn & Hbs & Hm).
    cbn [txHeader set_txHeader set_registers txDlc set_txDlc].
    rewrite length_app. cbn [length].
    destruct (Z.eqb_spec (Z.of_nat (length (txHeader s) + 1)) 5) as [E5|N5];
      [|cbn; discriminate].
    destruct (Z.eqb_spec (JS.band (JS.num ((txHeader s ++ [b]) !! 4%nat)) 15) 0)
      as [E0|N0]; [|cbn; discriminate].
    intros _. eexists. split; [|reflexivity].
    assert (Hbs' : Forall is_byte (txHeader s ++ [b])).
    { apply Forall_app. split; [done | by constructor]. }
    assert (Hb4 : is_byte (JS.num ((txHeader s ++ [b]) !! 4%nat))).
    { destruct ((txHeader s ++ [b]) !! 4%nat) as [x|] eqn:E4; cbn.
      - eapply Forall_lookup_1; eauto.
      - unfold is_byte. lia. }
    unfold pre_emit.
    cbn [registers txHeader txData txDlc set_txDlc set_txHeader set_registers].
    rewrite setReg_length, length_app. cbn [length].
    repeat split; try done; try lia.
    + apply mirror_push; try done; unfold TXB0_SIDH; lia.
    + by apply band_nibble_byte.
  - destruct Hinv as (Hn & Hbs & Hm & Hd & Hde & Hdl & Hdb & Hdm).
    cbn [txData set_txData set_registers txDlc].
    rewrite length_app. cbn [length].
    destruct (Z.eqb_spec (Z.of_nat (length (txData s) + 1)) (txDlc s)) as [E|N];
      [|cbn; discriminate].
    intros _. eexists. split; [|reflexivity].
    unfold pre_emit.
    cbn [registers txHeader txData txDlc set_txData set_registers].
    rewrite setReg_length, length_app. cbn [length].
    assert (Ha : JS.band (TXB0_SIDH + 5 + Z.of_nat (length (txData s))) 255
                 = TXB0_SIDH + 5 + Z.of_nat (length (txData s))).
    { rewrite band_small by (unfold TXB0_SIDH; lia).
      change 255 with (Z.ones 8).
      apply (land_ones_small _ 8); unfold TXB0_SIDH; lia. }
    repeat split; try done.
    + apply mirror_store_other; try done. right. rewrite Ha.
      unfold TXB0_SIDH. lia.
    + right. repeat split; try done; try lia.
      * apply Forall_app. split; [done | by constructor].
      * apply mirror_push; try done; unfold TXB0_SIDH; lia.
  - destruct (isInstruction b); cbn; discriminate.
Qed.

(** ** The fields of an emitted frame *)

Lemma emit_id (h0 h1 : Z) :
  is_byte h0 -> is_byte h1 ->
  JS.bor (JS.shl h0 3) (JS.band (JS.sar h1 5) 0x07)
    = Z.lor (Z.shiftl h0 3) (Z.land (Z.shiftr h1 5) 7)
  /\ 0 <= Z.lor (Z.shiftl h0 3) (Z.land (Z.shiftr h1 5) 7) <= 0x7FF.
Proof.
  intros H0 H1. unfold is_byte in *.
  rewrite (shl_small h0 3 8) by lia.
  rewrite sar_small by lia.
  pose proof (shiftr_range h1 8 5 ltac:(lia) ltac:(lia)) as Hs.
  rewrite band_small by lia.
  pose proof (land_range (Z.shiftr h1 5) 7 3 ltac:(lia) ltac:(lia)) as Hl.
  pose proof (shiftl_range h0 8 3 ltac:(lia) ltac:(lia) ltac:(lia)) as Hh.
  change (2 ^ (8 + 3)) with 2048 in Hh. change (2 ^ 3) with 8 in Hl.
  rewrite bor_small by lia. split; [done|].
  pose proof (lor_range (Z.shiftl h0 3) (Z.land (Z.shiftr h1 5) 7) 11
                ltac:(lia) ltac:(lia) ltac:(lia)).
  lia.
Qed.

Lemma emit_eid (h1 h2 h3 : Z) :
  is_byte h1 -> is_byte h2 -> is_byte h3 ->
  JS.bor (JS.bor (JS.shl (JS.band h1 0x03) 16) (JS.shl h2 8)) h3
    = Z.lor (Z.lor (Z.shiftl (Z.land h1 3) 16) (Z.shiftl h2 8)) h3
  /\ 0 <= Z.lor (Z.lor (Z.shiftl (Z.land h1 3) 16) (Z.shiftl h2 8)) h3 <= 0x3FFFF.
Proof.
  intros H1 H2 H3. unfold is_byte in *.
  rewrite band_small by lia.
  pose proof (land_range h1 3 2 ltac:(lia) ltac:(lia)) as Hl.
  rewrite (shl_small _ 16 2) by lia.
  rewrite (shl_small h2 8 8) by lia.
  pose proof (shiftl_range _ 2 16 ltac:(lia) ltac:(lia) Hl) as Ha.
  pose proof (shiftl_range h2 8 8 ltac:(lia) ltac:(lia) ltac:(lia)) as Hb.
  change (2 ^ (2 + 16)) with 262144 in Ha. change (2 ^ (8 + 8)) with 65536 in Hb.
  assert (Hc : 0 <= Z.lor (Z.shiftl (Z.land h1 3) 16) (Z.shiftl h2 8) < 2 ^ 18)
    by (apply lor_range; lia).
  change (2 ^ 18) with 262144 in Hc.
  rewrite (bor_small (Z.shiftl _ _) (Z.shiftl _ _)) by lia.
  rewrite bor_small by lia. split; [done|].
  pose proof (lor_range (Z.lor (Z.shiftl (Z.land h1 3) 16) (Z.shiftl h2 8)) h3 18
                ltac:(lia) ltac:(lia) ltac:(lia)).
  lia.
Qed.

Lemma length5_inv (l : list Z) :
  length l = 5%nat -> exists h0 h1 h2 h3 h4, l = [h0; h1; h2; h3; h4].
Proof.
  intros H. do 5 (destruct l as [|? l]; [discriminate H|]).
  destruct l; [|discriminate H]. by do 5 eexists.
Qed.

Lemma snd_emitCanFrame (s : McpDecoder) :
  snd (emitCanFrame s) =
    {| id := JS.bor (JS.shl (JS.num (txHeader s !! 0%nat)) 3)
                    (JS.band (JS.sar (JS.num (txHeader s !! 1%nat)) 5) 0x07);
       eid := JS.bor (JS.bor (JS.shl (JS.band (JS.num (txHeader s !! 1%nat)) 0x03) 16)
                             (JS.shl (JS.num (txHeader s !! 2%nat)) 8))
                     (JS.num (txHeader s !! 3%nat));
       dlc := txDlc s;
       data := txData s |}.
Proof. reflexivity. Qed.

Lemma emitResult_frame (p : McpDecoder * CanFrame) :
  frame (snd (emitResult p)) = Some (snd p).
Proof. reflexivity. Qed.

Lemma emitResult_fst (p : McpDecoder * CanFrame) : fst (emitResult p) = fst p.
Proof. reflexivity. Qed.

(** C2, as the code has it.  Every frame surfaced by the TX path has id in
    0..0x7FF and eid in 0..0x3FFFF; its dlc is the low nibble of the fifth
    header byte, hence in 0..15 (it is not clamped to 8); and when dlc is
    not 0 the data has exactly dlc bytes. *)
Theorem tx_frame_ranges (s : McpDecoder) (b : Z) (f : CanFrame) :
  reachable s -> is_byte b -> frame (snd (decode s b)) = Some f ->
  0 <= id f <= 0x7FF /\ 0 <= eid f <= 0x3FFFF /\ 0 <= dlc f <= 15 /\
  dlc f = Z.land (JS.num (txHeader (fst (decode s b)) !! 4%nat)) 0x0F /\
  (0 < dlc f -> Z.of_nat (length (data f)) = dlc f /\ Forall is_byte (data f)).
Proof.
  intros Hr Hb Hf. apply reachable_tx_inv in Hr.
  destruct (decode_emits s b f Hr Hb Hf) as (s2 & Hpre & Hdec).
  rewrite Hdec in Hf |- *. rewrite emitResult_frame in Hf. rewrite ?emitResult_fst.
  injection Hf as <-.
  destruct Hpre as (Hlen & H5 & Hbs & Hm & Hdlc & Hdata).
  destruct (emitCanFrame_tx_kept s2 Hlen) as [(-> & _) _].
  rewrite ?snd_emitCanFrame. cbn [id eid dlc data].
  destruct (length5_inv _ H5) as (h0 & h1 & h2 & h3 & h4 & Eh).
  rewrite Eh in *. cbn [lookup list_lookup JS.num default from_option Datatypes.id] in *.
  apply Forall_cons in Hbs as [B0 Hbs]. apply Forall_cons in Hbs as [B1 Hbs].
  apply Forall_cons in Hbs as [B2 Hbs]. apply Forall_cons in Hbs as [B3 Hbs].
  apply Forall_cons in Hbs as [B4 _].
  destruct (emit_id h0 h1 B0 B1) as [-> Hid].
  destruct (emit_eid h1 h2 h3 B1 B2 B3) as [-> Heid].
  pose proof (land_range h4 15 4 ltac:(lia) ltac:(lia)) as Hn.
  change (2 ^ 4) with 16 in Hn.
  split; [lia|]. split; [lia|]. split; [lia|]. split; [done|].
  intros Hpos. destruct Hdata as [E | (_ & E1 & E2 & _)]; [lia | done].
Qed.

Lemma tx_frame_ranges_witness :
  0 <= id {| id := 2; eid := 0; dlc := 2; data := [0xAA; 0xBB] |} <= 0x7FF.
Proof.
  refine (proj1 (tx_frame_ranges
                   (fst (decodeAll newMcpDecoder (txWriteHeader ++ [0x02; 0xAA])))
                   0xBB _ _ _ _)).
  - apply reachable_decodeAll; [apply reach_new|].
    repeat constructor; unfold is_byte; lia.
  - unfold is_byte; lia.
  - vm_compute; reflexivity.
Defined.

(** C2 as stated fails: the DLC nibble is not clamped.  A header whose fifth
    byte is 0x09 followed by nine data bytes surfaces a frame with dlc 9. *)
Lemma tx_dlc_above_8_counterexample :
  let bs := txWriteHeader ++ [0x09; 1; 2; 3; 4; 5; 6; 7; 8] in
  let s := fst (decodeAll newMcpDecoder bs) in
  frame (snd (decode s 9))
    = Some {| id := 2; eid := 0; dlc := 9; data := [1; 2; 3; 4; 5; 6; 7; 8; 9] |}
  /\ ~ (forall f, frame (snd (decode s 9)) = Some f -> 0 <= dlc f <= 8).
Proof.
  cbv zeta.
  match goal with
  | |- ?P /\ _ => assert (E : P) by (vm_compute; reflexivity)
  end.
  split; [exact E|]. intros H. apply H in E. cbn [dlc] in E. lia.
Qed.

(** A frame with DLC 0 that follows a frame with data is surfaced with the
    data of the earlier frame: [txData] is only reset when DLC is not 0. *)
Example tx_dlc0_keeps_previous_data :
  let s := fst (decodeAll newMcpDecoder (txWriteHeader ++ [0x02; 0xAA; 0xBB])) in
  let s' := fst (decodeAll s [0x02; 0x31; 0x00; 0x40; 0x00; 0x00]) in
  frame (snd (decode s' 0x00))
    = Some {| id := 2; eid := 0; dlc := 0; data := [0xAA; 0xBB] |}.
Proof. vm_compute; reflexivity. Qed.

(** C8. Right after a TX frame is emitted, the registers 0x31..0x35 hold the
    five accumulated header bytes, from which the frame's id, eid and dlc
    are taken, and the registers from 0x36 on hold its dlc data bytes. *)
Theorem tx_register_mirror (s : McpDecoder) (b : Z) (f : CanFrame) :
  reachable s -> is_byte b -> frame (snd (decode s b)) = Some f ->
  let s' := fst (decode s b) in
  let R := fun i : Z => getReg (registers s') (TXB0_SIDH + i) in
  txHeader s' = [R 0; R 1; R 2; R 3; R 4] /\
  id f = Z.lor (Z.shiftl (R 0) 3) (Z.land (Z.shiftr (R 1) 5) 7) /\
  eid f = Z.lor (Z.lor (Z.shiftl (Z.land (R 1) 3) 16) (Z.shiftl (R 2) 8)) (R 3) /\
  dlc f = Z.land (R 4) 0x0F /\
  forall i : nat, Z.of_nat i < dlc f -> data f !! i = Some (R (5 + Z.of_nat i)).
Proof.
  intros Hr Hb Hf. cbv zeta. apply reachable_tx_inv in Hr.
  destruct (decode_emits s b f Hr Hb Hf) as (s2 & Hpre & Hdec).
  rewrite Hdec in Hf |- *. rewrite emitResult_frame in Hf. rewrite ?emitResult_fst.
  injection Hf as <-.
  destruct Hpre as (Hlen & H5 & Hbs & Hm & Hdlc & Hdata).
  destruct (emitCanFrame_tx_kept s2 Hlen) as [(-> & _ & _ & _ & Hw) _].
  assert (HR : forall i : nat, (i < 5)%nat ->
            txHeader s2 !! i = Some (getReg (registers (fst (emitCanFrame s2)))
                                            (TXB0_SIDH + Z.of_nat i))).
  { intros i Hi. destruct (lookup_lt_is_Some_2 (txHeader s2) i) as [v Hv]; [lia|].
    rewrite Hw by (unfold tx_window, TXB0_SIDH, RXB0_SIDH; lia).
    by rewrite (Hm i v Hv). }
  rewrite ?snd_emitCanFrame. cbn [id eid dlc data].
  set (s' := fst (emitCanFrame s2)) in *. clearbody s'.
  destruct (length5_inv _ H5) as (h0 & h1 & h2 & h3 & h4 & Eh).
  rewrite Eh in *. cbn [lookup list_lookup JS.num default from_option Datatypes.id] in Hdlc |- *.
  pose proof (HR 0%nat ltac:(lia)) as E0. pose proof (HR 1%nat ltac:(lia)) as E1.
  pose proof (HR 2%nat ltac:(lia)) as E2. pose proof (HR 3%nat ltac:(lia)) as E3.
  pose proof (HR 4%nat ltac:(lia)) as E4.
  cbn [lookup list_lookup] in E0, E1, E2, E3, E4.
  change (Z.of_nat 0) with 0 in E0. change (Z.of_nat 1) with 1 in E1.
  change (Z.of_nat 2) with 2 in E2. change (Z.of_nat 3) with 3 in E3.
  change (Z.of_nat 4) with 4 in E4.
  injection E0 as E0. injection E1 as E1. injection E2 as E2.
  injection E3 as E3. injection E4 as E4.
  apply Forall_cons in Hbs as [B0 Hbs]. apply Forall_cons in Hbs as [B1 Hbs].
  apply Forall_cons in Hbs as [B2 Hbs]. apply Forall_cons in Hbs as [B3 Hbs].
  apply Forall_cons in Hbs as [B4 _].
  destruct (emit_id h0 h1 B0 B1) as [-> _].
  destruct (emit_eid h1 h2 h3 B1 B2 B3) as [-> _].
  rewrite <- E0, <- E1, <- E2, <- E3, <- E4.
  repeat split; try done.
  intros i Hi.
  destruct Hdata as [E | (Hd15 & El & _ & Hdm)]; [lia|].
  destruct (lookup_lt_is_Some_2 (txData s2) i) as [v Hv]; [lia|].
  rewrite Hv. f_equal.
  rewrite Hw by (apply lookup_lt_Some in Hv;
                 unfold tx_window, TXB0_SIDH, RXB0_SIDH; lia).
  rewrite Z.add_assoc. symmetry. by apply Hdm.
Qed.

Lemma tx_register_mirror_witness :
  let s := fst (decodeAll newMcpDecoder (txWriteHeader ++ [0x02; 0xAA])) in
  let s' := fst (decode s 0xBB) in
  let R := fun i : Z => getReg (registers s') (TXB0_SIDH + i) in
  txHeader s' = [R 0; R 1; R 2; R 3; R 4].
Proof.
  refine (proj1 (tx_register_mirror
                   (fst (decodeAll newMcpDecoder (txWriteHeader ++ [0x02; 0xAA]))) 0xBB
                   {| id := 2; eid := 0; dlc := 2; data := [0xAA; 0xBB] |} _ _ _)).
  - apply reachable_decodeAll; [apply reach_new|].
    repeat constructor; unfold is_byte; lia.
  - unfold is_byte; lia.
  - vm_compute; reflexivity.
Defined.

(** * The CS3 handler *)

(** ** Speed mapping *)

Lemma Math_round_scaled (c : Z) :
  Math_round (inject_Z c / inject_Z CS3_MAX_SPEED * inject_Z SIM_MAX_SPEED)%Q
    = (14 * c + 500) / 1000.
Proof.
  unfold Math_round, CS3_MAX_SPEED, SIM_MAX_SPEED.
  assert (E : (inject_Z c / inject_Z 1000 * inject_Z 14 + (1 # 2)
               == (14 * c + 500) # 1000)%Q).
  { unfold Qeq, Qplus, Qdiv, Qinv, inject_Z. cbn [Qnum Qden].
    unfold Qmult. cbn [Qnum Qden]. lia. }
  rewrite E. reflexivity.
Qed.

Lemma cs3SpeedToSim_spec (c : Z) : cs3SpeedToSim c = spec_speed_to_sim c.
Proof.
  unfold cs3SpeedToSim, spec_speed_to_sim, clamp.
  pose proof (Math_round_scaled c) as E.
  unfold CS3_MAX_SPEED, SIM_MAX_SPEED in *. rewrite E.
  destruct (Z.leb_spec c 0); [|destruct (Z.geb_spec c 1000)];
    Z.div_mod_to_equations; lia.
Qed.

Lemma cs3SpeedToSim_range (c : Z) : 0 <= cs3SpeedToSim c <= 14.
Proof. rewrite cs3SpeedToSim_spec. unfold spec_speed_to_sim, clamp. lia. Qed.

(** C6. The speed mapping is round(cs3/1000 * 14) clamped to 0..14; it sends
    0 to 0, 500 to 7, 1000 to 14, 1001 to 14 and every negative input to 0. *)
Theorem cs3_speed_mapping :
  (forall c, cs3SpeedToSim c = spec_speed_to_sim c) /\
  (forall c, 0 <= cs3SpeedToSim c <= 14) /\
  cs3SpeedToSim 0 = 0 /\ cs3SpeedToSim 500 = 7 /\
  cs3SpeedToSim 1000 = 14 /\ cs3SpeedToSim 1001 = 14 /\
  (forall c, c < 0 -> cs3SpeedToSim c = 0).
Proof.
  split; [exact cs3SpeedToSim_spec|]. split; [exact cs3SpeedToSim_range|].
  repeat split; try reflexivity.
  intros c Hc. unfold cs3SpeedToSim.
  destruct (Z.leb_spec c 0); [done | lia].
Qed.

Lemma cs3_speed_mapping_witness : cs3SpeedToSim (-5) = 0.
Proof.
  refine (proj2 (proj2 (proj2 (proj2 (proj2 (proj2 cs3_speed_mapping))))) (-5) _).
  lia.
Defined.

(** ** Reading the 32-bit big-endian id *)

Lemma lor_shiftl_add (hi lo k : Z) :
  0 <= k -> 0 <= lo < 2 ^ k -> Z.lor (Z.shiftl hi k) lo = hi * 2 ^ k + lo.
Proof.
  intros Hk Hlo.
  assert (E : Z.land (Z.shiftl hi k) lo = 0).
  { apply Z.bits_inj'. intros n Hn. rewrite Z.bits_0, Z.land_spec.
    destruct (Z.lt_ge_cases n k).
    - rewrite Z.shiftl_spec_low by lia. done.
    - rewrite (testbit_high lo k n) by lia. apply andb_false_r. }
  rewrite <- Z.lxor_lor by done.
  rewrite <- Z.add_nocarry_lxor by done.
  by rewrite Z.shiftl_mul_pow2.
Qed.

Ltac bits32 :=
  repeat match goal with
  | |- context [Z.testbit (JS.toInt32 ?a) ?i] => rewrite (toInt32_testbit a i) by lia
  | |- context [Z.testbit (Z.lor ?a ?b) ?i] => rewrite (Z.lor_spec a b i)
  | |- context [Z.testbit (Z.land ?a ?b) ?i] => rewrite (Z.land_spec a b i)
  | |- context [Z.testbit (Z.shiftl ?a ?k) ?i] => rewrite (Z.shiftl_spec a k i) by lia
  | |- context [Z.testbit (Z.shiftr ?a ?k) ?i] => rewrite (Z.shiftr_spec a k i) by lia
  | |- context [Z.testbit ?a ?i] => rewrite (Z.testbit_neg_r a i) by lia
  end.

(** Whatever the operands, the four-operand expression of [readId] is the
    bitwise or of the shifted operands, reduced modulo 2^32. *)
Lemma readId_mod (d0 d1 d2 d3 : Z) :
  JS.shr (JS.bor (JS.bor (JS.bor (JS.shl d0 24) (JS.shl d1 16)) (JS.shl d2 8)) d3) 0
  = Z.lor (Z.shiftl d0 24) (Z.lor (Z.shiftl d1 16) (Z.lor (Z.shiftl d2 8) d3))
    mod 2 ^ 32.
Proof.
  unfold JS.shr, JS.toUint32. change (0 mod 32) with 0. rewrite Z.shiftr_0_r.
  apply Z.bits_inj'. intros n Hn.
  destruct (Z.lt_ge_cases n 32).
  - rewrite !Z.mod_pow2_bits_low by lia.
    unfold JS.bor, JS.shl.
    change (24 mod 32) with 24. change (16 mod 32) with 16. change (8 mod 32) with 8.
    destruct (Z.lt_ge_cases n 8); [|destruct (Z.lt_ge_cases n 16);
                                      [|destruct (Z.lt_ge_cases n 24)]];
      bits32; btauto.
  - rewrite !Z.mod_pow2_bits_high by lia. done.
Qed.

Lemma readId_be32 (d : list Z) : Forall is_byte d -> readId d = be32 d.
Proof.
  intros Hd. unfold readId, be32. rewrite readId_mod.
  assert (Hb : forall i, is_byte (JS.num (d !! i))).
  { intros i. destruct (d !! i) as [x|] eqn:E; cbn.
    - eapply Forall_lookup_1; eauto.
    - unfold is_byte. lia. }
  pose proof (Hb 0%nat) as H0. pose proof (Hb 1%nat) as H1.
  pose proof (Hb 2%nat) as H2. pose proof (Hb 3%nat) as H3.
  unfold is_byte in *.
  rewrite (lor_shiftl_add _ _ 8) by lia.
  rewrite (lor_shiftl_add _ _ 16) by lia.
  rewrite (lor_shiftl_add _ _ 24) by lia.
  rewrite Z.mod_small by lia. lia.
Qed.

(** ** Acknowledgements *)

Lemma makeAck_fields (f : CanFrame) :
  id (makeAck f) = id f /\ dlc (makeAck f) = dlc f /\ data (makeAck f) = data f /\
  Z.testbit (eid (makeAck f)) 16 = true /\
  (forall n, 0 <= n < 32 -> n <> 16 ->
     Z.testbit (eid (makeAck f)) n = Z.testbit (eid f) n) /\
  (0 <= eid f <= 0x3FFFF -> eid (makeAck f) = Z.lor (eid f) 0x10000).
Proof.
  unfold makeAck. cbn [id eid dlc data]. repeat split.
  - unfold JS.bor. rewrite Z.lor_spec. apply orb_true_r.
  - intros n Hn Hne. unfold JS.bor.
    rewrite Z.lor_spec, toInt32_testbit by lia.
    change (JS.toInt32 65536) with (2 ^ 16).
    rewrite Z.pow2_bits_false by lia. apply orb_false_r.
  - intros He. apply bor_small; lia.
Qed.

(** ** Controller calls *)

Lemma callsBetween_refl (h : Cs3Handler) : callsBetween h h = [].
Proof.
  unfold callsBetween. destruct (controller h); [apply drop_all | done].
Qed.

Lemma callsBetween_call (h : Cs3Handler) (c : ControllerCall) :
  callsBetween h (callController c h) = expectCalls h [c].
Proof.
  unfold callsBetween, callController, expectCalls.
  destruct (controller h) as [l|] eqn:E; cbn [controller]; rewrite ?E; [|done].
  by rewrite drop_app_length.
Qed.

Lemma callController_lights (h : Cs3Handler) (c : ControllerCall) :
  trainLights (callController c h) = trainLights h.
Proof. unfold callController. destruct (controller h); done. Qed.

(** ** SWITCH *)

Lemma handleTxFrame_switch (h : Cs3Handler) (f : CanFrame) :
  decodeCommand f = SWITCH_CMD ->
  handleTxFrame h f = handleSwitch h f (makeAck f).
Proof. intros E. unfold handleTxFrame. rewrite E. reflexivity. Qed.

Lemma handleTxFrame_speed (h : Cs3Handler) (f : CanFrame) :
  decodeCommand f = SPEED_CMD ->
  handleTxFrame h f = handleSpeed h f (makeAck f).
Proof. intros E. unfold handleTxFrame. rewrite E. reflexivity. Qed.

Lemma handleTxFrame_other (h : Cs3Handler) (f : CanFrame) :
  decodeCommand f <> SWITCH_CMD ->
  snd (handleTxFrame h f) = ackOnly (makeAck f).
Proof.
  intros N. unfold handleTxFrame.
  destruct (_ =? SYSTEM_CMD); [reflexivity|].
  destruct (_ =? SPEED_CMD).
  { unfold handleSpeed. destruct (_ <=? 4); reflexivity. }
  destruct (_ =? DIRECTION_CMD); [reflexivity|].
  destruct (_ =? LIGHT_CMD); [reflexivity|].
  destruct (Z.eqb_spec (decodeCommand f) SWITCH_CMD); [done | reflexivity].
Qed.

(** C5. A SWITCH frame (command 0x0B) with data[4] in {0, 1}: the switch id
    is the big-endian value of data[0..3] minus 0x3000 plus 1 (0x3000 gives
    1, 0x3009 gives 10); the attached controller receives one set-switch
    call, Straight for data[4] = 1 and Curve for data[4] = 0; the immediate
    list is one ACK (the frame with eid bit 16 set, same id, dlc and data)
    and the delayed list is the same ACK once more.  Every other command
    returns one immediate ACK and no delayed frame. *)
Theorem switch_dispatch :
  (forall (h : Cs3Handler) (f : CanFrame) (p : Z),
     decodeCommand f = SWITCH_CMD -> Forall is_byte (data f) ->
     data f !! 4%nat = Some p -> p = 0 \/ p = 1 ->
     let h' := fst (handleTxFrame h f) in
     let r := snd (handleTxFrame h f) in
     let ack := makeAck f in
     immediate r = [ack] /\ delayed r = [ack] /\
     id ack = id f /\ dlc ack = dlc f /\ data ack = data f /\
     Z.testbit (eid ack) 16 = true /\
     (forall n, 0 <= n < 32 -> n <> 16 ->
        Z.testbit (eid ack) n = Z.testbit (eid f) n) /\
     callsBetween h h' =
       expectCalls h [ChangeSwitchDirection (be32 (data f) - 0x3000 + 1)
                        (if p =? 1 then Straight else Curve)] /\
     trainLights h' = trainLights h) /\
  decodeSwitchId 0x3000 = 1 /\ decodeSwitchId 0x3009 = 10 /\
  (forall (h : Cs3Handler) (f : CanFrame),
     decodeCommand f <> SWITCH_CMD ->
     immediate (snd (handleTxFrame h f)) = [makeAck f] /\
     delayed (snd (handleTxFrame h f)) = []).
Proof.
  split; [|split; [reflexivity | split; [reflexivity|]]].
  - intros h f p Hc Hb Hp Hp01. cbv zeta.
    rewrite handleTxFrame_switch by done.
    destruct (makeAck_fields f) as (A1 & A2 & A3 & A4 & A5 & _).
    unfold handleSwitch. cbn [fst snd immediate delayed].
    rewrite callsBetween_call, callController_lights, Hp.
    rewrite readId_be32 by done. unfold decodeSwitchId.
    repeat split; try done.
    destruct Hp01 as [-> | ->]; reflexivity.
  - intros h f N. by rewrite handleTxFrame_other.
Qed.

Lemma switch_dispatch_witness :
  callsBetween (setController newCs3Handler)
               (fst (handleTxFrame (setController newCs3Handler) switchFrame))
    = [ChangeSwitchDirection 10 Straight].
Proof.
  refine (proj1 (proj2 (proj2 (proj2 (proj2 (proj2 (proj2 (proj2
            (proj1 switch_dispatch (setController newCs3Handler) switchFrame 1
               _ _ _ _)))))))));
    [ reflexivity
    | repeat constructor; unfold is_byte; lia
    | reflexivity
    | right; reflexivity ].
Defined.

(** ** SPEED *)

Lemma speed_field_be16 (d : list Z) :
  Forall is_byte d ->
  JS.bor (JS.shl (JS.num (d !! 4%nat)) 8) (JS.num (d !! 5%nat)) = be16_speed d.
Proof.
  intros Hd.
  assert (Hb : forall i, is_byte (JS.num (d !! i))).
  { intros i. destruct (d !! i) as [x|] eqn:E; cbn.
    - eapply Forall_lookup_1; eauto.
    - unfold is_byte. lia. }
  pose proof (Hb 4%nat) as H4. pose proof (Hb 5%nat) as H5.
  unfold is_byte, be16_speed in *.
  rewrite (shl_small _ 8 8) by lia.
  pose proof (shiftl_range (JS.num (d !! 4%nat)) 8 8 ltac:(lia) ltac:(lia) H4) as Hs.
  change (2 ^ (8 + 8)) with 65536 in Hs.
  rewrite bor_small by lia.
  apply lor_shiftl_add; lia.
Qed.

(** C9. A SPEED frame (command 0x04) with dlc at most 4 is a query: one
    immediate ACK, no delayed frame, no controller call, the train-light map
    unchanged.  Only with dlc above 4 is the speed field read (big-endian
    from data[4], data[5]) and set-speed invoked, with the stored light flag
    of the train. *)
Theorem speed_dispatch (h : Cs3Handler) (f : CanFrame) :
  decodeCommand f = SPEED_CMD ->
  let h' := fst (handleTxFrame h f) in
  let r := snd (handleTxFrame h f) in
  immediate r = [makeAck f] /\ delayed r = [] /\
  trainLights h' = trainLights h /\
  (dlc f <= 4 -> h' = h /\ callsBetween h h' = []) /\
  (4 < dlc f -> Forall is_byte (data f) ->
   callsBetween h h' =
     expectCalls h [SetTrainSpeed (be32 (data f))
                      (cs3SpeedToSim (be16_speed (data f)))
                      (default false (trainLights h !! be32 (data f)))]).
Proof.
  intros Hc. cbv zeta. rewrite handleTxFrame_speed by done.
  unfold handleSpeed.
  destruct (Z.leb_spec (dlc f) 4) as [Hle | Hgt]; cbn [fst snd].
  - repeat split; try done; try lia. apply callsBetween_refl.
  - rewrite callController_lights, callsBetween_call.
    repeat split; try done; try lia.
    intros _ Hb. by rewrite speed_field_be16, readId_be32.
Qed.

Lemma speed_dispatch_witness :
  fst (handleTxFrame (setController newCs3Handler) speedQuery)
    = setController newCs3Handler.
Proof.
  refine (proj1 (proj1 (proj2 (proj2 (proj2
            (speed_dispatch (setController newCs3Handler) speedQuery _)))) _));
    [reflexivity | cbn; lia].
Defined.

(** Train 1 set to CS3 speed 500: the controller sees speed 7. *)
Example speed_set_500 :
  callsBetween (setController newCs3Handler)
               (fst (handleTxFrame (setController newCs3Handler) speedSet))
    = [SetTrainSpeed 1 7 false].
Proof. vm_compute. reflexivity. Qed.

(** * More on the CS3 handler *)

(** ** Sensor events *)

Lemma sensor_eid_bits (sid n : Z) :
  0 <= n ->
  Z.testbit (eid (makeSensorEvent sid false false)) n =
    if n <? 16 then Z.testbit sid n else (n <? 18).
Proof.
  intros Hn. unfold makeSensorEvent. cbn [eid]. unfold JS.bor, JS.band.
  change (JS.shl 1 17) with (2 ^ 17).
  change (JS.toInt32 (2 ^ 17)) with (2 ^ 17).
  change (JS.toInt32 65536) with (2 ^ 16).
  change (JS.toInt32 65535) with (Z.ones 16).
  assert (Hr : 0 <= Z.land (JS.toInt32 sid) (Z.ones 16) < 2 ^ 16)
    by (apply land_range; [lia | done]).
  assert (Hl : 0 <= Z.lor (2 ^ 17) (Z.land (JS.toInt32 sid) (Z.ones 16)) < 2 ^ 18)
    by (apply lor_range; lia).
  rewrite (toInt32_small (Z.land _ _)) by lia.
  rewrite (toInt32_small (Z.lor _ _)) by lia.
  rewrite !Z.lor_spec, Z.land_spec, !Z.pow2_bits_eqb, Z.testbit_ones_nonneg by lia.
  destruct (Z.ltb_spec n 16).
  - rewrite toInt32_testbit by lia.
    destruct (Z.eqb_spec 17 n); [lia|]. destruct (Z.eqb_spec 16 n); [lia|].
    btauto.
  - rewrite andb_false_r.
    destruct (Z.eqb_spec 17 n), (Z.eqb_spec 16 n), (Z.ltb_spec n 18); try lia; done.
Qed.

Lemma sensor_eid_range (sid : Z) (o n : bool) :
  0x30000 <= eid (makeSensorEvent sid o n) <= 0x3FFFF.
Proof.
  change (eid (makeSensorEvent sid o n)) with (eid (makeSensorEvent sid false false)).
  set (e := eid (makeSensorEvent sid false false)).
  assert (Hhi : 0 <= e < 2 ^ 18).
  { apply range_of_bits; [lia|]. intros k Hk. subst e.
    rewrite sensor_eid_bits by lia.
    destruct (Z.ltb_spec k 16); [lia|]. destruct (Z.ltb_spec k 18); [lia | done]. }
  assert (Hlo : Z.shiftr e 16 = 3).
  { apply Z.bits_inj'. intros k Hk. rewrite Z.shiftr_spec by lia. subst e.
    rewrite sensor_eid_bits by lia.
    destruct (Z.ltb_spec (k + 16) 16); [lia|].
    change 3 with (Z.ones 2). rewrite Z.testbit_ones_nonneg by lia.
    destruct (Z.ltb_spec (k + 16) 18), (Z.ltb_spec k 2); try lia; done. }
  rewrite Z.shiftr_div_pow2 in Hlo by lia. change (2 ^ 16) with 65536 in Hlo.
  change (2 ^ 18) with 262144 in Hhi.
  Z.div_mod_to_equations. lia.
Qed.

Lemma decodeCommand_sensor (sid : Z) (o n : bool) :
  decodeCommand (makeSensorEvent sid o n) = SENSOR_CMD.
Proof.
  pose proof (sensor_eid_range sid o n) as Hr.
  unfold decodeCommand. cbn [id].
  change (JS.band (JS.shl 8 1) 254) with 16.
  rewrite sar_small by lia. rewrite Z.shiftr_div_pow2 by lia.
  change (2 ^ 17) with 131072.
  replace (eid (makeSensorEvent sid o n) / 131072) with 1
    by (Z.div_mod_to_equations; lia).
  reflexivity.
Qed.

Lemma frame_ok_sensor (sid : Z) (o n : bool) : frame_ok (makeSensorEvent sid o n).
Proof.
  pose proof (sensor_eid_range sid o n) as Hr.
  unfold frame_ok. split; [cbn; lia|]. split; [lia|].
  cbn [dlc data length makeSensorEvent]. split; [lia|]. split; [done|].
  repeat (apply Forall_cons; split); try apply band_byte_mask;
    try (unfold is_byte; destruct o, n; lia).
  apply Forall_nil. done.
Qed.

(** X1. Every frame built by [makeSensorEvent], whatever the sensor id, is
    a frame of the data model (id 8, 18-bit eid with bits 16 and 17 set,
    dlc 8, eight data bytes) and decodes to the command 0x11. *)
Theorem sensor_event_well_formed (sid : Z) (o n : bool) :
  let f := makeSensorEvent sid o n in
  decodeCommand f = SENSOR_CMD /\ frame_ok f /\
  id f = 0x08 /\ dlc f = 8 /\ length (data f) = 8%nat /\
  Z.testbit (eid f) 16 = true /\ Z.testbit (eid f) 17 = true /\
  Z.land (eid f) 0xFFFF = sid mod 2 ^ 16.
Proof.
  cbv zeta. split; [apply decodeCommand_sensor|]. split; [apply frame_ok_sensor|].
  split; [done|]. split; [done|]. split; [done|].
  change (eid (makeSensorEvent sid o n)) with (eid (makeSensorEvent sid false false)).
  rewrite !sensor_eid_bits by lia. split; [done|]. split; [done|].
  change 65535 with (Z.ones 16). rewrite Z.land_ones by lia.
  apply Z.bits_inj'. intros k Hk.
  destruct (Z.lt_ge_cases k 16).
  - rewrite !Z.mod_pow2_bits_low by lia. rewrite sensor_eid_bits by lia.
    destruct (Z.ltb_spec k 16); [done | lia].
  - rewrite !Z.mod_pow2_bits_high by lia. done.
Qed.

Lemma sensor_id_bytes (sid : Z) :
  Z.lor (Z.shiftl (JS.band (JS.sar sid 24) 255) 24)
    (Z.lor (Z.shiftl (JS.band (JS.sar sid 16) 255) 16)
       (Z.lor (Z.shiftl (JS.band (JS.sar sid 8) 255) 8) (JS.band sid 255)))
  = sid mod 2 ^ 32.
Proof.
  unfold JS.band, JS.sar.
  change (24 mod 32) with 24. change (16 mod 32) with 16. change (8 mod 32) with 8.
  change (JS.toInt32 255) with (Z.ones 8).
  pose proof (toInt32_range sid) as Hs.
  assert (Hsh : forall k, 0 <= k -> - 2 ^ 31 <= Z.shiftr (JS.toInt32 sid) k < 2 ^ 31).
  { intros k Hk. rewrite Z.shiftr_div_pow2 by lia.
    assert (0 < 2 ^ k) by (apply Z.pow_pos_nonneg; lia).
    split; [apply Z.div_le_lower_bound; nia | apply Z.div_lt_upper_bound; nia]. }
  rewrite !(toInt32_small (Z.shiftr _ _)) by (apply Hsh; lia).
  apply Z.bits_inj'. intros n Hn.
  destruct (Z.lt_ge_cases n 32).
  - rewrite Z.mod_pow2_bits_low by lia.
    rewrite <- (toInt32_testbit sid n) by lia.
    destruct (Z.lt_ge_cases n 8); [|destruct (Z.lt_ge_cases n 16);
                                      [|destruct (Z.lt_ge_cases n 24)]];
      bits; cmp; try (idx n; btauto).
  - rewrite Z.mod_pow2_bits_high by lia.
    bits; cmp; try btauto.
Qed.

(** X2. The payload of a sensor event carries the sensor id big-endian:
    [readId] of its data is the id modulo 2^32 (the id itself for a 32-bit
    id), and data[4], data[5] are the old and the new state as 0 or 1. *)
Theorem sensor_event_payload (sid : Z) (o n : bool) :
  let f := makeSensorEvent sid o n in
  readId (data f) = sid mod 2 ^ 32 /\
  (0 <= sid < 2 ^ 32 -> readId (data f) = sid /\ be32 (data f) = sid) /\
  data f !! 4%nat = Some (if o then 1 else 0) /\
  data f !! 5%nat = Some (if n then 1 else 0).
Proof.
  cbv zeta.
  assert (E : readId (data (makeSensorEvent sid o n)) = sid mod 2 ^ 32).
  { unfold readId, makeSensorEvent.
    cbn [data lookup list_lookup JS.num default from_option Datatypes.id].
    rewrite readId_mod, sensor_id_bytes. apply Z.mod_mod. lia. }
  split; [exact E|]. split; [|done].
  intros Hs. rewrite <- readId_be32 by (destruct (frame_ok_sensor sid o n) as (_ & _ & _ & _ & H); exact H).
  rewrite E, Z.mod_small by lia. done.
Qed.

Lemma sensor_event_payload_witness :
  readId (data (makeSensorEvent 42 false true)) = 42.
Proof.
  refine (proj1 (proj1 (proj2 (sensor_event_payload 42 false true)) _)). lia.
Defined.

(** ** Acknowledgements, continued *)

Lemma toInt32_idem (x : Z) : JS.toInt32 (JS.toInt32 x) = JS.toInt32 x.
Proof. apply toInt32_small, toInt32_range. Qed.

Lemma lor_int32_range (a b : Z) :
  - 2 ^ 31 <= a < 2 ^ 31 -> - 2 ^ 31 <= b < 2 ^ 31 ->
  - 2 ^ 31 <= Z.lor a b < 2 ^ 31.
Proof.
  intros Ha Hb.
  destruct (Z.lt_ge_cases a 0) as [Na|Pa]; destruct (Z.lt_ge_cases b 0) as [Nb|Pb].
  - assert (H : 0 <= Z.lnot (Z.lor a b) < 2 ^ 31).
    { rewrite Z.lnot_lor. apply land_range_l; [lia|]. unfold Z.lnot. lia. }
    unfold Z.lnot in H. lia.
  - assert (H : 0 <= Z.lnot (Z.lor a b) < 2 ^ 31).
    { rewrite Z.lnot_lor. apply land_range_l; [lia|]. unfold Z.lnot. lia. }
    unfold Z.lnot in H. lia.
  - assert (H : 0 <= Z.lnot (Z.lor a b) < 2 ^ 31).
    { rewrite Z.lnot_lor. apply land_range; [lia|]. unfold Z.lnot. lia. }
    unfold Z.lnot in H. lia.
  - pose proof (lor_range a b 31 ltac:(lia) ltac:(lia) ltac:(lia)). lia.
Qed.

Lemma bor_int32_range (a b : Z) : - 2 ^ 31 <= JS.bor a b < 2 ^ 31.
Proof. unfold JS.bor. apply lor_int32_range; apply toInt32_range. Qed.

Lemma makeAck_idem (f : CanFrame) : makeAck (makeAck f) = makeAck f.
Proof.
  unfold makeAck. cbn [id eid dlc data]. f_equal.
  unfold JS.bor at 1. rewrite (toInt32_small (JS.bor _ _)) by apply bor_int32_range.
  unfold JS.bor. rewrite <- Z.lor_assoc, Z.lor_diag. done.
Qed.

Lemma decodeCommand_makeAck (f : CanFrame) :
  decodeCommand (makeAck f) = decodeCommand f.
Proof.
  unfold decodeCommand, makeAck. cbn [id eid]. f_equal.
  unfold JS.band. f_equal. f_equal. unfold JS.sar. change (17 mod 32) with 17.
  rewrite (toInt32_small (JS.bor _ _)) by apply bor_int32_range.
  unfold JS.bor. change (JS.toInt32 65536) with (2 ^ 16).
  apply Z.bits_inj'. intros n Hn.
  rewrite !Z.shiftr_spec, Z.lor_spec, Z.pow2_bits_false by lia.
  apply orb_false_r.
Qed.

(** X3. Acknowledging keeps the command: [decodeCommand (makeAck f)] is
    [decodeCommand f] for every frame; acknowledging twice is the same as
    acknowledging once; and the ACK of a frame of the data model is again
    a frame of the data model, so it can be injected through RXB0. *)
Theorem ack_command_roundtrip :
  (forall f, decodeCommand (makeAck f) = decodeCommand f) /\
  (forall f, makeAck (makeAck f) = makeAck f) /\
  (forall f, frame_ok f -> frame_ok (makeAck f)).
Proof.
  split; [exact decodeCommand_makeAck|]. split; [exact makeAck_idem|].
  intros f (Hi & He & Hd & Hl & Hb).
  destruct (makeAck_fields f) as (A1 & A2 & A3 & _ & _ & A6).
  unfold frame_ok. rewrite A1, A2, A3, A6 by done.
  pose proof (lor_range (eid f) 0x10000 18 ltac:(lia) ltac:(lia) ltac:(lia)) as Hr.
  change (2 ^ 18) with 262144 in Hr.
  split; [lia|]. split; [lia|]. split; [lia|]. split; done.
Qed.

Lemma ack_command_roundtrip_witness : frame_ok (makeAck sampleFrame).
Proof.
  refine (proj2 (proj2 ack_command_roundtrip) sampleFrame _).
  unfold frame_ok, sampleFrame; cbn [id eid dlc data length].
  repeat split; try lia.
  repeat constructor; unfold is_byte; lia.
Defined.

(** ** The other commands *)

Lemma handleTxFrame_system (h : Cs3Handler) (f : CanFrame) :
  decodeCommand f = SYSTEM_CMD -> handleTxFrame h f = handleSystem h f (makeAck f).
Proof. intros E. unfold handleTxFrame. rewrite E. reflexivity. Qed.

Lemma handleTxFrame_direction (h : Cs3Handler) (f : CanFrame) :
  decodeCommand f = DIRECTION_CMD ->
  handleTxFrame h f = handleDirection h f (makeAck f).
Proof. intros E. unfold handleTxFrame. rewrite E. reflexivity. Qed.

Lemma handleTxFrame_light (h : Cs3Handler) (f : CanFrame) :
  decodeCommand f = LIGHT_CMD -> handleTxFrame h f = handleLight h f (makeAck f).
Proof. intros E. unfold handleTxFrame. rewrite E. reflexivity. Qed.

(** X4. A SYSTEM frame (command 0x00) makes the attached controller stop,
    go or halt for data[4] = 0, 1, 2 and makes no call for any other
    sub-command or when data[4] is missing; in every case the result is one
    immediate ACK and the train-light map is unchanged. *)
Theorem system_dispatch (h : Cs3Handler) (f : CanFrame) :
  decodeCommand f = SYSTEM_CMD ->
  let h' := fst (handleTxFrame h f) in
  snd (handleTxFrame h f) = ackOnly (makeAck f) /\
  trainLights h' = trainLights h /\
  callsBetween h h' =
    expectCalls h
      match data f !! 4%nat with
      | Some 0 => [Stop]
      | Some 1 => [Go]
      | Some 2 => [Halt]
      | _ => []
      end.
Proof.
  intros Hc. cbv zeta. rewrite handleTxFrame_system by done.
  unfold handleSystem. cbn [fst snd]. split; [done|].
  destruct (data f !! 4%nat) as [v|].
  - destruct (Z.eqb_spec v STOP_SUBCMD) as [->|N0];
      [rewrite callController_lights, callsBetween_call; done|].
    destruct (Z.eqb_spec v GO_SUBCMD) as [->|N1];
      [rewrite callController_lights, callsBetween_call; done|].
    destruct (Z.eqb_spec v HALT_SUBCMD) as [->|N2];
      [rewrite callController_lights, callsBetween_call; done|].
    split; [done|]. rewrite callsBetween_refl.
    unfold STOP_SUBCMD, GO_SUBCMD, HALT_SUBCMD, expectCalls in *.
    destruct (controller h); [|done].
    destruct v as [|[p|p|]|]; try done; destruct p; done.
  - split; [done|]. rewrite callsBetween_refl. unfold expectCalls.
    by destruct (controller h).
Qed.

Lemma system_dispatch_witness :
  callsBetween (setController newCs3Handler)
               (fst (handleTxFrame (setController newCs3Handler) systemGo)) = [Go].
Proof.
  refine (proj2 (proj2 (system_dispatch (setController newCs3Handler) systemGo _))).
  reflexivity.
Defined.

(** X5. A DIRECTION frame (command 0x05) makes the attached controller
    reverse the train whose id is read from data[0..3] (big-endian when
    the data are bytes), returns one immediate ACK and leaves the
    train-light map alone. *)
Theorem direction_dispatch (h : Cs3Handler) (f : CanFrame) :
  decodeCommand f = DIRECTION_CMD ->
  let h' := fst (handleTxFrame h f) in
  snd (handleTxFrame h f) = ackOnly (makeAck f) /\
  trainLights h' = trainLights h /\
  callsBetween h h' = expectCalls h [ReverseTrain (readId (data f))] /\
  (Forall is_byte (data f) -> readId (data f) = be32 (data f)).
Proof.
  intros Hc. cbv zeta. rewrite handleTxFrame_direction by done.
  unfold handleDirection. cbn [fst snd].
  rewrite callController_lights, callsBetween_call.
  repeat split; try done. apply readId_be32.
Qed.

Lemma direction_dispatch_witness :
  callsBetween (setController newCs3Handler)
               (fst (handleTxFrame (setController newCs3Handler) directionFrame))
    = [ReverseTrain 7].
Proof.
  refine (proj1 (proj2 (proj2
            (direction_dispatch (setController newCs3Handler) directionFrame _)))).
  reflexivity.
Defined.

(** X6. A LIGHT frame (command 0x06) makes no controller call and stores
    the flag for its train only; a later SPEED frame with dlc above 4 hands
    the controller the flag stored for its own train: the one just set when
    the ids agree, the earlier one (false if none) otherwise. *)
Theorem light_then_speed (h : Cs3Handler) (fl fs : CanFrame) :
  decodeCommand fl = LIGHT_CMD -> decodeCommand fs = SPEED_CMD -> 4 < dlc fs ->
  let h1 := fst (handleTxFrame h fl) in
  let h2 := fst (handleTxFrame h1 fs) in
  snd (handleTxFrame h fl) = ackOnly (makeAck fl) /\
  controller h1 = controller h /\
  trainLights h1 !! readId (data fl) = Some (lightFlag fl) /\
  (forall t, t <> readId (data fl) -> trainLights h1 !! t = trainLights h !! t) /\
  callsBetween h1 h2 =
    expectCalls h
      [SetTrainSpeed (readId (data fs))
         (cs3SpeedToSim (JS.bor (JS.shl (JS.num (data fs !! 4%nat)) 8)
                                (JS.num (data fs !! 5%nat))))
         (if decide (readId (data fs) = readId (data fl)) then lightFlag fl
          else default false (trainLights h !! readId (data fs)))].
Proof.
  intros Hl Hs Hd. cbv zeta.
  rewrite handleTxFrame_light by done. unfold handleLight. cbn [fst snd].
  rewrite handleTxFrame_speed by done. unfold handleSpeed.
  destruct (Z.leb_spec (dlc fs) 4); [lia|]. cbn [fst trainLights controller].
  fold (lightFlag fl).
  split; [done|]. split; [done|].
  split; [apply lookup_insert_eq|].
  split; [intros t Ht; by apply lookup_insert_ne|].
  rewrite callsBetween_call. unfold expectCalls. cbn [controller].
  destruct (controller h); [|done]. f_equal. f_equal.
  case_decide as E.
  - rewrite E, lookup_insert_eq. done.
  - rewrite lookup_insert_ne by done. done.
Qed.

Lemma light_then_speed_witness :
  callsBetween (fst (handleTxFrame (setController newCs3Handler) lightOn))
    (fst (handleTxFrame (fst (handleTxFrame (setController newCs3Handler) lightOn))
            speedSet))
  = [SetTrainSpeed 1 7 true].
Proof.
  refine (proj2 (proj2 (proj2 (proj2
            (light_then_speed (setController newCs3Handler) lightOn speedSet _ _ _)))));
    [reflexivity | reflexivity | cbn; lia].
Defined.

(** ** What the handler does for every frame *)

Lemma oneCallAtMost_refl (h : Cs3Handler) : oneCallAtMost h h.
Proof.
  unfold oneCallAtMost. destruct (controller h) as [l|]; [|done].
  exists []. rewrite app_nil_r. split; [done | cbn; lia].
Qed.

Lemma oneCallAtMost_call (h : Cs3Handler) (c : ControllerCall) :
  oneCallAtMost h (callController c h).
Proof.
  unfold oneCallAtMost, callController.
  destruct (controller h) as [l|] eqn:E; cbn [controller]; [|done].
  exists [c]. split; [done | cbn; lia].
Qed.

Lemma handleTxFrame_cases (h : Cs3Handler) (f : CanFrame) :
  let h' := fst (handleTxFrame h f) in
  let r := snd (handleTxFrame h f) in
  immediate r = [makeAck f] /\
  delayed r = (if decodeCommand f =? SWITCH_CMD then [makeAck f] else []) /\
  oneCallAtMost h h' /\
  (decodeCommand f <> LIGHT_CMD -> trainLights h' = trainLights h).
Proof.
  cbv zeta. unfold handleTxFrame.
  destruct (Z.eqb_spec (decodeCommand f) SYSTEM_CMD) as [E|_].
  { rewrite E. unfold handleSystem. cbn [fst snd].
    repeat split; try done.
    - destruct (data f !! 4%nat) as [v|]; [|apply oneCallAtMost_refl].
      repeat (destruct (_ =? _); [apply oneCallAtMost_call|]).
      apply oneCallAtMost_refl.
    - intros _. destruct (data f !! 4%nat) as [v|]; [|done].
      repeat (destruct (_ =? _); [apply callController_lights|]). done. }
  destruct (Z.eqb_spec (decodeCommand f) SPEED_CMD) as [E|_].
  { rewrite E. unfold handleSpeed. destruct (_ <=? 4); cbn [fst snd].
    - repeat split; try done. apply oneCallAtMost_refl.
    - repeat split; try done; [apply oneCallAtMost_call|].
      intros _. apply callController_lights. }
  destruct (Z.eqb_spec (decodeCommand f) DIRECTION_CMD) as [E|_].
  { rewrite E. unfold handleDirection. cbn [fst snd].
    repeat split; try done; [apply oneCallAtMost_call|].
    intros _. apply callController_lights. }
  destruct (Z.eqb_spec (decodeCommand f) LIGHT_CMD) as [E|_].
  { rewrite E. unfold handleLight. cbn [fst snd].
    repeat split; try done.
    unfold oneCallAtMost. cbn [controller].
    destruct (controller h) as [l|]; [|done].
    exists []. rewrite app_nil_r. split; [done | cbn; lia]. }
  destruct (Z.eqb_spec (decodeCommand f) SWITCH_CMD) as [E|_].
  { unfold handleSwitch. cbn [fst snd].
    repeat split; try done; [apply oneCallAtMost_call|].
    intros _. apply callController_lights. }
  cbn [fst snd]. repeat split; try done. apply oneCallAtMost_refl.
Qed.

(** X7. For every frame and every handler state: the immediate list is
    exactly the ACK of the frame; the delayed list is that same ACK for
    SWITCH and empty otherwise; the controller is never attached or
    detached and receives at most one call; and the train-light map only
    changes on a LIGHT frame. *)
Theorem handler_frame_discipline (h : Cs3Handler) (f : CanFrame) :
  let h' := fst (handleTxFrame h f) in
  let r := snd (handleTxFrame h f) in
  immediate r = [makeAck f] /\
  delayed r = (if decodeCommand f =? SWITCH_CMD then [makeAck f] else []) /\
  (controller h = None -> controller h' = None) /\
  (forall l, controller h = Some l ->
     exists cs, controller h' = Some (l ++ cs) /\ (length cs <= 1)%nat) /\
  (length (callsBetween h h') <= 1)%nat /\
  (decodeCommand f <> LIGHT_CMD -> trainLights h' = trainLights h).
Proof.
  cbv zeta. destruct (handleTxFrame_cases h f) as (H1 & H2 & H3 & H4).
  split; [done|]. split; [done|].
  unfold oneCallAtMost, callsBetween in *.
  destruct (controller h) as [l|].
  - destruct H3 as (cs & -> & Hn).
    split; [done|]. split.
    + intros l' [= <-]. by exists cs.
    + split; [|done]. by rewrite drop_app_length.
  - rewrite H3. split; [done|]. split; [done|]. split; [cbn; lia | done].
Qed.

Lemma handler_frame_discipline_witness :
  controller (fst (handleTxFrame newCs3Handler switchFrame)) = None.
Proof.
  refine (proj1 (proj2 (proj2 (handler_frame_discipline newCs3Handler switchFrame))) _).
  reflexivity.
Defined.

(** X8. A frame whose command is none of SYSTEM, SPEED, DIRECTION, LIGHT,
    SWITCH leaves the handler as it is (no controller call, no change of
    the light map) and is answered by one immediate ACK. *)
Theorem unknown_command_acked (h : Cs3Handler) (f : CanFrame) :
  decodeCommand f <> SYSTEM_CMD -> decodeCommand f <> SPEED_CMD ->
  decodeCommand f <> DIRECTION_CMD -> decodeCommand f <> LIGHT_CMD ->
  decodeCommand f <> SWITCH_CMD ->
  handleTxFrame h f = (h, ackOnly (makeAck f)).
Proof.
  intros N0 N1 N2 N3 N4. unfold handleTxFrame.
  destruct (Z.eqb_spec (decodeCommand f) SYSTEM_CMD); [done|].
  destruct (Z.eqb_spec (decodeCommand f) SPEED_CMD); [done|].
  destruct (Z.eqb_spec (decodeCommand f) DIRECTION_CMD); [done|].
  destruct (Z.eqb_spec (decodeCommand f) LIGHT_CMD); [done|].
  destruct (Z.eqb_spec (decodeCommand f) SWITCH_CMD); done.
Qed.

Lemma unknown_command_acked_witness :
  handleTxFrame (setController newCs3Handler) (makeSensorEvent 42 false true)
  = (setController newCs3Handler, ackOnly (makeAck (makeSensorEvent 42 false true))).
Proof.
  apply unknown_command_acked; vm_compute; discriminate.
Defined.

(** * More on the SPI engine *)

(** ** The register file stays a file of 256 bytes *)

Lemma storeBytes_ok (d : list Z) (base : Z) (n : nat) (r : list Z) :
  regs_ok r -> regs_ok (storeBytes d base n r).
Proof.
  intros [Hl Hb]. split; [by rewrite storeBytes_length | by apply storeBytes_bytes].
Qed.

Lemma loadFrameToRxb0_ok (s : McpDecoder) (f : CanFrame) :
  regs_ok (registers s) -> regs_ok (registers (loadFrameToRxb0 s f)).
Proof.
  intros H. unfold loadFrameToRxb0. rewrite registers_updateIntPin.
  cbn [registers set_registers].
  apply setReg_ok, storeBytes_ok. by repeat apply setReg_ok.
Qed.

Lemma tryLoadNextRxFrame_ok (s : McpDecoder) :
  regs_ok (registers s) -> regs_ok (registers (tryLoadNextRxFrame s)).
Proof.
  intros H. unfold tryLoadNextRxFrame.
  destruct (_ =? 0); [|done]. destruct (rxQueue s); [done|].
  by apply loadFrameToRxb0_ok.
Qed.

Lemma queueRxFrames_ok (s : McpDecoder) (fs : list CanFrame) :
  regs_ok (registers s) -> regs_ok (registers (queueRxFrames s fs)).
Proof. intros H. unfold queueRxFrames. by apply tryLoadNextRxFrame_ok. Qed.

Lemma emitCanFrame_ok (s : McpDecoder) :
  regs_ok (registers s) -> regs_ok (registers (fst (emitCanFrame s))).
Proof.
  intros H. unfold emitCanFrame. cbn [fst registers set_state].
  set (s1 := updateIntPin _).
  assert (H1 : regs_ok (registers s1)).
  { subst s1. rewrite registers_updateIntPin. cbn [registers set_registers].
    by apply setReg_ok. }
  destruct (txFrameCallback s1) as [cb|]; [|done].
  destruct (cb _); [done|]. by apply queueRxFrames_ok.
Qed.

Lemma handleInstruction_registers (s : McpDecoder) (b : Z) :
  registers (fst (handleInstruction s b)) = registers s /\
  snd (handleInstruction s b) = noFrame 0.
Proof.
  unfold handleInstruction. cbn [fst snd].
  repeat (destruct (_ =? _)); done.
Qed.

Lemma computeStatus_byte (s : McpDecoder) : is_byte (computeStatus s).
Proof. destruct (computeStatus_bits s) as (_ & _ & _ & _ & _ & _ & _ & _ & H). exact H. Qed.

Lemma zero_byte : is_byte 0.
Proof. unfold is_byte. lia. Qed.

Lemma decode_regs_ok (s : McpDecoder) (b : Z) :
  regs_ok (registers s) ->
  regs_ok (registers (fst (decode s b))) /\ is_byte (rx (snd (decode s b))).
Proof.
  intros H. pose proof zero_byte as Hz. unfold decode.
  destruct (state s).
  - destruct (handleInstruction_registers s b) as [-> ->]. done.
  - destruct (b =? TXB0_SIDH); done.
  - destruct (isInstruction b).
    { destruct (handleInstruction_registers s b) as [-> ->]. done. }
    cbn [fst snd rx noFrame registers set_register]. split; [|done].
    set (r1 := if _ && _ then _ else _).
    assert (H1 : regs_ok r1).
    { subst r1. destruct (_ && _); by repeat apply setReg_ok. }
    destruct (_ =? CANINTF); [|done].
    apply tryLoadNextRxFrame_ok. by rewrite registers_updateIntPin.
  - cbn [txHeader set_txHeader set_registers txDlc set_txDlc].
    destruct (_ =? 5); [|split; [by apply setReg_ok | done]].
    destruct (_ =? 0).
    + unfold emitResult. cbn [fst snd rx]. split; [|done].
      apply emitCanFrame_ok. by apply setReg_ok.
    + split; [by apply setReg_ok | done].
  - cbn [txData set_txData set_registers txDlc].
    destruct (_ =? _).
    + unfold emitResult. cbn [fst snd rx]. split; [|done].
      apply emitCanFrame_ok. by apply setReg_ok.
    + split; [by apply setReg_ok | done].
  - done.
  - destruct (isInstruction b).
    { destruct (handleInstruction_registers s b) as [-> ->]. done. }
    split; [done|]. cbn [snd rx noFrame]. apply getReg_is_byte, H.
  - done.
  - done.
  - cbn [fst snd rx noFrame registers set_state]. split; [|done].
    destruct (_ =? CANINTF); [|by apply setReg_ok].
    apply tryLoadNextRxFrame_ok. rewrite registers_updateIntPin. by apply setReg_ok.
  - split; [done|]. apply computeStatus_byte.
Qed.

Lemma decodeAll_cons (s : McpDecoder) (b : Z) (bs : list Z) :
  decodeAll s (b :: bs) =
    (fst (decodeAll (fst (decode s b)) bs),
     snd (decode s b) :: snd (decodeAll (fst (decode s b)) bs)).
Proof.
  cbn [decodeAll]. destruct (decode s b) as [s1 r].
  cbn [fst snd]. destruct (decodeAll s1 bs). reflexivity.
Qed.

Lemma decodeAll_app (s : McpDecoder) (bs cs : list Z) :
  decodeAll s (bs ++ cs) =
    (fst (decodeAll (fst (decodeAll s bs)) cs),
     snd (decodeAll s bs) ++ snd (decodeAll (fst (decodeAll s bs)) cs)).
Proof.
  revert s. induction bs as [|b bs IH]; intros s.
  - cbn [app decodeAll fst snd]. by destruct (decodeAll s cs).
  - rewrite <- app_comm_cons, !decodeAll_cons. cbn [fst snd]. by rewrite IH.
Qed.

(** X9. Byte parity.  Whatever is fed to the engine (any chunk, any
    numbers), the reply has one entry per input byte, every reply value is
    a byte, and the register file is still 256 bytes afterwards. *)
Theorem spi_reply_bytes (s : McpDecoder) (bs : list Z) :
  regs_ok (registers s) ->
  length (snd (decodeAll s bs)) = length bs /\
  Forall (fun r => is_byte (rx r)) (snd (decodeAll s bs)) /\
  regs_ok (registers (fst (decodeAll s bs))).
Proof.
  revert s. induction bs as [|b bs IH]; intros s H.
  - cbn. done.
  - rewrite decodeAll_cons. cbn [fst snd length].
    destruct (decode_regs_ok s b H) as [H1 H2].
    destruct (IH _ H1) as (I1 & I2 & I3).
    split; [by rewrite I1|]. split; [by constructor | done].
Qed.

Lemma spi_reply_bytes_witness :
  length (snd (decodeAll newMcpDecoder [0x03; 0x2C; 0x00; 0xFF])) = 4%nat.
Proof.
  refine (proj1 (spi_reply_bytes newMcpDecoder [0x03; 0x2C; 0x00; 0xFF] _)).
  exact new_regs_ok.
Defined.

(** ** Bytes that are not instructions, and instructions in mid-transaction *)

Lemma handleInstruction_other (s : McpDecoder) (b : Z) :
  isInstruction b = false -> handleInstruction s b = (s, noFrame 0).
Proof.
  unfold isInstruction, handleInstruction. intros H.
  destruct (b =? INSTRUCTION_WRITE); [done|].
  destruct (b =? INSTRUCTION_READ); [done|].
  destruct (b =? INSTRUCTION_BIT_MODIFY); [done|].
  destruct (b =? INSTRUCTION_READ_STATUS); done.
Qed.

(** X10. In IDLE, bytes that are not one of the four opcodes are ignored:
    any run of such bytes leaves the whole decoder exactly as it was and is
    answered by zeros, without a frame. *)
Theorem idle_ignores_garbage (s : McpDecoder) (bs : list Z) :
  state s = IDLE -> Forall (fun b => isInstruction b = false) bs ->
  decodeAll s bs = (s, map (fun _ => noFrame 0) bs).
Proof.
  intros Hs Hbs. induction Hbs as [|b bs Hb _ IH]; [done|].
  rewrite decodeAll_cons.
  assert (E : decode s b = (s, noFrame 0)).
  { unfold decode. rewrite Hs. by apply handleInstruction_other. }
  rewrite E. cbn [fst snd map]. by rewrite IH.
Qed.

Lemma idle_ignores_garbage_witness :
  decodeAll newMcpDecoder [0x00; 0xFF; 0x31]
  = (newMcpDecoder, [noFrame 0; noFrame 0; noFrame 0]).
Proof.
  apply (idle_ignores_garbage newMcpDecoder [0x00; 0xFF; 0x31]);
    [reflexivity | repeat constructor].
Defined.



(** ** READ and WRITE bursts *)

Lemma band_ff_mod (x : Z) : 0 <= x < 2 ^ 31 -> JS.band x 0xFF = x mod 256.
Proof.
  intros H. rewrite band_small by lia. change 255 with (Z.ones 8).
  by rewrite Z.land_ones by lia.
Qed.

Lemma band_ff_byte (x : Z) : is_byte x -> JS.band x 0xFF = x.
Proof.
  intros H. unfold is_byte in H. rewrite band_ff_mod by lia.
  apply Z.mod_small. lia.
Qed.

Lemma mod256_byte (x : Z) : is_byte (x mod 256).
Proof. apply Z.mod_pos_bound. lia. Qed.

Lemma read_step (s : McpDecoder) (b : Z) :
  state s = READ_DATA -> is_byte (register s) -> isInstruction b = false ->
  decode s b = (set_register ((register s + 1) mod 256) s,
                noFrame (getReg (registers s) (register s))).
Proof.
  intros Hs Ha Hb. unfold decode. rewrite Hs, Hb.
  rewrite (band_ff_byte (register s)) by done. unfold is_byte in Ha.
  rewrite band_ff_mod by lia. done.
Qed.

Lemma read_run (ds : list Z) (s : McpDecoder) :
  state s = READ_DATA -> is_byte (register s) ->
  Forall (fun b => isInstruction b = false) ds ->
  decodeAll s ds =
    (set_register ((register s + Z.of_nat (length ds)) mod 256) s,
     map (fun i : nat => noFrame (getReg (registers s)
                                  ((register s + Z.of_nat i) mod 256)))
         (seq 0 (length ds))).
Proof.
  intros Hs Ha Hds. revert s Hs Ha.
  induction Hds as [|d ds Hd _ IH]; intros s Hs Ha.
  - cbn [decodeAll length seq map]. rewrite Z.add_0_r, Z.mod_small by exact Ha.
    by destruct s.
  - rewrite decodeAll_cons, read_step by done. cbn [fst snd].
    rewrite IH by (try done; apply mod256_byte).
    cbn [register set_register registers length seq map].
    rewrite Z.add_0_r, (Z.mod_small (register s)) by exact Ha.
    f_equal.
    + replace ((register s + Z.of_nat (S (length ds))) mod 256)
        with (((register s + 1) mod 256 + Z.of_nat (length ds)) mod 256); [done|].
      rewrite Zplus_mod_idemp_l. f_equal. lia.
    + f_equal. rewrite <- seq_shift, map_map. apply map_ext. intros i.
      rewrite Zplus_mod_idemp_l. do 3 f_equal. lia.
Qed.

Lemma accepts_write (s : McpDecoder) :
  acceptsInstruction s ->
  decode s INSTRUCTION_WRITE = (set_state WRITE_ADDR s, noFrame 0).
Proof. intros [H | [H | H]]; unfold decode; rewrite H; reflexivity. Qed.

Lemma accepts_read (s : McpDecoder) :
  acceptsInstruction s ->
  decode s INSTRUCTION_READ = (set_state READ_ADDR s, noFrame 0).
Proof. intros [H | [H | H]]; unfold decode; rewrite H; reflexivity. Qed.

(** X12. A READ transaction answers 0 to the opcode and to the address
    byte and then, for each dummy byte that is not an opcode, the value of
    the next register, the address wrapping from 0xFF to 0x00; it changes
    no register and surfaces no frame. *)
Theorem read_burst (s : McpDecoder) (a : Z) (ds : list Z) :
  acceptsInstruction s -> is_byte a ->
  Forall (fun b => isInstruction b = false) ds ->
  let res := decodeAll s (INSTRUCTION_READ :: a :: ds) in
  map rx (snd res) =
    0 :: 0 :: map (fun i : nat => getReg (registers s) ((a + Z.of_nat i) mod 256))
                  (seq 0 (length ds)) /\
  Forall (fun r => frame r = None) (snd res) /\
  registers (fst res) = registers s /\
  state (fst res) = READ_DATA /\
  register (fst res) = (a + Z.of_nat (length ds)) mod 256.
Proof.
  intros Hs Ha Hds. cbv zeta.
  rewrite decodeAll_cons, accepts_read by done. cbn [fst snd].
  rewrite decodeAll_cons.
  assert (E : decode (set_state READ_ADDR s) a
              = (set_state READ_DATA (set_register a (set_state READ_ADDR s)), noFrame 0))
    by reflexivity.
  rewrite E. cbn [fst snd]. rewrite read_run by done.
  cbn [fst snd map rx noFrame register registers set_register set_state state].
  rewrite map_map. cbn [rx noFrame].
  repeat split; try done.
  repeat constructor. apply Forall_map. apply Forall_forall. done.
Qed.

Lemma read_burst_witness :
  map rx (snd (decodeAll (setRegister newMcpDecoder 0x00 0x77)
                 [0x03; 0xFF; 0x00; 0x00]))
  = [0; 0; 0; 0x77].
Proof.
  refine (proj1 (read_burst (setRegister newMcpDecoder 0x00 0x77) 0xFF [0x00; 0x00]
                   _ _ _));
    [left; reflexivity | unfold is_byte; lia | repeat constructor].
Defined.

Lemma write_step (s : McpDecoder) (v : Z) :
  state s = WRITE_DATA -> is_byte (register s) -> isInstruction v = false ->
  register s <> CANINTF -> (register s = TXB0CTRL -> JS.band v 0x08 = 0) ->
  decode s v =
    (set_register ((register s + 1) mod 256)
       (set_registers (setReg (registers s) (register s) v) s),
     noFrame 0).
Proof.
  intros Hs Ha Hv Hc Ht. unfold decode. rewrite Hs, Hv.
  rewrite (band_ff_byte (register s)) by done.
  destruct (Z.eqb_spec (register s) CANINTF); [done|].
  assert (E : (register s =? TXB0CTRL) && negb (JS.band v 8 =? 0) = false).
  { destruct (Z.eqb_spec (register s) TXB0CTRL) as [E|]; [|done].
    rewrite (Ht E). done. }
  rewrite E. cbn [register set_registers]. unfold is_byte in Ha.
  rewrite band_ff_mod by lia. done.
Qed.

Lemma write_run (vs : list Z) (s : McpDecoder) :
  state s = WRITE_DATA -> is_byte (register s) -> plainRun (register s) vs ->
  decodeAll s vs =
    (set_register ((register s + Z.of_nat (length vs)) mod 256)
       (set_registers (writeRun (registers s) (register s) vs) s),
     map (fun _ => noFrame 0) vs).
Proof.
  revert s. induction vs as [|v vs IH]; intros s Hs Ha Hp.
  - cbn [decodeAll length writeRun map]. rewrite Z.add_0_r, Z.mod_small by exact Ha.
    by destruct s.
  - destruct Hp as (Hv & Hc & Ht & Hp).
    rewrite decodeAll_cons, write_step by done. cbn [fst snd map].
    rewrite IH by (try done; apply mod256_byte).
    cbn [register set_register registers set_registers length writeRun].
    f_equal.
    replace ((register s + Z.of_nat (S (length vs))) mod 256)
      with (((register s + 1) mod 256 + Z.of_nat (length vs)) mod 256); [done|].
    rewrite Zplus_mod_idemp_l. f_equal. lia.
Qed.

Lemma writeRun_length (vs : list Z) (r : list Z) (a : Z) :
  length (writeRun r a vs) = length r.
Proof.
  revert r a. induction vs as [|v vs IH]; intros r a; [done|].
  cbn [writeRun]. by rewrite IH, setReg_length.
Qed.

Lemma writeRun_other (vs : list Z) (r : list Z) (a x : Z) :
  length r = 256%nat -> is_byte a -> 0 <= x ->
  (forall i : nat, (i < length vs)%nat -> (a + Z.of_nat i) mod 256 <> x) ->
  getReg (writeRun r a vs) x = getReg r x.
Proof.
  revert r a. induction vs as [|v vs IH]; intros r a Hl Ha Hx Hn; [done|].
  cbn [writeRun]. rewrite IH.
  - apply getReg_setReg_ne; [done | done |].
    specialize (Hn 0%nat ltac:(cbn; lia)).
    rewrite Z.add_0_r, Z.mod_small in Hn by exact Ha. done.
  - by rewrite setReg_length.
  - apply mod256_byte.
  - done.
  - intros i Hi. specialize (Hn (S i) ltac:(cbn; lia)).
    rewrite Zplus_mod_idemp_l. replace (a + 1 + Z.of_nat i) with (a + Z.of_nat (S i)) by lia.
    done.
Qed.

Lemma writeRun_at (vs : list Z) (r : list Z) (a : Z) (i : nat) (v : Z) :
  length r = 256%nat -> is_byte a -> (length vs <= 256)%nat ->
  vs !! i = Some v ->
  getReg (writeRun r a vs) ((a + Z.of_nat i) mod 256) = JS.toUint8 v.
Proof.
  revert r a i. induction vs as [|w vs IH]; intros r a i Hl Ha Hn Hi; [done|].
  cbn [length] in Hn. cbn [writeRun]. destruct i as [|i].
  - injection Hi as ->. rewrite Z.add_0_r, (Z.mod_small a) by exact Ha.
    unfold is_byte in Ha.
    rewrite writeRun_other.
    + apply getReg_setReg_eq; [done | lia].
    + by rewrite setReg_length.
    + apply mod256_byte.
    + lia.
    + intros j Hj. rewrite Zplus_mod_idemp_l.
      intros E.
      assert (E' : (a + 1 + Z.of_nat j) mod 256 = a mod 256)
        by (rewrite E; symmetry; apply Z.mod_small; lia).
      apply Z.cong_iff_ex in E'. destruct E' as [k E'].
      lia.
  - cbn [lookup list_lookup] in Hi.
    replace ((a + Z.of_nat (S i)) mod 256)
      with (((a + 1) mod 256 + Z.of_nat i) mod 256)
      by (rewrite Zplus_mod_idemp_l; f_equal; lia).
    apply IH; try done; [by rewrite setReg_length | apply mod256_byte | lia].
Qed.

Lemma write_addr_step (s : McpDecoder) (a : Z) :
  acceptsInstruction s -> a <> TXB0_SIDH ->
  decodeAll s [INSTRUCTION_WRITE; a] =
    (set_state WRITE_DATA (set_register a (set_state WRITE_ADDR s)),
     [noFrame 0; noFrame 0]).
Proof.
  intros Hs Ha. rewrite decodeAll_cons, accepts_write by done. cbn [fst snd].
  assert (E : decode (set_state WRITE_ADDR s) a
              = (set_state WRITE_DATA (set_register a (set_state WRITE_ADDR s)),
                 noFrame 0)).
  { unfold decode. cbn [state set_state].
    destruct (Z.eqb_spec a TXB0_SIDH); done. }
  rewrite decodeAll_cons, E. reflexivity.
Qed.

(** X13. Write, then read back.  A WRITE burst of plain stores (no opcode
    among the data, not starting at TXB0SIDH, nothing landing on CANINTF,
    TXREQ clear in a byte landing on TXB0CTRL) followed by a READ of the
    same address returns exactly the bytes written, with the address
    auto-incrementing modulo 256 in both directions; every register outside
    the written range keeps its value. *)
Theorem write_read_roundtrip (s : McpDecoder) (a : Z) (vs ds : list Z) :
  acceptsInstruction s -> length (registers s) = 256%nat ->
  is_byte a -> a <> TXB0_SIDH ->
  Forall is_byte vs -> (length vs <= 256)%nat -> plainRun a vs ->
  Forall (fun b => isInstruction b = false) ds -> length ds = length vs ->
  let res := decodeAll s ([INSTRUCTION_WRITE; a] ++ vs ++ [INSTRUCTION_READ; a] ++ ds) in
  map rx (snd res) = replicate (length vs + 4) 0 ++ vs /\
  Forall (fun r => frame r = None) (snd res) /\
  (forall x, is_byte x ->
     (forall i : nat, (i < length vs)%nat -> (a + Z.of_nat i) mod 256 <> x) ->
     getReg (registers (fst res)) x = getReg (registers s) x).
Proof.
  intros Hs Hlen Ha Hna Hvs Hn Hp Hds Hl. cbv zeta.
  rewrite decodeAll_app, write_addr_step by done. cbn [fst snd].
  set (s2 := set_state WRITE_DATA _).
  rewrite decodeAll_app, (write_run vs s2) by done. cbn [fst snd].
  set (s3 := set_register _ _).
  assert (Hs3 : acceptsInstruction s3) by (right; left; reflexivity).
  cbn [app]. rewrite decodeAll_cons, accepts_read by done. cbn [fst snd].
  rewrite decodeAll_cons.
  assert (E : decode (set_state READ_ADDR s3) a
              = (set_state READ_DATA (set_register a (set_state READ_ADDR s3)), noFrame 0))
    by reflexivity.
  rewrite E. cbn [fst snd]. rewrite read_run by done.
  cbn [fst snd register registers set_register set_registers set_state s3 s2].
  split; [|split].
  - cbn [map]. rewrite map_app. cbn [map]. rewrite !map_map. cbn [rx noFrame].
    rewrite Hl.
    rewrite (map_seq_lookup _ vs).
    + replace (length vs + 4)%nat with (2 + (length vs + 2))%nat by lia.
      rewrite replicate_add, replicate_add. cbn [replicate app].
      f_equal. f_equal. rewrite <- app_assoc. f_equal.
      clear. induction vs as [|v vs IH]; [done|]. cbn. by rewrite IH.
    + intros i v Hi. rewrite (writeRun_at vs _ a i v) by done.
      apply toUint8_byte. eapply Forall_lookup_1; eauto.
  - repeat (apply Forall_cons; split; [done|]).
    apply Forall_app. split.
    + apply Forall_map. apply Forall_forall. done.
    + repeat (apply Forall_cons; split; [done|]).
      apply Forall_map. apply Forall_forall. done.
  - intros x Hx Hi. apply writeRun_other; try done. unfold is_byte in Hx. lia.
Qed.

Lemma write_read_roundtrip_witness :
  map rx (snd (decodeAll newMcpDecoder
                 ([0x02; 0xFF] ++ [0x11; 0x22] ++ [0x03; 0xFF] ++ [0x00; 0x00])))
  = replicate 6 0 ++ [0x11; 0x22].
Proof.
  refine (proj1 (write_read_roundtrip newMcpDecoder 0xFF [0x11; 0x22] [0x00; 0x00]
                   _ _ _ _ _ _ _ _ _)).
  - left; reflexivity.
  - reflexivity.
  - unfold is_byte; lia.
  - discriminate.
  - repeat constructor; unfold is_byte; lia.
  - cbn; lia.
  - cbn. repeat split; try discriminate.
  - repeat constructor.
  - reflexivity.
Defined.

(** ** Direct register access *)

Lemma toInt32_mod256 (a : Z) : JS.toInt32 a mod 256 = a mod 256.
Proof.
  change 256 with (2 ^ 8). apply Z.bits_inj'. intros n Hn.
  destruct (Z.lt_ge_cases n 8).
  - rewrite !Z.mod_pow2_bits_low by lia. apply toInt32_testbit. lia.
  - rewrite !Z.mod_pow2_bits_high by lia. done.
Qed.

Lemma band_ff_any (a : Z) : JS.band a 0xFF = a mod 256.
Proof.
  unfold JS.band. change (JS.toInt32 255) with (Z.ones 8).
  rewrite Z.land_ones by lia. apply toInt32_mod256.
Qed.

(** X14. [setRegister] followed by [getRegister]: for arbitrary numbers as
    addresses, reading the address just set (modulo 256) gives the value
    modulo 256 and reading any other address gives what was there before;
    unlike a WRITE over SPI, [setRegister] has no side effect, not even on
    CANINTF: the INT pin, the callback log, the RX queue and the state of
    the transaction are untouched. *)
Theorem set_get_register (s : McpDecoder) (a v a' : Z) :
  length (registers s) = 256%nat ->
  getRegister (setRegister s a v) a' =
    (if decide (a mod 256 = a' mod 256) then v mod 256 else getRegister s a') /\
  quiet s (setRegister s a v) /\
  rxQueue (setRegister s a v) = rxQueue s /\
  state (setRegister s a v) = state s.
Proof.
  intros Hlen. unfold getRegister, setRegister. cbn [registers set_registers].
  rewrite !band_ff_any.
  pose proof (mod256_byte a) as Ha. pose proof (mod256_byte a') as Ha'.
  unfold is_byte in *. split; [|by repeat split].
  rewrite getReg_setReg by lia.
  repeat case_decide; try lia; done.
Qed.

Lemma set_get_register_witness :
  getRegister (setRegister newMcpDecoder 0x12C 0x1FF) 0x2C = 0xFF.
Proof.
  refine (proj1 (set_get_register newMcpDecoder 0x12C 0x1FF 0x2C _)). reflexivity.
Defined.

(** ** The RX queue *)

Lemma loadFrameToRxb0_low (s : McpDecoder) (f : CanFrame) (a : Z) :
  length (registers s) = 256%nat -> 0 <= a < RXB0_SIDH ->
  getReg (registers (loadFrameToRxb0 s f)) a =
    if decide (a = CANINTF)
    then JS.toUint8 (JS.bor (getReg (registers s) CANINTF) RX0IF)
    else getReg (registers s) a.
Proof.
  intros Hlen Ha. unfold loadFrameToRxb0. rewrite registers_updateIntPin.
  cbn [registers set_registers].
  unfold RXB0_SIDH, CANINTF in *.
  rewrite getReg_setReg by (rewrite ?storeBytes_length, ?setReg_length; lia).
  case_decide as E.
  - destruct E as [-> _]. case_decide; [|done].
    do 2 f_equal.
    repeat (first [rewrite getReg_setReg
                     by (rewrite ?storeBytes_length, ?setReg_length; lia)
                  | rewrite getReg_storeBytes
                     by (rewrite ?storeBytes_length, ?setReg_length; lia)];
            case_decide; try lia).
  - case_decide; [lia|].
    repeat (first [rewrite getReg_setReg
                     by (rewrite ?storeBytes_length, ?setReg_length; lia)
                  | rewrite getReg_storeBytes
                     by (rewrite ?storeBytes_length, ?setReg_length; lia)];
            case_decide; try lia).
Qed.

Lemma loadFrameToRxb0_fields (s : McpDecoder) (f : CanFrame) :
  state (loadFrameToRxb0 s f) = state s /\
  txFrameCallback (loadFrameToRxb0 s f) = txFrameCallback s /\
  rxQueue (loadFrameToRxb0 s f) = rxQueue s /\
  length (registers (loadFrameToRxb0 s f)) = length (registers s).
Proof.
  unfold loadFrameToRxb0.
  match goal with
  | |- context [updateIntPin ?x] =>
      destruct (updateIntPin_fields x) as (-> & -> & -> & _)
  end.
  rewrite registers_updateIntPin. cbn [registers set_registers state rxQueue txFrameCallback].
  by rewrite !setReg_length, storeBytes_length, !setReg_length.
Qed.

Lemma rx0if_after_or (v : Z) : (JS.band (JS.toUint8 (JS.bor v RX0IF)) RX0IF =? 0) = false.
Proof.
  apply Z.eqb_neq. intros E.
  assert (F : Z.testbit (JS.band (JS.toUint8 (JS.bor v RX0IF)) RX0IF) 0 = true).
  { unfold JS.band. rewrite Z.land_spec, !toInt32_testbit by lia.
    rewrite toUint8_testbit by lia. unfold JS.bor.
    rewrite Z.lor_spec, !toInt32_testbit by lia. unfold RX0IF.
    by rewrite orb_true_r. }
  rewrite E in F. discriminate F.
Qed.

Lemma loadFrameToRxb0_sets_rx0if (s : McpDecoder) (f : CanFrame) :
  length (registers s) = 256%nat ->
  (JS.band (getReg (registers (loadFrameToRxb0 s f)) CANINTF) RX0IF =? 0) = false.
Proof.
  intros Hlen. rewrite loadFrameToRxb0_low by (unfold RXB0_SIDH, CANINTF; done || lia).
  case_decide; [|done]. apply rx0if_after_or.
Qed.

(** The test [(registers[CANINTF] & RX0IF) === 0] of the code looks at bit 0. *)
Lemma rx0if_test (x : Z) : (JS.band x RX0IF =? 0) = negb (Z.testbit x 0).
Proof.
  unfold JS.band, RX0IF. change (JS.toInt32 1) with (Z.ones 1).
  rewrite Z.land_ones by lia. change (2 ^ 1) with 2.
  rewrite <- (toInt32_testbit x 0) by lia. rewrite <- Z.bit0_mod.
  by destruct (Z.testbit _ 0).
Qed.

Lemma tryLoadNextRxFrame_cases (s : McpDecoder) :
  length (registers s) = 256%nat ->
  (rx0if s = false /\ exists f q, rxQueue s = f :: q /\
     tryLoadNextRxFrame s = loadFrameToRxb0 (set_rxQueue q s) f) \/
  ((rx0if s = true \/ rxQueue s = []) /\ tryLoadNextRxFrame s = s).
Proof.
  intros Hlen. unfold tryLoadNextRxFrame, rx0if. rewrite rx0if_test.
  destruct (Z.testbit _ 0); cbn [negb].
  - right. split; [by left | done].
  - destruct (rxQueue s) as [|f q] eqn:E.
    + right. split; [by right | done].
    + left. split; [done|]. by exists f, q.
Qed.

Lemma loadFrameToRxb0_rx0if (s : McpDecoder) (f : CanFrame) :
  length (registers s) = 256%nat -> rx0if (loadFrameToRxb0 s f) = true.
Proof.
  intros Hlen. pose proof (loadFrameToRxb0_sets_rx0if s f Hlen) as H.
  rewrite rx0if_test in H. unfold rx0if. by destruct (Z.testbit _ 0).
Qed.

Lemma tryLoadNextRxFrame_rx_inv (s : McpDecoder) :
  length (registers s) = 256%nat -> rx_inv (tryLoadNextRxFrame s).
Proof.
  intros Hlen.
  destruct (tryLoadNextRxFrame_cases s Hlen)
    as [(_ & f & q & _ & ->) | [[H | H] ->]].
  - right. by apply loadFrameToRxb0_rx0if.
  - by right.
  - by left.
Qed.

Lemma queueRxFrames_rx_inv (s : McpDecoder) (fs : list CanFrame) :
  length (registers s) = 256%nat -> rx_inv (queueRxFrames s fs).
Proof. intros Hlen. unfold queueRxFrames. by apply tryLoadNextRxFrame_rx_inv. Qed.

(** A step that keeps CANINTF bit 0 and the queue keeps the invariant. *)
Lemma rx_inv_same (s s' : McpDecoder) :
  rx0if s' = rx0if s -> rxQueue s' = rxQueue s -> rx_inv s -> rx_inv s'.
Proof. unfold rx_inv. intros -> ->. done. Qed.

Lemma rx0if_store_other (s : McpDecoder) (r : list Z) (a v : Z) :
  length r = 256%nat -> a <> CANINTF ->
  Z.testbit (getReg (setReg r a v) CANINTF) 0 = Z.testbit (getReg r CANINTF) 0.
Proof.
  intros Hl Ha. rewrite getReg_setReg_ne; [done | done | unfold CANINTF; lia | done].
Qed.

Lemma emitCanFrame_rx_inv (s : McpDecoder) :
  length (registers s) = 256%nat -> rx_inv s -> rx_inv (fst (emitCanFrame s)).
Proof.
  intros Hlen Hinv. unfold emitCanFrame. cbn [fst].
  set (s0 := set_registers _ s).
  assert (H0 : rx_inv (updateIntPin s0)).
  { apply (rx_inv_same s); [| |done].
    - unfold rx0if. rewrite registers_updateIntPin. subst s0.
      cbn [registers set_registers]. unfold CANINTF.
      rewrite getReg_setReg_eq by lia. rewrite toUint8_testbit by lia.
      unfold JS.bor. rewrite Z.lor_spec, !toInt32_testbit by lia.
      apply orb_false_r.
    - by destruct (updateIntPin_fields s0) as (_ & _ & -> & _). }
  assert (Hl : length (registers (updateIntPin s0)) = 256%nat).
  { rewrite registers_updateIntPin. subst s0. cbn [registers set_registers].
    by rewrite setReg_length. }
  destruct (txFrameCallback (updateIntPin s0)) as [cb|]; [|exact H0].
  destruct (cb _) as [|f0 fs]; [exact H0|].
  apply (rx_inv_same (queueRxFrames (updateIntPin s0) (f0 :: fs))); try done.
  by apply queueRxFrames_rx_inv.
Qed.

Lemma handleInstruction_rx_inv (s : McpDecoder) (b : Z) :
  rx_inv s -> rx_inv (fst (handleInstruction s b)).
Proof.
  intros H. unfold handleInstruction. cbn [fst].
  repeat (destruct (_ =? _)); exact H.
Qed.

Lemma tx_address (k : Z) : 0 <= k < 0x61 - 0x31 ->
  JS.band (TXB0_SIDH + k) 0xFF = TXB0_SIDH + k /\ TXB0_SIDH + k <> CANINTF.
Proof.
  intros Hk. unfold TXB0_SIDH, CANINTF. rewrite band_ff_byte by (unfold is_byte; lia).
  split; [done | lia].
Qed.

Lemma decode_rx_inv (s : McpDecoder) (b : Z) :
  tx_inv s -> rx_inv s -> rx_inv (fst (decode s b)).
Proof.
  intros [Hlen Htx] Hinv. unfold decode.
  destruct (state s) eqn:Hst.
  - by apply handleInstruction_rx_inv.
  - destruct (b =? TXB0_SIDH); exact Hinv.
  - destruct (isInstruction b); [by apply handleInstruction_rx_inv|].
    cbn [fst].
    set (r1 := if _ && _ then _ else _).
    assert (Hl1 : length r1 = 256%nat).
    { subst r1. destruct (_ && _); by rewrite ?setReg_length. }
    destruct (Z.eqb_spec (JS.band (register s) 255) CANINTF) as [E|N].
    + apply (rx_inv_same (tryLoadNextRxFrame (updateIntPin (set_registers r1 s))));
        try done.
      apply tryLoadNextRxFrame_rx_inv. by rewrite registers_updateIntPin.
    + apply (rx_inv_same s); try done.
      unfold rx0if. cbn [registers set_register set_registers]. subst r1.
      destruct (_ && _).
      * rewrite !(rx0if_store_other s); try done; by rewrite ?setReg_length.
      * by rewrite (rx0if_store_other s).
  - destruct Htx as (Hn & Hbs & Hm).
    destruct (tx_address (Z.of_nat (length (txHeader s)))) as [Ea Na]; [lia|].
    cbn [txHeader set_txHeader set_registers txDlc set_txDlc].
    assert (H1 : forall s1, rx0if s1 = rx0if (set_registers
                   (setReg (registers s) (TXB0_SIDH + Z.of_nat (length (txHeader s))) b) s) ->
                 rxQueue s1 = rxQueue s -> rx_inv s1).
    { intros s1 E1 E2. apply (rx_inv_same s); try done.
      rewrite E1. unfold rx0if. cbn [registers set_registers].
      by apply (rx0if_store_other s). }
    rewrite Ea.
    destruct (_ =? 5); [|by apply H1].
    destruct (_ =? 0); [|by apply H1].
    unfold emitResult. cbn [fst]. apply emitCanFrame_rx_inv.
    + cbn [registers set_txDlc set_txHeader set_registers]. by rewrite setReg_length.
    + by apply H1.
  - destruct Htx as (Hn & Hbs & Hm & Hd & Hde & Hdl & Hdb & Hdm).
    destruct (tx_address (5 + Z.of_nat (length (txData s)))) as [Ea Na]; [lia|].
    rewrite Z.add_assoc in Ea, Na.
    cbn [txData set_txData set_registers txDlc].
    assert (H1 : forall s1, rx0if s1 = rx0if (set_registers
                   (setReg (registers s) (TXB0_SIDH + 5 + Z.of_nat (length (txData s))) b) s) ->
                 rxQueue s1 = rxQueue s -> rx_inv s1).
    { intros s1 E1 E2. apply (rx_inv_same s); try done.
      rewrite E1. unfold rx0if. cbn [registers set_registers].
      by apply (rx0if_store_other s). }
    rewrite Ea.
    destruct (_ =? _); [|by apply H1].
    unfold emitResult. cbn [fst]. apply emitCanFrame_rx_inv.
    + cbn [registers set_txData set_registers]. by rewrite setReg_length.
    + by apply H1.
  - exact Hinv.
  - destruct (isInstruction b); [by apply handleInstruction_rx_inv | exact Hinv].
  - exact Hinv.
  - exact Hinv.
  - cbn [fst].
    destruct (Z.eqb_spec (JS.band (register s) 255) CANINTF) as [E|N].
    + apply (rx_inv_same (tryLoadNextRxFrame (updateIntPin (set_registers
               (setReg (registers s) (JS.band (register s) 255)
                  (JS.bor (JS.band (getReg (registers s) (JS.band (register s) 255))
                                   (JS.bnot (bitModifyMask s)))
                          (JS.band b (bitModifyMask s)))) s)))); try done.
      apply tryLoadNextRxFrame_rx_inv. rewrite registers_updateIntPin.
      cbn [registers set_registers]. by rewrite setReg_length.
    + apply (rx_inv_same s); try done.
      unfold rx0if. cbn [registers set_state set_registers].
      by apply (rx0if_store_other s).
  - exact Hinv.
Qed.

Lemma reachable_rx_inv (s : McpDecoder) : reachable s -> rx_inv s.
Proof.
  induction 1 as [|s b Hr IH Hb|s fs Hr IH|s cb _ IH|s _ IH].
  - by left.
  - apply decode_rx_inv; [by apply reachable_tx_inv | done].
  - apply queueRxFrames_rx_inv. by destruct (reachable_tx_inv s Hr).
  - exact IH.
  - exact IH.
Qed.

(** X15. In every state the bridge can drive the engine into, a frame
    waits in the RX queue only while RXB0 is occupied: the queue is empty
    or CANINTF.RX0IF is set. *)
Theorem rx_queue_waits_only_when_full (s : McpDecoder) :
  reachable s -> rxQueue s = [] \/ Z.testbit (getReg (registers s) CANINTF) 0 = true.
Proof. exact (reachable_rx_inv s). Qed.

Lemma rx_queue_waits_only_when_full_witness :
  rxQueue (queueRxFrames newMcpDecoder [frameA; frameB]) = [] \/
  Z.testbit (getReg (registers (queueRxFrames newMcpDecoder [frameA; frameB])) CANINTF) 0
    = true.
Proof.
  apply (rx_queue_waits_only_when_full (queueRxFrames newMcpDecoder [frameA; frameB])).
  apply reach_queue, reach_new.
Defined.

(** The inverse layout applied to RXB0 right after a load. *)
Lemma load_decodes (s : McpDecoder) (f : CanFrame) :
  length (registers s) = 256%nat -> frame_ok f ->
  decodeRxb0 (registers (loadFrameToRxb0 s f)) = f.
Proof.
  intros Hlen Hf.
  destruct (rxb0_contents s f Hlen Hf) as (E0 & E1 & E2 & E3 & E4 & E5 & _).
  pose proof Hf as (Hi & He & Hd & Hdl & Hdb).
  unfold decodeRxb0. rewrite Z.add_0_r, E0, E1, E2, E3, E4.
  rewrite id_roundtrip, eid_roundtrip by done.
  destruct f as [fi fe fd fdata]. cbn [id eid dlc data] in *.
  subst fd. f_equal. rewrite Nat2Z.id. apply map_seq_lookup.
  intros i v Hiv. rewrite Z.add_assoc. by apply E5.
Qed.

(** X16. [queueRxFrames] is first in, first out.  When RXB0 is occupied
    (or there is nothing to queue) the new frames are appended behind the
    waiting ones and no register changes; when RXB0 is free, the oldest
    frame (of the waiting ones, then of the new ones) is the one loaded
    into RXB0, RX0IF is set, and the others wait in their order. *)
Theorem queue_rx_fifo (s : McpDecoder) (fs : list CanFrame) :
  length (registers s) = 256%nat ->
  let s' := queueRxFrames s fs in
  (rx0if s = true \/ rxQueue s ++ fs = [] ->
   rxQueue s' = rxQueue s ++ fs /\ registers s' = registers s /\ quiet s s') /\
  (rx0if s = false ->
   forall f q, rxQueue s ++ fs = f :: q ->
     rxQueue s' = q /\ rx0if s' = true /\
     (frame_ok f -> decodeRxb0 (registers s') = f)).
Proof.
  intros Hlen. cbv zeta. unfold queueRxFrames.
  set (s0 := set_rxQueue (rxQueue s ++ fs) s).
  destruct (tryLoadNextRxFrame_cases s0 Hlen)
    as [(H0 & f & q & Hq & ->) | [H ->]].
  - split.
    + intros [H | H]; [unfold rx0if in *; cbn [registers s0 set_rxQueue] in H0; congruence|].
      cbn [rxQueue s0 set_rxQueue] in Hq. congruence.
    + intros _ f' q' E. cbn [rxQueue s0 set_rxQueue] in Hq.
      rewrite E in Hq. injection Hq as -> ->.
      destruct (loadFrameToRxb0_fields (set_rxQueue q s0) f) as (_ & _ & -> & _).
      split; [done|]. split; [by apply loadFrameToRxb0_rx0if|].
      intros Hf. by apply load_decodes.
  - split.
    + intros _. by repeat split.
    + intros Hr f q E. destruct H as [H | H].
      * unfold rx0if in *. cbn [registers s0 set_rxQueue] in H. congruence.
      * cbn [rxQueue s0 set_rxQueue] in H. congruence.
Qed.

Lemma queue_rx_fifo_witness :
  rxQueue (queueRxFrames newMcpDecoder [frameA; frameB]) = [frameB] /\
  rx0if (queueRxFrames newMcpDecoder [frameA; frameB]) = true /\
  (frame_ok frameA ->
   decodeRxb0 (registers (queueRxFrames newMcpDecoder [frameA; frameB])) = frameA).
Proof.
  refine (proj2 (queue_rx_fifo newMcpDecoder [frameA; frameB] _) _ frameA [frameB] _);
    reflexivity.
Defined.

Lemma store_canintf_effect (s : McpDecoder) (r : list Z) :
  length r = 256%nat -> Z.testbit (getReg r CANINTF) 0 = false ->
  let s' := tryLoadNextRxFrame (updateIntPin (set_registers r s)) in
  (forall f q, rxQueue s = f :: q ->
     rxQueue s' = q /\ rx0if s' = true /\
     (frame_ok f -> decodeRxb0 (registers s') = f)) /\
  (rxQueue s = [] -> rxQueue s' = [] /\ rx0if s' = false /\ registers s' = r).
Proof.
  intros Hl Hb. cbv zeta.
  set (s1 := updateIntPin (set_registers r s)).
  assert (Hr1 : registers s1 = r) by (subst s1; by rewrite registers_updateIntPin).
  assert (Hq1 : rxQueue s1 = rxQueue s).
  { subst s1. by destruct (updateIntPin_fields (set_registers r s)) as (_ & _ & -> & _). }
  assert (Hl1 : length (registers s1) = 256%nat) by (by rewrite Hr1).
  assert (H0 : rx0if s1 = false) by (unfold rx0if; by rewrite Hr1).
  destruct (tryLoadNextRxFrame_cases s1 Hl1)
    as [(_ & f & q & Hq & ->) | [[H | H] ->]].
  - rewrite Hq1 in Hq. split.
    + intros f' q' E. rewrite E in Hq. injection Hq as -> ->.
      destruct (loadFrameToRxb0_fields (set_rxQueue q s1) f) as (_ & _ & -> & _).
      split; [done|]. split; [by apply loadFrameToRxb0_rx0if|].
      intros Hf. by apply load_decodes.
    + intros E. congruence.
  - congruence.
  - rewrite Hq1 in H. split; [intros f q E; congruence|].
    intros _. by rewrite Hq1.
Qed.

(** X17. Clearing RX0IF delivers the next frame.  When the host stores a
    value with bit 0 clear into CANINTF, by a WRITE data byte or by a
    BIT_MODIFY whose mask has bit 0 set and whose data has bit 0 clear, the
    frame at the head of the RX queue is moved into RXB0 in the same step
    and RX0IF is set again; with an empty queue RX0IF stays clear. *)
Theorem clearing_rx0if_delivers_next (s : McpDecoder) (b : Z) :
  length (registers s) = 256%nat -> register s = CANINTF ->
  Z.testbit b 0 = false ->
  (state s = WRITE_DATA /\ isInstruction b = false) \/
  (state s = BIT_MODIFY_DATA /\ Z.testbit (bitModifyMask s) 0 = true) ->
  let s' := fst (decode s b) in
  (forall f q, rxQueue s = f :: q ->
     rxQueue s' = q /\ rx0if s' = true /\
     (frame_ok f -> decodeRxb0 (registers s') = f)) /\
  (rxQueue s = [] -> rxQueue s' = [] /\ rx0if s' = false).
Proof.
  intros Hlen Hreg Hb Hcase. cbv zeta. unfold decode.
  destruct Hcase as [[Hst Hni] | [Hst Hm]]; rewrite Hst, ?Hni, Hreg.
  - change (JS.band CANINTF 255) with CANINTF.
    change (CANINTF =? TXB0CTRL) with false.
    change (CANINTF =? CANINTF) with true.
    cbn [andb fst].
    destruct (store_canintf_effect s (setReg (registers s) CANINTF b)) as [H1 H2].
    + by rewrite setReg_length.
    + unfold CANINTF. rewrite getReg_setReg_eq by lia. by rewrite toUint8_testbit by lia.
    + split.
      * intros f q E. apply (H1 f q E).
      * intros E. destruct (H2 E) as (A & B & _). done.
  - change (JS.band CANINTF 255) with CANINTF.
    change (CANINTF =? CANINTF) with true. cbn [fst].
    match goal with
    | |- context [set_registers ?r s] =>
        destruct (store_canintf_effect s r) as [H1 H2]
    end.
    + by rewrite setReg_length.
    + unfold CANINTF. rewrite getReg_setReg_eq by lia. rewrite toUint8_testbit by lia.
      unfold JS.bor, JS.band, JS.bnot.
      rewrite Z.lor_spec, !toInt32_testbit by lia.
      rewrite !Z.land_spec, !toInt32_testbit by lia.
      rewrite Z.lnot_spec, toInt32_testbit by lia.
      rewrite Hm, Hb. btauto.
    + split.
      * intros f q E. apply (H1 f q E).
      * intros E. destruct (H2 E) as (A & B & _). done.
Qed.

Lemma clearing_rx0if_delivers_next_witness :
  rxQueue (fst (decode rxPending 0x00)) = [] /\
  rx0if (fst (decode rxPending 0x00)) = true /\
  (frame_ok frameB -> decodeRxb0 (registers (fst (decode rxPending 0x00))) = frameB).
Proof.
  refine (proj1 (clearing_rx0if_delivers_next rxPending 0x00 _ _ _ _) frameB [] _).
  - vm_compute; reflexivity.
  - reflexivity.
  - reflexivity.
  - right. split; reflexivity.
  - vm_compute; reflexivity.
Defined.

(** ** Stores that do not touch the interrupt line *)

(** X18. The INT pin is recomputed only on a store to CANINTF (and on
    frame emission and RX load), not on a store to CANINTE: a WRITE data
    byte stored at CANINTE makes no callback call and leaves the cached pin
    state as it was, although [(CANINTF & CANINTE) != 0] then has the value
    given by the new mask; enabling an already pending flag therefore does
    not assert the pin. *)
Theorem caninte_write_keeps_pin (s : McpDecoder) (b : Z) :
  state s = WRITE_DATA -> register s = CANINTE -> isInstruction b = false ->
  regs_ok (registers s) ->
  let s' := fst (decode s b) in
  getReg (registers s') CANINTE = b mod 256 /\
  getReg (registers s') CANINTF = getReg (registers s) CANINTF /\
  intPinCalls s' = intPinCalls s /\
  intPinAsserted s' = intPinAsserted s /\
  rxQueue s' = rxQueue s /\
  shouldTriggerInterrupt s' =
    negb (Z.land (getReg (registers s) CANINTF) (b mod 256) =? 0).
Proof.
  intros Hst Hreg Hni [Hlen Hbytes]. cbv zeta. unfold decode.
  rewrite Hst, Hni, Hreg.
  change (JS.band CANINTE 255) with CANINTE.
  change (CANINTE =? TXB0CTRL) with false.
  change (CANINTE =? CANINTF) with false.
  cbn [andb fst registers set_register set_registers intPinCalls intPinAsserted rxQueue].
  unfold shouldTriggerInterrupt. cbn [registers set_register set_registers].
  unfold CANINTE, CANINTF.
  rewrite getReg_setReg_eq, getReg_setReg_ne by lia.
  repeat split; try done.
  pose proof (getReg_is_byte (registers s) 44 Hbytes) as H1.
  pose proof (toUint8_is_byte b) as H2.
  rewrite band_small by (by apply byte_int32). done.
Qed.

Lemma caninte_write_keeps_pin_witness :
  let s := fst (decodeAll (queueRxFrames (setIntPinChangeCallback newMcpDecoder) [frameA])
                  [0x02; 0x2B]) in
  shouldTriggerInterrupt (fst (decode s 0x01)) = true /\
  intPinAsserted (fst (decode s 0x01)) = false /\
  intPinCalls (fst (decode s 0x01)) = [].
Proof.
  pose proof (caninte_write_keeps_pin
                (fst (decodeAll (queueRxFrames (setIntPinChangeCallback newMcpDecoder)
                                   [frameA]) [0x02; 0x2B])) 0x01) as H.
  cbv zeta in H |- *.
  destruct H as (_ & _ & H3 & H4 & _ & H6);
    [reflexivity | reflexivity | reflexivity | | ].
  - assert (Hq : regs_ok (registers (queueRxFrames
                         (setIntPinChangeCallback newMcpDecoder) [frameA])))
      by (apply queueRxFrames_ok; exact new_regs_ok).
    exact Hq.
  - rewrite H3, H4, H6. vm_compute. repeat split.
Defined.

(** ** Sending a frame through TX buffer 0 *)

Lemma tx_header_run (hs : list Z) (s : McpDecoder) :
  state s = TX_HEADER -> (length (txHeader s) + length hs <= 4)%nat ->
  length (registers s) = 256%nat ->
  let res := decodeAll s hs in
  snd res = map (fun _ => noFrame 0) hs /\
  state (fst res) = TX_HEADER /\
  txHeader (fst res) = txHeader s ++ hs /\
  txData (fst res) = txData s /\
  txFrameCallback (fst res) = txFrameCallback s /\
  length (registers (fst res)) = length (registers s) /\
  rxQueue (fst res) = rxQueue s /\
  getReg (registers (fst res)) CANINTF = getReg (registers s) CANINTF.
Proof.
  revert s. induction hs as [|h hs IH]; intros s Hs Hn H256; cbv zeta.
  - cbn [decodeAll fst snd map]. by rewrite app_nil_r.
  - cbn [length] in Hn. rewrite decodeAll_cons.
    assert (E : decode s h =
                (set_txHeader (txHeader s ++ [h])
                   (set_registers
                      (setReg (registers s)
                         (JS.band (TXB0_SIDH + Z.of_nat (length (txHeader s))) 255) h) s),
                 noFrame 0)).
    { unfold decode. rewrite Hs.
      cbn [txHeader set_txHeader set_registers]. rewrite length_app. cbn [length].
      destruct (Z.eqb_spec (Z.of_nat (length (txHeader s) + 1)) 5); [lia | done]. }
    rewrite E. cbn [fst snd].
    destruct (IH (set_txHeader (txHeader s ++ [h])
                    (set_registers
                       (setReg (registers s)
                          (JS.band (TXB0_SIDH + Z.of_nat (length (txHeader s))) 255) h) s)))
      as (I1 & I2 & I3 & I4 & I5 & I6 & I7 & I8).
    + cbn [state set_txHeader set_registers]. done.
    + cbn [txHeader set_txHeader]. rewrite length_app. cbn [length]. lia.
    + cbn [registers set_txHeader set_registers]. by rewrite setReg_length.
    + rewrite I1, I2, I3, I4, I5, I6, I7, I8.
      cbn [txHeader txData txFrameCallback registers rxQueue set_txHeader
           set_registers map].
      destruct (tx_address (Z.of_nat (length (txHeader s)))) as [-> Na]; [lia|].
      rewrite <- app_assoc, setReg_length.
      rewrite getReg_setReg_ne by (done || (unfold CANINTF; lia)). done.
Qed.

Lemma tx_data_run (ds : list Z) (s : McpDecoder) :
  state s = TX_DATA ->
  Z.of_nat (length (txData s) + length ds) < txDlc s -> txDlc s <= 15 ->
  length (registers s) = 256%nat ->
  let res := decodeAll s ds in
  snd res = map (fun _ => noFrame 0) ds /\
  state (fst res) = TX_DATA /\
  txHeader (fst res) = txHeader s /\
  txData (fst res) = txData s ++ ds /\
  txDlc (fst res) = txDlc s /\
  txFrameCallback (fst res) = txFrameCallback s /\
  length (registers (fst res)) = length (registers s) /\
  rxQueue (fst res) = rxQueue s /\
  getReg (registers (fst res)) CANINTF = getReg (registers s) CANINTF.
Proof.
  revert s. induction ds as [|d ds IH]; intros s Hs Hn H15 H256; cbv zeta.
  - cbn [decodeAll fst snd map]. by rewrite app_nil_r.
  - cbn [length] in Hn. rewrite decodeAll_cons.
    assert (E : decode s d =
                (set_txData (txData s ++ [d])
                   (set_registers
                      (setReg (registers s)
                         (JS.band (TXB0_SIDH + 5 + Z.of_nat (length (txData s))) 255) d) s),
                 noFrame 0)).
    { unfold decode. rewrite Hs.
      cbn [txData set_txData set_registers txDlc]. rewrite length_app. cbn [length].
      destruct (Z.eqb_spec (Z.of_nat (length (txData s) + 1)) (txDlc s)); [lia | done]. }
    rewrite E. cbn [fst snd].
    destruct (IH (set_txData (txData s ++ [d])
                    (set_registers
                       (setReg (registers s)
                          (JS.band (TXB0_SIDH + 5 + Z.of_nat (length (txData s))) 255) d) s)))
      as (I1 & I2 & I3 & I4 & I5 & I6 & I7 & I8 & I9).
    + done.
    + cbn [txData txDlc set_txData set_registers]. rewrite length_app. cbn [length]. lia.
    + done.
    + cbn [registers set_txData set_registers]. by rewrite setReg_length.
    + rewrite I1, I2, I3, I4, I5, I6, I7, I8, I9.
      cbn [txHeader txData txDlc txFrameCallback registers rxQueue set_txData
           set_registers map].
      destruct (tx_address (5 + Z.of_nat (length (txData s)))) as [Ea Na]; [lia|].
      rewrite Z.add_assoc in Ea, Na. rewrite Ea.
      rewrite <- app_assoc, setReg_length.
      rewrite getReg_setReg_ne by (done || (unfold CANINTF; lia)). done.
Qed.

Lemma emitCanFrame_tx0if (s : McpDecoder) :
  length (registers s) = 256%nat ->
  Z.testbit (getReg (registers (fst (emitCanFrame s))) CANINTF) 2 = true /\
  state (fst (emitCanFrame s)) = IDLE.
Proof.
  intros Hlen. unfold emitCanFrame. cbn [fst registers set_state state].
  split; [|done].
  set (s0 := set_registers _ s).
  assert (H0 : Z.testbit (getReg (registers (updateIntPin s0)) CANINTF) 2 = true).
  { rewrite registers_updateIntPin. subst s0. cbn [registers set_registers].
    unfold CANINTF. rewrite getReg_setReg_eq by lia. rewrite toUint8_testbit by lia.
    unfold JS.bor. rewrite Z.lor_spec, !toInt32_testbit by lia.
    apply orb_true_r. }
  assert (Hl : length (registers (updateIntPin s0)) = 256%nat).
  { rewrite registers_updateIntPin. subst s0. cbn [registers set_registers].
    by rewrite setReg_length. }
  destruct (txFrameCallback (updateIntPin s0)) as [cb|]; [|exact H0].
  destruct (cb _) as [|f0 fs]; [exact H0|].
  unfold queueRxFrames.
  set (s1 := set_rxQueue _ _).
  destruct (tryLoadNextRxFrame_cases s1 Hl) as [(_ & f & q & _ & ->) | [_ ->]];
    [|exact H0].
  rewrite loadFrameToRxb0_low by (done || (unfold RXB0_SIDH, CANINTF; lia)).
  case_decide; [|done].
  rewrite toUint8_testbit by lia. unfold JS.bor.
  rewrite Z.lor_spec, !toInt32_testbit by lia.
  cbn [registers s1 set_rxQueue]. rewrite H0. done.
Qed.

Lemma band_nibble_small (d : Z) : 0 <= d <= 15 -> JS.band d 0x0F = d.
Proof.
  intros H. rewrite band_small by lia. change 15 with (Z.ones 4).
  apply land_ones_small; lia.
Qed.

Lemma tx_open (s : McpDecoder) :
  acceptsInstruction s ->
  exists s1, decodeAll s [INSTRUCTION_WRITE; TXB0_SIDH] = (s1, [noFrame 0; noFrame 0]) /\
    state s1 = TX_HEADER /\ txHeader s1 = [] /\ txData s1 = txData s /\
    registers s1 = registers s /\ rxQueue s1 = rxQueue s /\
    txFrameCallback s1 = txFrameCallback s.
Proof.
  intros Hs. eexists. split.
  - rewrite decodeAll_cons, accepts_write by done. reflexivity.
  - done.
Qed.

Lemma tx_dlc_step_zero (s : McpDecoder) (d : Z) :
  state s = TX_HEADER -> length (txHeader s) = 4%nat -> JS.band d 0x0F = 0 ->
  length (registers s) = 256%nat ->
  exists s3, decode s d = emitResult (emitCanFrame s3) /\
    txHeader s3 = txHeader s ++ [d] /\ txDlc s3 = 0 /\ txData s3 = txData s /\
    length (registers s3) = length (registers s) /\
    rxQueue s3 = rxQueue s /\ txFrameCallback s3 = txFrameCallback s /\
    getReg (registers s3) CANINTF = getReg (registers s) CANINTF.
Proof.
  intros Hs Hl Hd H256.
  assert (E4 : JS.num ((txHeader s ++ [d]) !! 4%nat) = d).
  { rewrite lookup_app_r by lia. rewrite Hl. reflexivity. }
  eexists. split.
  - unfold decode. rewrite Hs.
    cbn [txHeader set_txHeader set_registers txDlc set_txDlc].
    rewrite length_app, Hl, E4, Hd. cbn [length Nat.add]. reflexivity.
  - cbn [txHeader txDlc txData registers rxQueue txFrameCallback set_txDlc
         set_txHeader set_registers].
    destruct (tx_address (Z.of_nat 4)) as [-> Na]; [lia|].
    rewrite setReg_length, getReg_setReg_ne by (done || (unfold CANINTF; lia)).
    done.
Qed.

Lemma tx_dlc_step_data (s : McpDecoder) (d : Z) :
  state s = TX_HEADER -> length (txHeader s) = 4%nat -> JS.band d 0x0F <> 0 ->
  let s' := fst (decode s d) in
  snd (decode s d) = noFrame 0 /\ state s' = TX_DATA /\
  txHeader s' = txHeader s ++ [d] /\ txDlc s' = JS.band d 0x0F /\ txData s' = [] /\
  length (registers s') = length (registers s) /\
  rxQueue s' = rxQueue s /\ txFrameCallback s' = txFrameCallback s /\
  (length (registers s) = 256%nat ->
   getReg (registers s') CANINTF = getReg (registers s) CANINTF).
Proof.
  intros Hs Hl Hd. cbv zeta.
  assert (E4 : JS.num ((txHeader s ++ [d]) !! 4%nat) = d).
  { rewrite lookup_app_r by lia. rewrite Hl. reflexivity. }
  unfold decode. rewrite Hs.
  cbn [txHeader set_txHeader set_registers txDlc set_txDlc].
  rewrite length_app, Hl, E4. cbn [length Nat.add].
  change (Z.of_nat 5 =? 5) with true. cbv iota.
  destruct (Z.eqb_spec (JS.band d 15) 0); [done|].
  cbn [fst snd state txHeader txDlc txData registers rxQueue txFrameCallback
       set_state set_txData set_txDlc set_txHeader set_registers].
  rewrite setReg_length. repeat split; try done.
  intros H256. destruct (tx_address (Z.of_nat 4)) as [-> Na]; [lia|].
  by rewrite getReg_setReg_ne by (done || (unfold CANINTF; lia)).
Qed.

Lemma tx_last_step (s : McpDecoder) (d : Z) :
  state s = TX_DATA -> Z.of_nat (length (txData s) + 1) = txDlc s ->
  txDlc s <= 15 -> length (registers s) = 256%nat ->
  exists s5, decode s d = emitResult (emitCanFrame s5) /\
    txHeader s5 = txHeader s /\ txDlc s5 = txDlc s /\ txData s5 = txData s ++ [d] /\
    length (registers s5) = length (registers s) /\
    rxQueue s5 = rxQueue s /\ txFrameCallback s5 = txFrameCallback s /\
    getReg (registers s5) CANINTF = getReg (registers s) CANINTF.
Proof.
  intros Hs Hl H15 H256. eexists. split.
  - unfold decode. rewrite Hs.
    cbn [txData set_txData set_registers txDlc]. rewrite length_app. cbn [length].
    destruct (Z.eqb_spec (Z.of_nat (length (txData s) + 1)) (txDlc s)); [|done].
    reflexivity.
  - cbn [txHeader txDlc txData registers rxQueue txFrameCallback set_txData
         set_registers].
    destruct (tx_address (5 + Z.of_nat (length (txData s)))) as [Ea Na]; [lia|].
    rewrite Z.add_assoc in Ea, Na. rewrite Ea.
    rewrite setReg_length, getReg_setReg_ne by (done || (unfold CANINTF; lia)).
    done.
Qed.

Lemma emit_frame_of (s : McpDecoder) (f : CanFrame) :
  0 <= id f <= 0x7FF -> 0 <= eid f <= 0x3FFFF ->
  txHeader s = [sidh_of (id f); sidl_of (id f) (eid f);
                Z.land (Z.shiftr (eid f) 8) 0xFF; Z.land (eid f) 0xFF; dlc f] ->
  txDlc s = dlc f -> txData s = data f ->
  snd (emitCanFrame s) = f.
Proof.
  intros Hi He Hh Hd Hdat. rewrite snd_emitCanFrame, Hh, Hd, Hdat.
  cbn [lookup list_lookup JS.num default from_option Datatypes.id].
  destruct (emit_id (sidh_of (id f)) (sidl_of (id f) (eid f))) as [-> _];
    [by apply sidh_of_byte | by apply sidl_of_byte |].
  destruct (emit_eid (sidl_of (id f) (eid f)) (Z.land (Z.shiftr (eid f) 8) 255)
              (Z.land (eid f) 255)) as [-> _];
    [by apply sidl_of_byte | apply (land_range _ 255 8); lia
    | apply (land_range _ 255 8); lia |].
  rewrite id_roundtrip, eid_roundtrip by done. by destruct f.
Qed.

Lemma replicate_noFrame (l : list Z) :
  map (fun _ : Z => noFrame 0) l = replicate (length l) (noFrame 0).
Proof. induction l as [|x l IHl]; [done|]. cbn. by rewrite IHl. Qed.

Lemma tx_write_run (s : McpDecoder) (f : CanFrame) :
  acceptsInstruction s -> length (registers s) = 256%nat ->
  0 <= id f <= 0x7FF -> 0 <= eid f <= 0x3FFFF -> 0 <= dlc f <= 15 ->
  Z.of_nat (length (data f)) = dlc f ->
  (dlc f = 0 -> txData s = []) ->
  exists s5,
    decodeAll s ([INSTRUCTION_WRITE; TXB0_SIDH] ++ txBytes f)
    = (fst (emitCanFrame s5),
       replicate (6 + length (data f)) (noFrame 0) ++ [{| rx := 0; frame := Some f |}]) /\
    snd (emitCanFrame s5) = f /\
    length (registers s5) = 256%nat /\
    rxQueue s5 = rxQueue s /\
    txFrameCallback s5 = txFrameCallback s /\
    getReg (registers s5) CANINTF = getReg (registers s) CANINTF.
Proof.
  intros Hs Hlen Hi He Hd Hl Hstale.
  rewrite decodeAll_app.
  destruct (tx_open s Hs) as (s1 & -> & O1 & O2 & O3 & O4 & O5 & O6). cbn [fst snd].
  rewrite <- O4 in Hlen. rewrite <- O4, <- O5, <- O6. clear O4 O5 O6.
  unfold txBytes.
  change ([sidh_of (id f); sidl_of (id f) (eid f); Z.land (Z.shiftr (eid f) 8) 255;
           Z.land (eid f) 255; dlc f] ++ data f)
    with ([sidh_of (id f); sidl_of (id f) (eid f); Z.land (Z.shiftr (eid f) 8) 255;
           Z.land (eid f) 255] ++ dlc f :: data f).
  rewrite decodeAll_app.
  destruct (tx_header_run [sidh_of (id f); sidl_of (id f) (eid f);
                           Z.land (Z.shiftr (eid f) 8) 255; Z.land (eid f) 255] s1)
    as (R1 & R2 & R3 & R4 & R5 & R6 & R7 & R8); [done | rewrite O2; cbn; lia | done |].
  rewrite R1. set (s2 := fst (decodeAll s1 _)) in *. clearbody s2.
  rewrite O2 in R3. cbn [app] in R3.
  assert (Hlen2 : length (txHeader s2) = 4%nat) by (by rewrite R3).
  rewrite <- R5, <- R7, <- R8. rewrite <- R6 in Hlen. clear R5 R6 R7 R8.
  rewrite decodeAll_cons.
  pose proof (band_nibble_small (dlc f) Hd) as Hn.
  destruct (Z.eq_dec (dlc f) 0) as [Z0 | NZ].
  - assert (Hd0 : data f = []) by (destruct (data f); [done | cbn in Hl; lia]).
    destruct (tx_dlc_step_zero s2 (dlc f))
      as (s3 & -> & Z1 & Z2 & Z3 & Z4 & Z5 & Z6 & Z7); [done | done | lia | done |].
    exists s3. rewrite emitResult_fst.
    assert (Ef : snd (emitCanFrame s3) = f).
    { apply emit_frame_of; try done.
      - rewrite Z1, R3. reflexivity.
      - congruence.
      - rewrite Z3, R4, O3, Hd0. by apply Hstale. }
    rewrite Hd0. cbn [decodeAll fst snd length map app replicate Nat.add].
    unfold emitResult. cbn [snd fst]. rewrite Ef.
    repeat split; try done. congruence.
  - destruct (tx_dlc_step_data s2 (dlc f))
      as (P1 & P2 & P3 & P4 & P5 & P6 & P7 & P8 & P9); [done | done | lia |].
    specialize (P9 Hlen).
    rewrite P1. set (s3 := fst (decode s2 (dlc f))) in *. clearbody s3.
    cbn [fst snd].
    rewrite <- P7, <- P8, <- P9. rewrite <- P6 in Hlen. clear P6 P7 P8 P9.
    destruct (data f) as [|d0 dat] eqn:Ed using rev_ind; [cbn in Hl; lia|].
    clear IHdat. rewrite length_app in Hl |- *. cbn [length] in Hl |- *.
    rewrite decodeAll_app.
    destruct (tx_data_run dat s3)
      as (D1 & D2 & D3 & D4 & D5 & D6 & D7 & D8 & D9);
      [done | rewrite P4, P5, Hn; cbn [length]; lia | rewrite P4, Hn; lia | done |].
    rewrite D1. set (s4 := fst (decodeAll s3 dat)) in *. clearbody s4.
    rewrite P5 in D4. cbn [app] in D4.
    rewrite <- D6, <- D8, <- D9. rewrite <- D7 in Hlen. clear D6 D7 D8 D9.
    rewrite (decodeAll_cons s4 d0 []). cbn [decodeAll].
    destruct (tx_last_step s4 d0)
      as (s5 & -> & L1 & L2 & L3 & L4 & L5 & L6 & L7);
      [done | rewrite D4, D5, P4, Hn; lia | rewrite D5, P4, Hn; lia | done |].
    exists s5. rewrite emitResult_fst.
    assert (Ef : snd (emitCanFrame s5) = f).
    { apply emit_frame_of; try done.
      - rewrite L1, D3, P3, R3. reflexivity.
      - rewrite L2, D5, P4. done.
      - rewrite L3, D4. done. }
    cbn [fst snd]. unfold emitResult. cbn [snd fst]. rewrite Ef.
    repeat split; try done; [|congruence].
    f_equal. rewrite !replicate_noFrame.
    replace (6 + (length dat + 1))%nat with (S (S (S (S (S (S (S (length dat))))))))
      by lia.
    cbn [length replicate app]. reflexivity.
Qed.

(** X19. Sending a frame.  For a frame with an 11-bit id, an 18-bit eid,
    dlc in 1..15 and dlc data bytes, the WRITE of its bytes to TX buffer 0
    (opcode 0x02, address 0x31, header, data) surfaces no frame until the
    last byte and exactly that frame on the last byte; all replies are 0,
    the decoder is back in IDLE and CANINTF.TX0IF is set.  A frame with
    dlc 0 and no data is surfaced in the same way when no data is left
    over from an earlier frame. *)
Theorem tx_write_surfaces_frame (s : McpDecoder) (f : CanFrame) :
  acceptsInstruction s -> length (registers s) = 256%nat ->
  0 <= id f <= 0x7FF -> 0 <= eid f <= 0x3FFFF -> 0 <= dlc f <= 15 ->
  Z.of_nat (length (data f)) = dlc f ->
  (dlc f = 0 -> txData s = []) ->
  let res := decodeAll s ([INSTRUCTION_WRITE; TXB0_SIDH] ++ txBytes f) in
  map frame (snd res) = replicate (6 + length (data f)) None ++ [Some f] /\
  Forall (fun r => rx r = 0) (snd res) /\
  state (fst res) = IDLE /\
  Z.testbit (getReg (registers (fst res)) CANINTF) 2 = true.
Proof.
  intros Hs Hlen Hi He Hd Hl Hstale. cbv zeta.
  destruct (tx_write_run s f) as (s5 & -> & Ef & E256 & _); try done.
  destruct (emitCanFrame_tx0if s5 E256) as [T1 T2].
  cbn [fst snd]. repeat split; try done.
  - rewrite map_app. cbn [map frame]. f_equal.
    generalize (6 + length (data f))%nat. intros n.
    induction n as [|n IH]; [done|]. cbn. by rewrite IH.
  - apply Forall_app. split; [|by repeat constructor].
    apply Forall_forall. intros r Hr. apply elem_of_replicate in Hr. by destruct Hr as [-> _].
Qed.

Lemma tx_write_surfaces_frame_witness :
  map frame (snd (decodeAll newMcpDecoder
                    ([INSTRUCTION_WRITE; TXB0_SIDH] ++ txBytes sampleFrame)))
  = replicate 9 None ++ [Some sampleFrame].
Proof.
  refine (proj1 (tx_write_surfaces_frame newMcpDecoder sampleFrame _ _ _ _ _ _ _)).
  - left; reflexivity.
  - reflexivity.
  - cbn; lia.
  - cbn; lia.
  - cbn; lia.
  - reflexivity.
  - cbn. lia.
Defined.

(** ** The bridge: commands are acknowledged through RXB0 *)

Lemma handleTxFrameAcks_cases (f : CanFrame) :
  handleTxFrameAcks f
  = makeAck f :: (if decodeCommand f =? SWITCH_CMD then [makeAck f] else []).
Proof.
  unfold handleTxFrameAcks. cbv zeta.
  destruct (Z.eqb_spec (decodeCommand f) SYSTEM_CMD) as [->|_]; [done|].
  destruct (Z.eqb_spec (decodeCommand f) SPEED_CMD) as [->|_]; [done|].
  destruct (Z.eqb_spec (decodeCommand f) DIRECTION_CMD) as [->|_]; [done|].
  destruct (Z.eqb_spec (decodeCommand f) LIGHT_CMD) as [->|_]; [done|].
  by destruct (Z.eqb_spec (decodeCommand f) SWITCH_CMD).
Qed.





(** ** Sensor polling (McpIO) *)

Lemma mapGet_mapSet (k k' : Z) (v : bool) (m : SensorMap) :
  mapGet k (mapSet k' v m) = if k' =? k then Some v else mapGet k m.
Proof.
  induction m as [|[k0 v0] m IH]; cbn [mapSet mapGet].
  - done.
  - destruct (Z.eqb_spec k0 k') as [->|N]; cbn [mapGet].
    + by destruct (Z.eqb_spec k' k).
    + destruct (Z.eqb_spec k0 k) as [->|N']; [|done].
      by destruct (Z.eqb_spec k' k); [lia|].
Qed.

Lemma mapSet_all_triggered (k : Z) (m : SensorMap) :
  all_triggered m -> all_triggered (mapSet k true m).
Proof.
  unfold all_triggered. induction m as [|[k0 v0] m IH]; intros H; cbn [mapSet].
  - by repeat constructor.
  - apply Forall_cons in H as [H1 H2].
    destruct (k0 =? k); apply Forall_cons; split; auto.
Qed.

Lemma mapGet_keys (k : Z) (m : SensorMap) :
  k ∈ m.*1 <-> exists v, mapGet k m = Some v.
Proof.
  induction m as [|[k0 v0] m IH]; cbn [mapGet fmap list_fmap fst].
  - split; [by intros H%elem_of_nil | by intros [v H]].
  - rewrite elem_of_cons, IH. destruct (Z.eqb_spec k0 k) as [->|N].
    + split; [by exists v0 | by left].
    + split; [intros [E|H]; [congruence | done] | by right].
Qed.

Lemma mapGet_triggered (k : Z) (m : SensorMap) :
  all_triggered m -> mapGet k m = (if decide (k ∈ m.*1) then Some true else None).
Proof.
  unfold all_triggered. induction m as [|[k0 v0] m IH]; intros H;
    cbn [mapGet fmap list_fmap fst].
  - by rewrite decide_False by apply not_elem_of_nil.
  - apply Forall_cons in H as [H1 H2]. cbn in H1. subst v0.
    destruct (Z.eqb_spec k0 k) as [->|N].
    + by rewrite decide_True by left.
    + rewrite IH by done.
      destruct (decide (k ∈ m.*1)) as [I|I].
      * by rewrite decide_True by (by right).
      * rewrite decide_False; [done|]. intros [E|E]%elem_of_cons; [congruence|done].
Qed.

Lemma set_all_run (l : list Z) (m : SensorMap) :
  let m' := fold_left (fun m sensor => mapSet sensor true m) l m in
  (all_triggered m -> all_triggered m') /\
  (forall k, k ∈ m'.*1 <-> k ∈ l \/ k ∈ m.*1).
Proof.
  revert m. induction l as [|x l IH]; intros m; cbv zeta; cbn [fold_left].
  - split; [done|]. intros k. rewrite elem_of_nil. tauto.
  - destruct (IH (mapSet x true m)) as [I1 I2]. split.
    + intros H. by apply I1, mapSet_all_triggered.
    + intros k. rewrite I2, elem_of_cons, !mapGet_keys, mapGet_mapSet.
      destruct (Z.eqb_spec x k) as [->|N].
      * split; [tauto|]. intros _. right. by exists true.
      * split; [tauto|]. intros [[E|H]|H]; [congruence | tauto | tauto].
Qed.

Lemma currentStates_run (trains : list (list Z)) (m : SensorMap) :
  fold_left (fun m train => fold_left (fun m sensor => mapSet sensor true m) train m)
            trains m
  = fold_left (fun m sensor => mapSet sensor true m) (concat trains) m.
Proof.
  revert m. induction trains as [|t ts IH]; intros m; cbn [fold_left concat].
  - done.
  - by rewrite IH, fold_left_app.
Qed.

Lemma currentStates_spec (trains : list (list Z)) :
  all_triggered (currentStates trains) /\
  (forall k, k ∈ (currentStates trains).*1 <-> k ∈ concat trains).
Proof.
  unfold currentStates. rewrite currentStates_run.
  destruct (set_all_run (concat trains) []) as [H1 H2]. split.
  - apply H1. constructor.
  - intros k. rewrite H2. cbn. rewrite elem_of_nil. tauto.
Qed.


Lemma flat_map_empty {A B : Type} (g : A -> list B) (l : list A) :
  (forall x, x ∈ l -> g x = []) -> flat_map g l = [].
Proof.
  induction l as [|x l IH]; intros H; cbn [flat_map]; [done|].
  rewrite H by left. rewrite IH; [done|]. intros y Hy. apply H. by right.
Qed.

Lemma all_triggered_elem (m : SensorMap) (k : Z) (v : bool) :
  all_triggered m -> (k, v) ∈ m -> v = true /\ k ∈ m.*1.
Proof.
  intros H Hin. split.
  - unfold all_triggered in H. rewrite Forall_forall in H. exact (H _ Hin).
  - apply list_elem_of_fmap. by exists (k, v).
Qed.




(** X22. A poll with nothing new is silent.  After any poll, a further
    poll in which the same sensors are triggered (whatever the trains and
    the order) produces no event and does not touch the decoder; and the
    sensors remembered after a poll are exactly the triggered ones. *)
Theorem poll_again_silent (trains trains' : list (list Z)) (io : McpIO) :
  (forall k, k ∈ concat trains' <-> k ∈ concat trains) ->
  let io1 := pollSensors (Some trains) io in
  let io2 := pollSensors (Some trains') io1 in
  sensorEvents (sensorStates io1) (currentStates trains') = [] /\
  decoder io2 = decoder io1 /\
  (forall k, mapHas k (sensorStates io2) = true <-> k ∈ concat trains).
Proof.
  intros Hsame. cbv zeta.
  destruct (currentStates_spec trains) as [H1 K1].
  destruct (currentStates_spec trains') as [H2 K2].
  assert (E : sensorEvents (currentStates trains) (currentStates trains') = []).
  { unfold sensorEvents.
    rewrite (flat_map_empty _ (currentStates trains')),
            (flat_map_empty _ (currentStates trains)); [done | |].
    - intros [k v] Hin. destruct (all_triggered_elem _ k v H1 Hin) as [-> Hk].
      unfold mapHas. rewrite mapGet_triggered, decide_True; [done | | done].
      by rewrite K2, Hsame, <- K1.
    - intros [k v] Hin. destruct (all_triggered_elem _ k v H2 Hin) as [-> Hk].
      rewrite mapGet_triggered, decide_True; [done | | done].
      by rewrite K1, <- Hsame, <- K2. }
  unfold pollSensors. cbn [sensorStates decoder]. rewrite E.
  split; [done|]. split; [done|].
  intros k. unfold mapHas. rewrite mapGet_triggered by done.
  rewrite <- Hsame, <- K2. by destruct (decide (k ∈ (currentStates trains').*1)).
Qed.

Lemma poll_again_silent_witness :
  decoder (pollSensors (Some [[3; 7]]) (pollSensors (Some [[7]; [3; 7]]) newMcpIOState))
  = decoder (pollSensors (Some [[7]; [3; 7]]) newMcpIOState).
Proof.
  refine (proj1 (proj2 (poll_again_silent [[7]; [3; 7]] [[3; 7]] newMcpIOState _))).
  intros k. cbn [concat app]. rewrite !elem_of_cons, !elem_of_nil. tauto.
Defined.

Lemma queue_into_free (s : McpDecoder) (f : CanFrame) (q : list CanFrame) :
  length (registers s) = 256%nat -> rx0if s = false -> rxQueue s = [] ->
  frame_ok f ->
  let s' := queueRxFrames s (f :: q) in
  decodeRxb0 (registers s') = f /\ rx0if s' = true /\ rxQueue s' = q.
Proof.
  intros Hlen Hfree Hempty Hok. cbv zeta. unfold queueRxFrames.
  rewrite Hempty. cbn [app].
  destruct (tryLoadNextRxFrame_cases (set_rxQueue (f :: q) s) Hlen)
    as [(_ & f' & q' & E & ->) | ([H | H] & _)].
  - cbn [rxQueue set_rxQueue] in E. injection E as E1 E2. subst f' q'.
    destruct (loadFrameToRxb0_fields (set_rxQueue q (set_rxQueue (f :: q) s)) f)
      as (_ & _ & -> & _).
    split; [by apply load_decodes|]. split; [by apply loadFrameToRxb0_rx0if | done].
  - unfold rx0if in *. cbn [registers set_rxQueue] in H. congruence.
  - done.
Qed.

Lemma set_all_head (l : list Z) (k0 : Z) (m : SensorMap) :
  exists m', fold_left (fun m sensor => mapSet sensor true m) l ((k0, true) :: m)
             = (k0, true) :: m'.
Proof.
  revert m. induction l as [|x l IH]; intros m; cbn [fold_left mapSet].
  - by exists m.
  - destruct (k0 =? x); apply IH.
Qed.

(** X23. A newly triggered sensor reaches the driver.  If the first sensor
    the controller reports is not among the remembered ones, and RXB0 is
    free with nothing queued, then right after the poll RXB0 holds the
    event frame of that sensor (old state 0, new state 1) and RX0IF is
    set. *)
Theorem sensor_trigger_delivered (io : McpIO) (trains : list (list Z))
    (k0 : Z) (rest : list Z) :
  concat trains = k0 :: rest -> k0 ∉ (sensorStates io).*1 ->
  length (registers (decoder io)) = 256%nat ->
  rx0if (decoder io) = false -> rxQueue (decoder io) = [] ->
  let io' := pollSensors (Some trains) io in
  decodeRxb0 (registers (decoder io')) = makeSensorEvent k0 false true /\
  rx0if (decoder io') = true /\
  mapHas k0 (sensorStates io') = true.
Proof.
  intros Hc Hnew Hlen Hfree Hempty. cbv zeta.
  unfold pollSensors. cbn [decoder sensorStates].
  assert (Hcur : exists m', currentStates trains = (k0, true) :: m').
  { unfold currentStates. rewrite currentStates_run, Hc. cbn [fold_left mapSet].
    apply set_all_head. }
  destruct Hcur as [m' Hcur]. rewrite Hcur.
  assert (Hget : mapGet k0 (sensorStates io) = None).
  { destruct (mapGet k0 (sensorStates io)) as [v|] eqn:E; [|done].
    exfalso. apply Hnew, mapGet_keys. by exists v. }
  unfold sensorEvents. cbn [flat_map]. rewrite Hget.
  cbn [default from_option Bool.eqb app].
  destruct (queue_into_free (decoder io) (makeSensorEvent k0 false true)
              (flat_map (fun '(sensorId, newState) =>
                 let oldState := default false (mapGet sensorId (sensorStates io)) in
                 if Bool.eqb newState oldState then []
                 else [makeSensorEvent sensorId oldState newState]) m'
               ++ flat_map (fun '(sensorId, oldState) =>
                    if mapHas sensorId ((k0, true) :: m') then []
                    else [makeSensorEvent sensorId oldState false]) (sensorStates io)))
    as (Q1 & Q2 & _); try done; [apply frame_ok_sensor|].
  split; [exact Q1|]. split; [exact Q2|].
  unfold mapHas. cbn [mapGet]. by rewrite Z.eqb_refl.
Qed.

Lemma sensor_trigger_delivered_witness :
  decodeRxb0 (registers (decoder (pollSensors (Some [[7]; [3; 7]]) newMcpIOState)))
  = makeSensorEvent 7 false true.
Proof.
  refine (proj1 (sensor_trigger_delivered newMcpIOState [[7]; [3; 7]] 7 [3; 7] _ _ _ _ _)).
  - reflexivity.
  - cbn. apply not_elem_of_nil.
  - reflexivity.
  - reflexivity.
  - reflexivity.
Defined.

(** ** The BIT MODIFY transaction *)

Lemma accepts_bit_modify (s : McpDecoder) :
  acceptsInstruction s ->
  decode s INSTRUCTION_BIT_MODIFY = (set_state BIT_MODIFY_ADDR s, noFrame 0).
Proof. intros [H | [H | H]]; unfold decode; rewrite H; reflexivity. Qed.

(** X24. BIT MODIFY on an ordinary register.  The four bytes 0x05, address,
    mask, data, sent when an opcode is accepted, are each answered by 0
    and surface no frame; afterwards the decoder is in IDLE, the addressed
    register (any but CANINTF) has the data's bit wherever the mask has a
    1 and its old bit elsewhere, and every other register is unchanged. *)
Theorem bit_modify_transaction (s : McpDecoder) (a m d : Z) :
  acceptsInstruction s -> regs_ok (registers s) ->
  is_byte a -> is_byte m -> is_byte d -> a <> CANINTF ->
  let res := decodeAll s [INSTRUCTION_BIT_MODIFY; a; m; d] in
  snd res = [noFrame 0; noFrame 0; noFrame 0; noFrame 0] /\
  state (fst res) = IDLE /\
  (forall n, 0 <= n ->
     Z.testbit (getReg (registers (fst res)) a) n
     = if Z.testbit m n then Z.testbit d n
       else Z.testbit (getReg (registers s) a) n) /\
  (forall k, 0 <= k -> k <> a ->
     getReg (registers (fst res)) k = getReg (registers s) k).
Proof.
  intros Hs [Hlen Hbytes] Ha Hm Hd Hne. cbv zeta.
  rewrite decodeAll_cons, accepts_bit_modify by done.
  cbn [fst snd decodeAll decode state set_state set_register set_bitModifyMask
       register bitModifyMask registers].
  rewrite (band_ff_byte a) by done.
  destruct (Z.eqb_spec a CANINTF) as [E|_]; [done|].
  cbn [fst snd state set_state registers set_registers].
  pose proof (getReg_is_byte (registers s) a Hbytes) as Ho.
  destruct (bit_modify_byte _ _ _ Ho Hm Hd) as [E Hrange].
  rewrite E. unfold is_byte in Ha.
  split; [done|]. split; [done|]. split.
  - intros n Hn. rewrite getReg_setReg_eq by (done || lia).
    rewrite toUint8_byte by done.
    rewrite Z.lor_spec, !Z.land_spec, Z.lnot_spec by done.
    destruct (Z.testbit m n), (Z.testbit d n), (Z.testbit (getReg (registers s) a) n);
      reflexivity.
  - intros k Hk Hka. by rewrite getReg_setReg_ne.
Qed.

Lemma bit_modify_transaction_witness :
  snd (decodeAll newMcpDecoder [INSTRUCTION_BIT_MODIFY; CANINTE; 0x05; 0xFF])
  = [noFrame 0; noFrame 0; noFrame 0; noFrame 0].
Proof.
  refine (proj1 (bit_modify_transaction newMcpDecoder CANINTE 0x05 0xFF _ _ _ _ _ _)).
  - left; reflexivity.
  - exact new_regs_ok.
  - unfold is_byte, CANINTE; lia.
  - unfold is_byte; lia.
  - unfold is_byte; lia.
  - unfold CANINTE, CANINTF; lia.
Defined.

(** ** The two forms of the handler's result *)

(** X25. The handler that returns [immediate] and [delayed] frames and the
    handler that returns one array produce the same frames in the same
    order: [immediate] followed by [delayed] is the array. *)
Theorem handle_result_splits_acks (h : Cs3Handler) (f : CanFrame) :
  immediate (snd (handleTxFrame h f)) ++ delayed (snd (handleTxFrame h f))
  = handleTxFrameAcks f.
Proof.
  destruct (handleTxFrame_cases h f) as (-> & -> & _).
  by rewrite handleTxFrameAcks_cases.
Qed.
